(** * CHIP-8 emulator: a shallow embedding of [Chip_8] from main.cpp

    The machine state is the struct [Chip_8]; [ExecuteInst] and [RunCycle]
    are its member functions, and [frame] is one iteration of the render
    loop of [main].  Fixed-width integers are mathematical integers with
    the conversions of C++ written out; [std::vector] accesses go through
    [vec_at] and [vec_set], which report an index outside the vector
    instead of reading or writing there.  Console output is not modelled. *)

From Stdlib Require Import ZArith Lia List String Bool.
From stdpp Require Import base list.

Local Open Scope Z_scope.

(** ** Fixed-width integer conversions *)

Definition uint8_t (z : Z) : Z := z mod 256.
Definition uint16_t (z : Z) : Z := z mod 65536.
Definition int8_t (z : Z) : Z := (z + 128) mod 256 - 128.
Definition int16_t (z : Z) : Z := (z + 32768) mod 65536 - 32768.

(** ** Results of running machine code

    [Exit msg] is a call of [exit(1)] after printing [msg]; [OutOfRange] is
    an access to a vector element that does not exist. *)

Inductive outcome (A : Type) : Type :=
| Done (a : A)
| Exit (msg : string)
| OutOfRange.

Arguments Done {A} a.
Arguments Exit {A} msg.
Arguments OutOfRange {A}.

Definition bind {A B : Type} (m : outcome A) (k : A -> outcome B) : outcome B :=
  match m with
  | Done a => k a
  | Exit msg => Exit msg
  | OutOfRange => OutOfRange
  end.

Notation "x <- m ;; k" := (bind m (fun x => k))
  (at level 100, m at next level, right associativity).

Definition vec_at {A : Type} (l : list A) (i : Z) : outcome A :=
  if i <? 0 then OutOfRange
  else match l !! Z.to_nat i with
       | Some a => Done a
       | None => OutOfRange
       end.

Definition vec_set {A : Type} (l : list A) (i : Z) (a : A) : outcome (list A) :=
  if (0 <=? i) && (i <? Z.of_nat (length l))
  then Done (<[Z.to_nat i := a]> l)
  else OutOfRange.

(** [for (i = start; count iterations; ++i) body] *)
Fixpoint for_loop {S : Type} (count : nat) (i : Z)
    (body : Z -> S -> outcome S) (s : S) : outcome S :=
  match count with
  | O => Done s
  | Datatypes.S k => s' <- body i s ;; for_loop k (i + 1) body s'
  end.

(** ** Constants and the machine state *)

Definition FONT_ADDRESS : Z := 2.
Definition W : Z := 64.
Definition H : Z := 32.
Definition CLS : Z := 0xE0.
Definition RET : Z := 0xEE.

Inductive keyState : Type := UP | DOWN.

Definition keyState_eqb (a b : keyState) : bool :=
  match a, b with
  | UP, UP | DOWN, DOWN => true
  | _, _ => false
  end.

Record Chip_8 : Type := mkChip_8 {
  mem : list Z;          (* std::vector<ubyte>, 4096 bytes *)
  V : list Z;            (* std::vector<uint8_t>, 16 registers *)
  keys : list keyState;  (* 16 keys *)
  VI : Z;                (* uint16_t *)
  soundTimer : Z;        (* uint8_t *)
  delayTimer : Z;        (* uint8_t *)
  PC : Z;                (* uint16_t *)
  SP : Z;                (* uint8_t *)
  callstack : list Z;    (* std::vector<int16_t>, 16 entries *)
  randomSeed : nat -> Z; (* the values the distribution hands out, in order *)
  randGen : nat;         (* how many of them were taken *)
  pixels : list Z        (* std::vector<int8_t>, W * H entries *)
}.

Definition set_mem (s : Chip_8) (m : list Z) : Chip_8 :=
  mkChip_8 m (V s) (keys s) (VI s) (soundTimer s) (delayTimer s) (PC s) (SP s)
           (callstack s) (randomSeed s) (randGen s) (pixels s).
Definition set_V (s : Chip_8) (v : list Z) : Chip_8 :=
  mkChip_8 (mem s) v (keys s) (VI s) (soundTimer s) (delayTimer s) (PC s) (SP s)
           (callstack s) (randomSeed s) (randGen s) (pixels s).
Definition set_keys (s : Chip_8) (k : list keyState) : Chip_8 :=
  mkChip_8 (mem s) (V s) k (VI s) (soundTimer s) (delayTimer s) (PC s) (SP s)
           (callstack s) (randomSeed s) (randGen s) (pixels s).
Definition set_VI (s : Chip_8) (i : Z) : Chip_8 :=
  mkChip_8 (mem s) (V s) (keys s) i (soundTimer s) (delayTimer s) (PC s) (SP s)
           (callstack s) (randomSeed s) (randGen s) (pixels s).
Definition set_soundTimer (s : Chip_8) (t : Z) : Chip_8 :=
  mkChip_8 (mem s) (V s) (keys s) (VI s) t (delayTimer s) (PC s) (SP s)
           (callstack s) (randomSeed s) (randGen s) (pixels s).
Definition set_delayTimer (s : Chip_8) (t : Z) : Chip_8 :=
  mkChip_8 (mem s) (V s) (keys s) (VI s) (soundTimer s) t (PC s) (SP s)
           (callstack s) (randomSeed s) (randGen s) (pixels s).
Definition set_PC (s : Chip_8) (p : Z) : Chip_8 :=
  mkChip_8 (mem s) (V s) (keys s) (VI s) (soundTimer s) (delayTimer s) p (SP s)
           (callstack s) (randomSeed s) (randGen s) (pixels s).
Definition set_SP (s : Chip_8) (p : Z) : Chip_8 :=
  mkChip_8 (mem s) (V s) (keys s) (VI s) (soundTimer s) (delayTimer s) (PC s) p
           (callstack s) (randomSeed s) (randGen s) (pixels s).
Definition set_callstack (s : Chip_8) (c : list Z) : Chip_8 :=
  mkChip_8 (mem s) (V s) (keys s) (VI s) (soundTimer s) (delayTimer s) (PC s) (SP s)
           c (randomSeed s) (randGen s) (pixels s).
Definition set_randGen (s : Chip_8) (g : nat) : Chip_8 :=
  mkChip_8 (mem s) (V s) (keys s) (VI s) (soundTimer s) (delayTimer s) (PC s) (SP s)
           (callstack s) (randomSeed s) g (pixels s).
Definition set_pixels (s : Chip_8) (p : list Z) : Chip_8 :=
  mkChip_8 (mem s) (V s) (keys s) (VI s) (soundTimer s) (delayTimer s) (PC s) (SP s)
           (callstack s) (randomSeed s) (randGen s) p.

(** [V[i] = a] *)
Definition assign_V (s : Chip_8) (i a : Z) : outcome Chip_8 :=
  v <- vec_set (V s) i a ;; Done (set_V s v).

(** [mem[i] = a] *)
Definition assign_mem (s : Chip_8) (i a : Z) : outcome Chip_8 :=
  m <- vec_set (mem s) i a ;; Done (set_mem s m).

(** ** The constructor *)

Definition font : list Z :=
  [ 0xF0; 0x90; 0x90; 0x90; 0xF0;
    0x20; 0x60; 0x20; 0x20; 0x70;
    0xF0; 0x10; 0xF0; 0x80; 0xF0;
    0xF0; 0x10; 0xF0; 0x10; 0xF0;
    0x90; 0x90; 0xF0; 0x10; 0x10;
    0xF0; 0x80; 0xF0; 0x10; 0xF0;
    0xF0; 0x80; 0xF0; 0x90; 0xF0;
    0xF0; 0x10; 0x20; 0x40; 0x40;
    0xF0; 0x90; 0xF0; 0x90; 0xF0;
    0xF0; 0x90; 0xF0; 0x10; 0xF0;
    0xF0; 0x90; 0xF0; 0x90; 0x90;
    0xE0; 0x90; 0xE0; 0x90; 0xE0;
    0xF0; 0x80; 0x80; 0x80; 0xF0;
    0xE0; 0x90; 0x90; 0x90; 0xE0;
    0xF0; 0x80; 0xF0; 0x80; 0xF0;
    0xF0; 0x80; 0xF0; 0x80; 0x80 ].

(** [v.resize(n)] on a vector of at most [n] elements: pad with [d]. *)
Definition resize_to {A : Type} (n : nat) (d : A) (l : list A) : list A :=
  l ++ repeat d (n - length l)%nat.

(** [Chip_8(_FPS, window)]: [mem] starts as [{0x12, 0x00}], a jump to
    0x200, and the font is copied to [FONT_ADDRESS .. FONT_ADDRESS + 79],
    which overwrites nothing of the jump. *)
Definition Chip_8_new (rnd : nat -> Z) : Chip_8 :=
  let mem0 := resize_to 4096 0 [0x12; 0x00] in
  let mem1 := firstn (Z.to_nat FONT_ADDRESS) mem0 ++ font
              ++ skipn (Z.to_nat FONT_ADDRESS + 80) mem0 in
  {| mem := mem1;
     V := resize_to 16 0 [];
     keys := resize_to 16 UP [UP];
     VI := 0; soundTimer := 0; delayTimer := 0; PC := 0; SP := 0;
     callstack := resize_to 16 0 [];
     randomSeed := rnd; randGen := 0%nat;
     pixels := resize_to (Z.to_nat (W * H)) 0 [0] |}.

(** [LoadProgram(filename, pos)], on the bytes of the file.  The loop tests
    [file.good()] before each [file.get()], so after the last byte it stores
    one more: the end-of-file value, which is 0xFF as a [ubyte]. *)
Fixpoint LoadProgram_from (file : list Z) (pos : Z) (s : Chip_8) : outcome Chip_8 :=
  match file with
  | [] => assign_mem s pos (uint8_t (-1))
  | b :: rest => s' <- assign_mem s pos (uint8_t b) ;; LoadProgram_from rest (pos + 1) s'
  end.

Definition LoadProgram (file : list Z) (s : Chip_8) : outcome Chip_8 :=
  LoadProgram_from file 0x200 s.

(** ** ExecuteInst *)

(** [0x00E0]: [memset(&pixels[0], 0, ...)] *)
Definition op_CLS (s : Chip_8) : outcome Chip_8 :=
  Done (set_pixels s (repeat 0 (length (pixels s)))).

(** [0x00EE]: [PC = callstack[--SP]] *)
Definition op_RET (s : Chip_8) : outcome Chip_8 :=
  let s := set_SP s (uint8_t (SP s - 1)) in
  a <- vec_at (callstack s) (SP s) ;;
  Done (set_PC s (uint16_t a)).

(** [0x1nnn] *)
Definition op_JP (nnn : Z) (s : Chip_8) : outcome Chip_8 :=
  if nnn >=? Z.of_nat (length (mem s)) then Exit "Incorrect jump address"
  else Done (set_PC s nnn).

(** [0x2nnn]: [callstack[SP++] = PC; PC = nnn] *)
Definition op_CALL (nnn : Z) (s : Chip_8) : outcome Chip_8 :=
  if SP s >=? Z.of_nat (length (callstack s)) then Exit "Max recursion depth exceeded"
  else
    c <- vec_set (callstack s) (SP s) (int16_t (PC s)) ;;
    Done (set_PC (set_SP (set_callstack s c) (uint8_t (SP s + 1))) nnn).

(** [PC += 2] when [b] holds *)
Definition skip_if (b : bool) (s : Chip_8) : Chip_8 :=
  if b then set_PC s (uint16_t (PC s + 2)) else s.

(** [0x3xkk]: [kk] is an [int8_t], [V[x]] a [uint8_t]; both are compared as [int] *)
Definition op_SE_kk (x kk : Z) (s : Chip_8) : outcome Chip_8 :=
  vx <- vec_at (V s) x ;; Done (skip_if (vx =? kk) s).

(** [0x4xkk] *)
Definition op_SNE_kk (x kk : Z) (s : Chip_8) : outcome Chip_8 :=
  vx <- vec_at (V s) x ;; Done (skip_if (negb (vx =? kk)) s).

(** [0x5xy_] *)
Definition op_SE (x y : Z) (s : Chip_8) : outcome Chip_8 :=
  vx <- vec_at (V s) x ;; vy <- vec_at (V s) y ;; Done (skip_if (vx =? vy) s).

(** [0x9xy_] *)
Definition op_SNE (x y : Z) (s : Chip_8) : outcome Chip_8 :=
  vx <- vec_at (V s) x ;; vy <- vec_at (V s) y ;; Done (skip_if (negb (vx =? vy)) s).

(** [0x6xkk]: [V[x] = kk] *)
Definition op_LD_kk (x kk : Z) (s : Chip_8) : outcome Chip_8 :=
  assign_V s x (uint8_t kk).

(** [0x7xkk]: [V[x] += kk] *)
Definition op_ADD_kk (x kk : Z) (s : Chip_8) : outcome Chip_8 :=
  vx <- vec_at (V s) x ;; assign_V s x (uint8_t (vx + kk)).

(** [0x8xy0] *)
Definition op_LD (x y : Z) (s : Chip_8) : outcome Chip_8 :=
  vy <- vec_at (V s) y ;; assign_V s x vy.

(** [0x8xy1], [0x8xy2], [0x8xy3]: [V[x] op= V[y]] *)
Definition op_bitwise (f : Z -> Z -> Z) (x y : Z) (s : Chip_8) : outcome Chip_8 :=
  vy <- vec_at (V s) y ;; vx <- vec_at (V s) x ;; assign_V s x (uint8_t (f vx vy)).

(** [0x8xy4]:
    [uint16_t result = V[x] + V[y]; result > 255 ? V[15] = 1 : V[15] = 0;
     V[x] = result & 0xFF;] *)
Definition op_ADD (x y : Z) (s : Chip_8) : outcome Chip_8 :=
  vx <- vec_at (V s) x ;;
  vy <- vec_at (V s) y ;;
  let result := uint16_t (vx + vy) in
  s1 <- assign_V s 15 (if result >? 255 then 1 else 0) ;;
  assign_V s1 x (uint8_t (Z.land result 0xFF)).

(** [0x8xy5]:
    [uint16_t result = V[x] - V[y]; V[x] > V[y] ? V[15] = 1 : V[15] = 0;
     V[x] -= V[y];]
    [result] is never used; the last statement reads the registers again,
    after [V[15]] was written. *)
Definition op_SUB (x y : Z) (s : Chip_8) : outcome Chip_8 :=
  vx <- vec_at (V s) x ;;
  vy <- vec_at (V s) y ;;
  let result := uint16_t (vx - vy) in
  s1 <- assign_V s 15 (if vx >? vy then 1 else 0) ;;
  vy1 <- vec_at (V s1) y ;;
  vx1 <- vec_at (V s1) x ;;
  assign_V s1 x (uint8_t (vx1 - vy1)).

(** [0x8xy6]: [V[15] = V[x] & 0x1U; V[x] >>= 1;] *)
Definition op_SHR (x : Z) (s : Chip_8) : outcome Chip_8 :=
  vx <- vec_at (V s) x ;;
  s1 <- assign_V s 15 (uint8_t (Z.land vx 1)) ;;
  vx1 <- vec_at (V s1) x ;;
  assign_V s1 x (uint8_t (Z.shiftr vx1 1)).

(** [0x8xy7]: [V[15] = V[y] > V[x] ? 1 : 0; V[x] = V[y] - V[x];] *)
Definition op_SUBN (x y : Z) (s : Chip_8) : outcome Chip_8 :=
  vy <- vec_at (V s) y ;;
  vx <- vec_at (V s) x ;;
  s1 <- assign_V s 15 (if vy >? vx then 1 else 0) ;;
  vy1 <- vec_at (V s1) y ;;
  vx1 <- vec_at (V s1) x ;;
  assign_V s1 x (uint8_t (vy1 - vx1)).

(** [0x8xyE]: [V[15] = (V[x] & 0x80U) >> 7U; V[x] <<= 1;] *)
Definition op_SHL (x : Z) (s : Chip_8) : outcome Chip_8 :=
  vx <- vec_at (V s) x ;;
  s1 <- assign_V s 15 (uint8_t (Z.shiftr (Z.land vx 0x80) 7)) ;;
  vx1 <- vec_at (V s1) x ;;
  assign_V s1 x (uint8_t (Z.shiftl vx1 1)).

(** [0xAnnn] *)
Definition op_LD_I (nnn : Z) (s : Chip_8) : outcome Chip_8 :=
  Done (set_VI s nnn).

(** [0xBnnn]: [PC = nnn + V[0]] *)
Definition op_JP_V0 (nnn : Z) (s : Chip_8) : outcome Chip_8 :=
  v0 <- vec_at (V s) 0 ;; Done (set_PC s (uint16_t (nnn + v0))).

(** [0xCxkk]: [V[x] = randomSeed(randGen) & kk] *)
Definition op_RND (x kk : Z) (s : Chip_8) : outcome Chip_8 :=
  let r := randomSeed s (randGen s) in
  assign_V (set_randGen s (Datatypes.S (randGen s))) x (uint8_t (Z.land r kk)).

(** The body of the inner loop of [0xDxyn], for one bit of one sprite line. *)
Definition draw_bit (x y nextSpriteLine spriteRow bit : Z) (s : Chip_8) : outcome Chip_8 :=
  vx <- vec_at (V s) x ;;
  let horizontalOffset := uint8_t ((bit + vx) mod W) in
  vy <- vec_at (V s) y ;;
  let verticalOffset := uint8_t ((spriteRow + vy) mod H) in
  let drawBit := uint8_t (Z.land (Z.shiftr nextSpriteLine (7 - bit)) 1) in
  p <- vec_at (pixels s) (W * verticalOffset + horizontalOffset) ;;
  s1 <- (if p =? 1 then assign_V s 15 1 else Done s) ;;
  p1 <- vec_at (pixels s1) (W * verticalOffset + horizontalOffset) ;;
  px <- vec_set (pixels s1) (W * verticalOffset + horizontalOffset)
                (int8_t (Z.lxor p1 drawBit)) ;;
  Done (set_pixels s1 px).

(** The body of the outer loop: one sprite line. *)
Definition draw_row (x y spriteRow : Z) (s : Chip_8) : outcome Chip_8 :=
  nextSpriteLine <- vec_at (mem s) (Z.land (VI s) 0xFFF + spriteRow) ;;
  for_loop 8 0 (draw_bit x y nextSpriteLine spriteRow) s.

(** [0xDxyn] *)
Definition op_DRW (x y n : Z) (s : Chip_8) : outcome Chip_8 :=
  s0 <- assign_V s 15 0 ;;
  for_loop (Z.to_nat n) 0 (draw_row x y) s0.

(** [0xEx9E] and [0xExA1]; [PC] has been advanced already, so
    [mem[PC + 1 - 2]] is the second byte of the instruction. *)
Definition op_SKP (x : Z) (s : Chip_8) : outcome Chip_8 :=
  b <- vec_at (mem s) (PC s + 1 - 2) ;;
  if b =? 0x9E then
    vx <- vec_at (V s) x ;;
    if vx >? 15 then Exit "Invalid code"
    else
      vx' <- vec_at (V s) x ;;
      k <- vec_at (keys s) vx' ;;
      Done (skip_if (keyState_eqb k DOWN) s)
  else
    b' <- vec_at (mem s) (PC s + 1 - 2) ;;
    if b' =? 0xA1 then
      vx <- vec_at (V s) x ;;
      k <- vec_at (keys s) vx ;;
      Done (skip_if (keyState_eqb k UP) s)
    else Exit "Invalid Opcode".

(** The loop of [0xFx0A]: the index of the first key that is down. *)
Fixpoint first_down (ks : list keyState) (i : Z) : option Z :=
  match ks with
  | [] => None
  | k :: rest => if keyState_eqb k DOWN then Some i else first_down rest (i + 1)
  end.

(** [0xFx0A] *)
Definition op_LD_K (x : Z) (s : Chip_8) : outcome Chip_8 :=
  match first_down (keys s) 0 with
  | Some i => assign_V s x (uint8_t i)
  | None => Done (set_PC s (uint16_t (PC s - 2)))
  end.

(** [0xFx33] *)
Definition op_BCD (x : Z) (s : Chip_8) : outcome Chip_8 :=
  vx <- vec_at (V s) x ;;
  let value := uint16_t vx in
  s1 <- assign_mem s (VI s + 2) (uint8_t (value mod 10)) ;;
  let value := uint16_t (value / 10) in
  s2 <- assign_mem s1 (VI s1 + 1) (uint8_t (value mod 10)) ;;
  let value := uint16_t (value / 10) in
  assign_mem s2 (VI s2 + 0) (uint8_t (value mod 10)).

(** [0xFx55]: [for (uint8_t i = 0; i <= x; ++i) mem[VI + i] = V[i];] *)
Definition op_LD_I_V (x : Z) (s : Chip_8) : outcome Chip_8 :=
  for_loop (Z.to_nat (x + 1)) 0
    (fun i s => vi <- vec_at (V s) i ;; assign_mem s (VI s + i) vi) s.

(** [0xFx65]: [for (uint8_t i = 0; i <= x; ++i) V[i] = mem[VI + i];] *)
Definition op_LD_V_I (x : Z) (s : Chip_8) : outcome Chip_8 :=
  for_loop (Z.to_nat (x + 1)) 0
    (fun i s => m <- vec_at (mem s) (VI s + i) ;; assign_V s i m) s.

(** [case 0xF]: [switch (mem[PC+1 - 2])] *)
Definition op_F (x : Z) (s : Chip_8) : outcome Chip_8 :=
  b <- vec_at (mem s) (PC s + 1 - 2) ;;
  match b with
  | 0x07 => assign_V s x (delayTimer s)
  | 0x0A => op_LD_K x s
  | 0x15 => vx <- vec_at (V s) x ;; Done (set_delayTimer s vx)
  | 0x18 => vx <- vec_at (V s) x ;; Done (set_soundTimer s vx)
  | 0x1E => vx <- vec_at (V s) x ;; Done (set_VI s (uint16_t (VI s + vx)))
  | 0x29 => vx <- vec_at (V s) x ;; Done (set_VI s (uint16_t (FONT_ADDRESS + vx * 5)))
  | 0x33 => op_BCD x s
  | 0x55 => op_LD_I_V x s
  | 0x65 => op_LD_V_I x s
  | _ => Exit "Invalid Opcode inside F case"
  end.

(** [case 8]: [switch (v)] *)
Definition op_8 (x y v : Z) (s : Chip_8) : outcome Chip_8 :=
  match v with
  | 0 => op_LD x y s
  | 1 => op_bitwise Z.lor x y s
  | 2 => op_bitwise Z.land x y s
  | 3 => op_bitwise Z.lxor x y s
  | 4 => op_ADD x y s
  | 5 => op_SUB x y s
  | 6 => op_SHR x s
  | 7 => op_SUBN x y s
  | 0xE => op_SHL x s
  | _ => Exit "Invalid Opcode"
  end.

(** The matching part of [ExecuteInst], on the variables it extracted
    and the state whose [PC] has been advanced. *)
Definition dispatch (opcode nnn n x y kk u v : Z) (s : Chip_8) : outcome Chip_8 :=
  if opcode =? CLS then op_CLS s
  else if opcode =? RET then op_RET s
  else
    match u with
    | 1 => op_JP nnn s
    | 2 => op_CALL nnn s
    | 3 => op_SE_kk x kk s
    | 4 => op_SNE_kk x kk s
    | 5 => op_SE x y s
    | 6 => op_LD_kk x kk s
    | 7 => op_ADD_kk x kk s
    | 8 => op_8 x y v s
    | 9 => op_SNE x y s
    | 0xA => op_LD_I nnn s
    | 0xB => op_JP_V0 nnn s
    | 0xC => op_RND x kk s
    | 0xD => op_DRW x y n s
    | 0xE => op_SKP x s
    | 0xF => op_F x s
    | _ => Exit "Invalid opcode from start"
    end.

(** [void ExecuteInst()] *)
Definition ExecuteInst (s : Chip_8) : outcome Chip_8 :=
  if PC s >=? Z.of_nat (length (mem s))
  then Exit "Incorrect PC, instruction overflow"
  else
    b0 <- vec_at (mem s) (PC s) ;;
    b1 <- vec_at (mem s) (PC s + 1) ;;
    let opcode := Z.lor (uint16_t (Z.shiftl (uint16_t b0) 8)) b1 in
    let nnn := uint16_t (Z.land opcode 0xFFF) in
    let n := uint8_t (Z.land opcode 0xF) in
    let x := uint8_t (Z.land b0 0xF) in
    let y := uint8_t (Z.land (Z.shiftr b1 4) 0xF) in
    let kk := int8_t b1 in
    let u := uint8_t (Z.land (Z.shiftr b0 4) 0xF) in
    let v := uint8_t (Z.land b1 0xF) in
    dispatch opcode nnn n x y kk u v (set_PC s (uint16_t (PC s + 2))).

(** [void RunCycle()] *)
Definition RunCycle (s : Chip_8) : outcome Chip_8 :=
  s1 <- ExecuteInst s ;;
  let s2 := if delayTimer s1 >? 0 then set_delayTimer s1 (uint8_t (delayTimer s1 - 1)) else s1 in
  let s3 := if soundTimer s2 >? 0 then set_soundTimer s2 (uint8_t (soundTimer s2 - 1)) else s2 in
  Done s3.

(** ** The render loop of [main] *)

(** [CPU->keys[keybinds[sym]] = DOWN] or [UP], for one pending event on the
    key that [keybinds] maps to index [i]. *)
Definition key_event (ev : Z * keyState) (s : Chip_8) : outcome Chip_8 :=
  k <- vec_set (keys s) (fst ev) (snd ev) ;; Done (set_keys s k).

Fixpoint poll_events (evs : list (Z * keyState)) (s : Chip_8) : outcome Chip_8 :=
  match evs with
  | [] => Done s
  | ev :: rest => s' <- key_event ev s ;; poll_events rest s'
  end.

Definition clockSpeed : Z := 300.

(** [for (int i = 0; i < clockSpeed; i += 2) CPU->RunCycle();] *)
Definition run_cycles (count : nat) (s : Chip_8) : outcome Chip_8 :=
  for_loop count 0 (fun _ => RunCycle) s.

(** One iteration of [while (!quit)]: the pending key events, then
    [clockSpeed / 2] calls of [RunCycle]; the display is drawn from the
    [pixels] of the result. *)
Definition frame (evs : list (Z * keyState)) (s : Chip_8) : outcome Chip_8 :=
  s' <- poll_events evs s ;;
  run_cycles (Z.to_nat (clockSpeed / 2)) s'.

(** ** Well-formed states

    The sizes the constructor gives the vectors, which no member function
    changes, and the ranges of the integer types of the fields. *)

Definition in_range (lo hi z : Z) : bool := (lo <=? z) && (z <? hi).

Definition well_formed (s : Chip_8) : bool :=
  (length (mem s) =? 4096)%nat && forallb (in_range 0 256) (mem s)
  && (length (V s) =? 16)%nat && forallb (in_range 0 256) (V s)
  && (length (keys s) =? 16)%nat
  && in_range 0 65536 (VI s)
  && in_range 0 256 (soundTimer s) && in_range 0 256 (delayTimer s)
  && in_range 0 65536 (PC s) && in_range 0 256 (SP s)
  && (length (callstack s) =? 16)%nat
  && forallb (in_range (-32768) 32768) (callstack s)
  && (length (pixels s) =? Z.to_nat (W * H))%nat
  && forallb (in_range (-128) 128) (pixels s).

(** What [well_formed] says, as propositions. *)
Record wf_facts (s : Chip_8) : Prop := {
  wf_mem_len : Z.of_nat (length (mem s)) = 4096;
  wf_mem : forallb (in_range 0 256) (mem s) = true;
  wf_V_len : Z.of_nat (length (V s)) = 16;
  wf_V : forallb (in_range 0 256) (V s) = true;
  wf_keys_len : Z.of_nat (length (keys s)) = 16;
  wf_VI : 0 <= VI s < 65536;
  wf_sound : 0 <= soundTimer s < 256;
  wf_delay : 0 <= delayTimer s < 256;
  wf_PC : 0 <= PC s < 65536;
  wf_SP : 0 <= SP s < 256;
  wf_callstack_len : Z.of_nat (length (callstack s)) = 16;
  wf_callstack : forallb (in_range (-32768) 32768) (callstack s) = true;
  wf_pixels_len : Z.of_nat (length (pixels s)) = 2048;
  wf_pixels : forallb (in_range (-128) 128) (pixels s) = true
}.

(** The two bytes at [PC] are those of the instruction [op]. *)
Definition fetches (s : Chip_8) (op : Z) : Prop :=
  vec_at (mem s) (PC s) = Done (op / 256) /\
  vec_at (mem s) (PC s + 1) = Done (op mod 256).


(** ** Concrete machines *)

(** The state of a run that completed; the examples below state what they
    fetch and hold, so a run that did not complete would show. *)
Definition from_done (o : outcome Chip_8) : Chip_8 :=
  match o with
  | Done s => s
  | _ => Chip_8_new (fun _ => 0)
  end.

(** [ExecuteInst] called [count] times. *)
Definition steps (count : nat) (s : Chip_8) : outcome Chip_8 :=
  for_loop count 0 (fun _ => ExecuteInst) s.

(** A fresh machine with the file [file] loaded, after [count] instructions. *)
Definition machine (file : list Z) (count : nat) : Chip_8 :=
  from_done (s <- LoadProgram file (Chip_8_new (fun _ => 0)) ;; steps count s).

(** ** Observations, timers and the instructions of a run *)

(** What a caller can see of a result. *)
Definition observe {A B : Type} (f : A -> B) (o : outcome A) : outcome B :=
  a <- o ;; Done (f a).

(** Both timers are in [s'] what they were in [s]. *)
Definition timers_kept (s s' : Chip_8) : Prop :=
  delayTimer s' = delayTimer s /\ soundTimer s' = soundTimer s.

(** The instructions that write a timer. *)
Definition LD_DT_Vx (op : Z) : Prop := exists x, 0 <= x < 16 /\ op = 0xF015 + 0x100 * x.

Definition LD_ST_Vx (op : Z) : Prop := exists x, 0 <= x < 16 /\ op = 0xF018 + 0x100 * x.

(** The instruction at [PC] is one of those in [P]. *)
Definition executes (P : Z -> Prop) (s : Chip_8) : Prop :=
  exists op, P op /\ fetches s op.

(** No instruction in [P] is executed in the next [n] calls of [RunCycle]. *)
Fixpoint cycles_avoid (P : Z -> Prop) (n : nat) (s : Chip_8) : Prop :=
  match n with
  | O => True
  | Datatypes.S k =>
      ~ executes P s /\ forall s', RunCycle s = Done s' -> cycles_avoid P k s'
  end.

(** ** The display updates of a draw *)

(** [pixels[i] ^= d], and a sequence of such updates. *)
Definition xor_at (u : nat * Z) (p : list Z) : list Z :=
  alter (fun v => Z.lxor v (snd u)) (fst u) p.

Definition xor_all (us : list (nat * Z)) (p : list Z) : list Z :=
  foldl (fun q u => xor_at u q) p us.

(** All that a sequence of updates XORs into the pixel at [j]. *)
Fixpoint mask (us : list (nat * Z)) (j : nat) : Z :=
  match us with
  | [] => 0
  | u :: rest => if Nat.eqb (fst u) j then Z.lxor (snd u) (mask rest j) else mask rest j
  end.

(** The updates of [count] rounds of a loop that starts at [i]. *)
Fixpoint loop_updates (count : nat) (i : Z) (f : Z -> list (nat * Z)) : list (nat * Z) :=
  match count with
  | O => []
  | Datatypes.S k => f i ++ loop_updates k (i + 1) f
  end.

(** The update of one bit of a sprite line, with the registers at [vx]
    and [vy]. *)
Definition bit_update (vx vy line row bit : Z) : nat * Z :=
  (Z.to_nat (W * uint8_t ((row + vy) mod H) + uint8_t ((bit + vx) mod W)),
   uint8_t (Z.land (Z.shiftr line (7 - bit)) 1)).

Definition row_updates (vx vy : Z) (m : list Z) (base row : Z) : list (nat * Z) :=
  match vec_at m (base + row) with
  | Done line => loop_updates 8 0 (fun bit => [bit_update vx vy line row bit])
  | _ => []
  end.

Definition sprite_updates (vx vy : Z) (m : list Z) (base : Z) (n : nat) : list (nat * Z) :=
  loop_updates n 0 (row_updates vx vy m base).

(** The index in [pixels] that bit [bit] of sprite line [row] aims at. *)
Definition target (vx vy row bit : Z) : nat :=
  Z.to_nat (W * uint8_t ((row + vy) mod H) + uint8_t ((bit + vx) mod W)).

(** The pixel at [t] is on. *)
Definition on (p : list Z) (t : nat) : bool :=
  match p !! t with
  | Some v => v =? 1
  | None => false
  end.

(** One of the pixels that the updates [us] aim at is on. *)
Definition any_on (p : list Z) (us : list (nat * Z)) : bool :=
  existsb (fun u => on p (fst u)) us.

(** [s'] is [s] after the updates [us] of the display; nothing else that a
    draw reads has changed, and of the registers only [V[15]] may have. *)
Definition drawn (us : list (nat * Z)) (s s' : Chip_8) : Prop :=
  pixels s' = xor_all us (pixels s) /\ mem s' = mem s /\ VI s' = VI s /\
  forall j, j <> 15 -> vec_at (V s') j = vec_at (V s) j.

(** The registers a draw reads are [vx] and [vy]. *)
Definition coords (x y vx vy : Z) (s : Chip_8) : Prop :=
  vec_at (V s) x = Done vx /\ vec_at (V s) y = Done vy.

(** ** The claims that fail, as they are worded *)

(** The claim about 8xy4 as it is worded, for the instruction at [PC]. *)
Definition ADD_as_claimed (s : Chip_8) (x y : Z) : Prop :=
  exists vx vy s',
    vec_at (V s) x = Done vx /\ vec_at (V s) y = Done vy /\
    ExecuteInst s = Done s' /\
    vec_at (V s') x = Done ((vx + vy) mod 256) /\
    vec_at (V s') 15 = Done (if vx + vy >? 255 then 1 else 0).

(** The claim about 8xy5 as it is worded, for the instruction at [PC]. *)
Definition SUB_as_claimed (s : Chip_8) (x y : Z) : Prop :=
  exists vx vy s',
    vec_at (V s) x = Done vx /\ vec_at (V s) y = Done vy /\
    ExecuteInst s = Done s' /\
    vec_at (V s') 15 = Done (if vx >? vy then 1 else 0) /\
    vec_at (V s') x = Done ((vx - vy) mod 256).

(** The claim about Fx1E as it is worded, for the instruction at [PC]. *)
Definition ADD_I_as_claimed (s : Chip_8) (x : Z) : Prop :=
  exists vx s',
    vec_at (V s) x = Done vx /\ ExecuteInst s = Done s' /\
    VI s' = (VI s + vx) mod 4096 /\ VI s' <= 0xFFF.

(** The claim about a frame as it is worded: whatever was executed, a
    frame takes 1 off a timer that is not 0. *)
Definition frame_tick_as_claimed (s : Chip_8) : Prop :=
  forall s', frame [] s = Done s' -> delayTimer s' = Z.max 0 (delayTimer s - 1).

(** The claim about drawing twice as it is worded, for the instruction
    [op] at [PC] and again at the next [PC], with all registers, the index
    register and the whole memory the same at both draws. *)
Definition DRW_twice_as_claimed (s : Chip_8) (op : Z) : Prop :=
  forall s1 s2,
    fetches s op -> ExecuteInst s = Done s1 ->
    fetches s1 op -> V s1 = V s -> VI s1 = VI s -> mem s1 = mem s ->
    ExecuteInst s1 = Done s2 ->
    pixels s2 = pixels s.

(** ** Stored programs for the examples *)


(** [LD V0, 0x80] followed by [SE V0, 0x80], and by [SNE V0, 0x80]; the
    machines are taken after the jump at address 0 and the load. *)
Definition se_demo : Chip_8 := machine [0x60; 0x80; 0x30; 0x80] 2.

Definition sne_demo : Chip_8 := machine [0x60; 0x80; 0x40; 0x80] 2.

(** [V[0] = 0xF0] and [V[1] = 0x20], then [ADD V0, V1]. *)
Definition add_demo : Chip_8 :=
  machine [0x60; 0xF0; 0x61; 0x20; 0x80; 0x14] 3.

(** [V[15] = 1] and [V[0] = 1], then [ADD VF, V0]. *)
Definition add_VF_demo : Chip_8 :=
  machine [0x6F; 0x01; 0x60; 0x01; 0x8F; 0x04] 3.

(** [V[0] = 5] and [V[1] = 3], then [SUB V0, V1]. *)
Definition sub_demo : Chip_8 :=
  machine [0x60; 0x05; 0x61; 0x03; 0x80; 0x15] 3.

(** [V[15] = 5] and [V[0] = 3], then [SUB VF, V0]; and [V[0] = 5] and
    [V[15] = 3], then [SUB V0, VF]. *)
Definition sub_VF_x_demo : Chip_8 :=
  machine [0x6F; 0x05; 0x60; 0x03; 0x8F; 0x05] 3.

Definition sub_VF_y_demo : Chip_8 :=
  machine [0x60; 0x05; 0x6F; 0x03; 0x80; 0xF5] 3.

(** A program that starts with a return: the machine after the jump at
    address 0. *)
Definition ret_demo : Chip_8 := machine [0x00; 0xEE] 1.

(** A program that calls itself for ever: the machine after the jump and
    16 calls. *)
Definition call_full_demo : Chip_8 := machine [0x22; 0x00] 17.

(** [I = 0xFFF] and [V[0] = 1], then [ADD I, V0]. *)
Definition add_I_demo : Chip_8 :=
  machine [0xAF; 0xFF; 0x60; 0x01; 0xF0; 0x1E] 3.

(** [V[0] = 16], then [SKNP V0], and then [SKP V0]. *)
Definition sknp_demo : Chip_8 := machine [0x60; 0x10; 0xE0; 0xA1] 2.

Definition skp_demo : Chip_8 := machine [0x60; 0x10; 0xE0; 0x9E] 2.

(** [V[10] = 0xFF], [delayTimer = V[10]], then a jump to itself at 0x204:
    the machine after the first frame. *)
Definition timer_demo : Chip_8 :=
  from_done (s <- LoadProgram [0x6A; 0xFF; 0xFA; 0x15; 0x12; 0x04]
                              (Chip_8_new (fun _ => 0)) ;;
             frame [] s).

(** [DRW V0, V1, 1] twice, with the index register at 0: the sprite is the
    byte 0x12 at address 0.  The machine after the jump at address 0. *)
Definition drw_demo : Chip_8 := machine [0xD0; 0x11; 0xD0; 0x11] 1.

(** [DRW VF, V0, 1] twice on a fresh machine, and [DRW V0, VF, 1] twice. *)
Definition drw_VF_demo : Chip_8 := machine [0xDF; 0x01; 0xDF; 0x01] 1.

Definition drw_VF_y_demo : Chip_8 := machine [0xD0; 0xF1; 0xD0; 0xF1] 1.

(** [I = 0], [DRW V0, V0, 1], [I = 1], [DRW V0, V0, 1]: the first draw puts
    the byte 0x12 on the display, pixels 3 and 6 of the first line; the
    second draws the byte 0x00 at address 1 over it.  The machine before the
    second draw. *)
Definition drw_blank_demo : Chip_8 :=
  machine [0xA0; 0x00; 0xD0; 0x01; 0xA0; 0x01; 0xD0; 0x01] 4.

(** ** The fields an instruction may write *)

Inductive field : Type :=
| f_mem | f_V | f_keys | f_VI | f_soundTimer | f_delayTimer | f_PC | f_SP
| f_callstack | f_randomSeed | f_randGen | f_pixels.

Definition same_field (f : field) (s s' : Chip_8) : Prop :=
  match f with
  | f_mem => mem s' = mem s
  | f_V => V s' = V s
  | f_keys => keys s' = keys s
  | f_VI => VI s' = VI s
  | f_soundTimer => soundTimer s' = soundTimer s
  | f_delayTimer => delayTimer s' = delayTimer s
  | f_PC => PC s' = PC s
  | f_SP => SP s' = SP s
  | f_callstack => callstack s' = callstack s
  | f_randomSeed => randomSeed s' = randomSeed s
  | f_randGen => randGen s' = randGen s
  | f_pixels => pixels s' = pixels s
  end.

(** Every field outside [fs] is in [s'] what it was in [s]. *)
Definition only_changes (fs : list field) (s s' : Chip_8) : Prop :=
  forall f, ~ In f fs -> same_field f s s'.

(** The fields an instruction writes besides [PC]: inside [case 0xF] by
    the second byte [b], and in all by the opcode, its first nibble [u] and
    [b]. *)
Definition writes_F (b : Z) : list field :=
  match b with
  | 0x07 | 0x0A | 0x65 => [f_V]
  | 0x15 => [f_delayTimer]
  | 0x18 => [f_soundTimer]
  | 0x1E | 0x29 => [f_VI]
  | 0x33 | 0x55 => [f_mem]
  | _ => []
  end.

Definition writes_of (opcode u b : Z) : list field :=
  if opcode =? CLS then [f_pixels]
  else if opcode =? RET then [f_SP]
  else
    match u with
    | 2 => [f_callstack; f_SP]
    | 6 | 7 | 8 => [f_V]
    | 0xA => [f_VI]
    | 0xC => [f_V; f_randGen]
    | 0xD => [f_V; f_pixels]
    | 0xF => writes_F b
    | _ => []
    end.

Definition writes (op : Z) : list field := writes_of op (op / 4096) (op mod 256).

(** Every pixel is 0 or 1. *)
Definition binary_display (s : Chip_8) : bool :=
  forallb (fun p => (p =? 0) || (p =? 1)) (pixels s).

(** [V[x] op= V[y]] of 8xy0 to 8xy3, as a function of the last nibble. *)
Definition logic_result (v vx vy : Z) : Z :=
  match v with
  | 0 => vy
  | 1 => Z.lor vx vy
  | 2 => Z.land vx vy
  | _ => Z.lxor vx vy
  end.

(** ** The key table and the loop of [main] *)

(** The key codes that [KeybindsInitialize] names.  Their values are
    constants of SDL's headers. *)
Record SDL_Keycodes : Type := mkSDL_Keycodes {
  SDLK_1 : Z; SDLK_2 : Z; SDLK_3 : Z; SDLK_4 : Z;
  SDLK_q : Z; SDLK_w : Z; SDLK_e : Z;
  SDLK_a : Z; SDLK_s : Z; SDLK_d : Z;
  SDLK_z : Z; SDLK_x : Z; SDLK_c : Z; SDLK_v : Z
}.

(** The values SDL 2 gives them: the character codes. *)
Definition SDL2_keycodes : SDL_Keycodes :=
  {| SDLK_1 := 49; SDLK_2 := 50; SDLK_3 := 51; SDLK_4 := 52;
     SDLK_q := 113; SDLK_w := 119; SDLK_e := 101;
     SDLK_a := 97; SDLK_s := 115; SDLK_d := 100;
     SDLK_z := 122; SDLK_x := 120; SDLK_c := 99; SDLK_v := 118 |}.

Definition named_keycodes (kc : SDL_Keycodes) : list Z :=
  [ SDLK_1 kc; SDLK_2 kc; SDLK_3 kc; SDLK_4 kc; SDLK_q kc; SDLK_w kc; SDLK_e kc;
    SDLK_a kc; SDLK_s kc; SDLK_d kc; SDLK_z kc; SDLK_x kc; SDLK_c kc; SDLK_v kc ].

(** [std::unordered_map<SDL_Keycode, int>], as the pairs it holds. *)
Definition keyDictionary : Type := list (Z * Z).

Fixpoint dict_find (m : keyDictionary) (k : Z) : option Z :=
  match m with
  | [] => None
  | (k', v) :: rest => if k' =? k then Some v else dict_find rest k
  end.

(** Insertion of a pair: a key that is there already keeps its value. *)
Definition dict_insert (m : keyDictionary) (kv : Z * Z) : keyDictionary :=
  match dict_find m (fst kv) with
  | Some _ => m
  | None => m ++ [kv]
  end.

(** [m[k]]: a key that is missing is inserted with the value 0. *)
Definition dict_index (m : keyDictionary) (k : Z) : Z * keyDictionary :=
  match dict_find m k with
  | Some v => (v, m)
  | None => (0, m ++ [(k, 0)])
  end.

(** [KeybindsInitialize()]: the map built from the initializer list, whose
    pairs are inserted in the order they are written. *)
Definition KeybindsInitialize (kc : SDL_Keycodes) : keyDictionary :=
  foldl dict_insert []
    [ (SDLK_1 kc, 1);  (SDLK_2 kc, 2); (SDLK_3 kc, 3);  (SDLK_4 kc, 12);
      (SDLK_q kc, 4);  (SDLK_w kc, 5); (SDLK_e kc, 6);  (SDLK_c kc, 13);
      (SDLK_a kc, 7);  (SDLK_s kc, 8); (SDLK_d kc, 9);  (SDLK_e kc, 14);
      (SDLK_z kc, 10); (SDLK_x kc, 0); (SDLK_c kc, 11); (SDLK_v kc, 15) ].

(** The events [main] tells apart, with the key code of a key event. *)
Inductive SDL_Event : Type :=
| SDL_QUIT
| SDL_KEYDOWN (sym : Z)
| SDL_KEYUP (sym : Z)
| SDL_OTHER.

(** The variables of [main] that its loop changes. *)
Record host : Type := mkhost {
  quit : bool;
  keybinds : keyDictionary;
  CPU : Chip_8
}.

(** [CPU->keys[keybinds[e.key.keysym.sym]] = st] *)
Definition press (sym : Z) (st : keyState) (h : host) : outcome host :=
  let (i, kb) := dict_index (keybinds h) sym in
  k <- vec_set (keys (CPU h)) i st ;;
  Done (mkhost (quit h) kb (set_keys (CPU h) k)).

(** The body of [while (SDL_PollEvent(&e))] *)
Definition handle_event (e : SDL_Event) (h : host) : outcome host :=
  match e with
  | SDL_QUIT => Done (mkhost true (keybinds h) (CPU h))
  | SDL_KEYDOWN sym => press sym DOWN h
  | SDL_KEYUP sym => press sym UP h
  | SDL_OTHER => Done h
  end.

Fixpoint poll_SDL_events (evs : list SDL_Event) (h : host) : outcome host :=
  match evs with
  | [] => Done h
  | e :: rest => h' <- handle_event e h ;; poll_SDL_events rest h'
  end.

(** The body of [while (!quit)], for the events [evs] that are pending
    when it starts; what it draws is not modelled. *)
Definition main_iteration (evs : list SDL_Event) (h : host) : outcome host :=
  h1 <- poll_SDL_events evs h ;;
  c <- run_cycles (Z.to_nat (clockSpeed / 2)) (CPU h1) ;;
  Done (mkhost (quit h1) (keybinds h1) c).

(** [while (!quit)], with the pending events of each round; it ends with
    the list or, earlier, after a round that saw [SDL_QUIT]. *)
Fixpoint main_loop (pending : list (list SDL_Event)) (h : host) : outcome host :=
  match pending with
  | [] => Done h
  | evs :: rest =>
      if quit h then Done h
      else h' <- main_iteration evs h ;; main_loop rest h'
  end.

(** [main], from the construction of the machine on, for a file that
    could be opened. *)
Definition main (kc : SDL_Keycodes) (rnd : nat -> Z) (file : list Z)
    (pending : list (list SDL_Event)) : outcome host :=
  s <- LoadProgram file (Chip_8_new rnd) ;;
  main_loop pending (mkhost false (KeybindsInitialize kc) s).

(** ** What holds of every state that [main] reaches *)

(** The indices a key table hands out are those of keys, and never 11 or 14. *)
Definition dict_ok (m : keyDictionary) : Prop :=
  forall k v, dict_find m k = Some v -> 0 <= v < 16 /\ v <> 11 /\ v <> 14.

Definition cpu_ok (s : Chip_8) : Prop :=
  well_formed s = true /\ binary_display s = true /\
  vec_at (keys s) 11 = Done UP /\ vec_at (keys s) 14 = Done UP.

(** The host of a run of [main] that completed. *)
Definition host_of (o : outcome host) : host :=
  match o with
  | Done h => h
  | _ => mkhost true [] (Chip_8_new (fun _ => 0))
  end.

(** ** Stored programs for the further examples *)

(** [V[1] = 5], then Fx33 for it with the index register at 0. *)
Definition bcd_demo : Chip_8 := machine [0x61; 0x05; 0xF1; 0x33] 2.
Definition bcd_demo_after : Chip_8 := machine [0x61; 0x05; 0xF1; 0x33] 3.

(** A jump to the last byte of the memory: the machine after it. *)
Definition edge_PC_demo : Chip_8 := machine [0x1F; 0xFF] 2.

(** Programs that start with the instruction the example is about, or
    with loads of the registers it uses: the machine in front of that
    instruction. *)
Definition invalid_demo : Chip_8 := machine [0x01; 0x23] 1.
Definition jp_demo : Chip_8 := machine [0x12; 0x04] 1.
Definition jp_V0_demo : Chip_8 := machine [0x60; 0x04; 0xBF; 0xFE] 2.
Definition ld_kk_demo : Chip_8 := machine [0x6A; 0xFF] 1.
Definition add_kk_demo : Chip_8 := machine [0x6A; 0xFF; 0x7A; 0x82] 2.
Definition logic_demo : Chip_8 := machine [0x60; 0x0C; 0x61; 0x0A; 0x80; 0x13] 3.
Definition shr_demo : Chip_8 := machine [0x60; 0x05; 0x80; 0x06] 2.
Definition shl_demo : Chip_8 := machine [0x60; 0x81; 0x80; 0x0E] 2.
Definition subn_demo : Chip_8 := machine [0x60; 0x03; 0x61; 0x05; 0x80; 0x17] 3.
Definition skip_demo : Chip_8 := machine [0x60; 0x03; 0x61; 0x03; 0x50; 0x1F] 3.
Definition cls_demo : Chip_8 := machine [0xD0; 0x11; 0x00; 0xE0] 2.

(** [RND V0, 0xF0] on a machine whose random numbers are all 0xAB. *)
Definition rnd_demo : Chip_8 :=
  from_done (s <- LoadProgram [0xC0; 0xF0] (Chip_8_new (fun _ => 0xAB)) ;; steps 1 s).

(** [V[3] = 0xA], then Fx29 for it. *)
Definition font_demo : Chip_8 := machine [0x63; 0x0A; 0xF3; 0x29] 2.

(** [V[0] = 7], then Fx15 for it and Fx07 into [V[1]]. *)
Definition delay_demo : Chip_8 := machine [0x60; 0x07; 0xF0; 0x15; 0xF1; 0x07] 2.

(** [V[0] = 234] and [I = 0x300], then Fx33. *)
Definition bcd_digits_demo : Chip_8 := machine [0x60; 0xEA; 0xA3; 0x00; 0xF0; 0x33] 3.

(** [V[0] = 0x11], [V[1] = 0x22] and [I = 0x300], then Fx55 for both. *)
Definition store_demo : Chip_8 :=
  machine [0x60; 0x11; 0x61; 0x22; 0xA3; 0x00; 0xF1; 0x55] 4.

(** [I = 0x200], then Fx65 for [V[0]] and [V[1]]. *)
Definition load_demo : Chip_8 := machine [0xA2; 0x00; 0xF1; 0x65] 2.

(** Fx0A for [V[3]] on a machine with no key down. *)
Definition key_demo : Chip_8 := machine [0xF3; 0x0A] 1.

(** [V[0] = 7], then Ex9E for it. *)
Definition skp_valid_demo : Chip_8 := machine [0x60; 0x07; 0xE0; 0x9E] 2.

(** A fresh machine with a file of two bytes loaded. *)
Definition loaded_demo : Chip_8 :=
  from_done (LoadProgram [0xAB; 0xCD] (Chip_8_new (fun _ => 0))).

(** [V[0] = 60], [V[1] = 31] and [I = 0x200], then a draw of two lines
    there: the sprite is the first two bytes of the program, 0x60 and 0x3C,
    and it wraps around both edges of the display. *)
Definition drw_wrap_demo : Chip_8 :=
  machine [0x60; 0x3C; 0x61; 0x1F; 0xA2; 0x00; 0xD0; 0x12] 4.

(** A program that jumps to itself, run by [main] for two rounds of the
    loop: [c] and [e] go down and [c] up in the first, the window is closed
    in the second. *)
Definition main_demo : host :=
  host_of (main SDL2_keycodes (fun _ => 0) [0x12; 0x00]
             [[SDL_KEYDOWN 99; SDL_KEYDOWN 101; SDL_KEYUP 99]; [SDL_QUIT]; []]).

(** * Properties *)

(** ** Vectors *)

Section Vectors.
Context {A : Type}.
Implicit Types (l : list A) (i j : Z) (a : A).

Lemma vec_at_Done l i a :
  vec_at l i = Done a <-> 0 <= i /\ l !! Z.to_nat i = Some a.
Proof.
  unfold vec_at. destruct (Z.ltb_spec i 0).
  - split; [discriminate | lia].
  - destruct (l !! Z.to_nat i) eqn:E; split; intros Ha; try discriminate.
    + split; [lia | congruence].
    + f_equal. destruct Ha as [_ Ha]. congruence.
    + destruct Ha as [_ Ha]. discriminate.
Qed.

Lemma vec_at_bounds l i a :
  vec_at l i = Done a -> 0 <= i < Z.of_nat (length l).
Proof.
  intros [Hi Hl]%vec_at_Done. apply lookup_lt_Some in Hl. lia.
Qed.

Lemma vec_at_in_range l i :
  0 <= i < Z.of_nat (length l) -> exists a, vec_at l i = Done a.
Proof.
  intros Hi. destruct (lookup_lt_is_Some_2 l (Z.to_nat i)) as [a Ha]; [lia|].
  exists a. apply vec_at_Done. split; [lia | exact Ha].
Qed.

Lemma vec_at_out_of_range l i :
  Z.of_nat (length l) <= i -> vec_at l i = OutOfRange.
Proof.
  intros Hi. unfold vec_at. destruct (Z.ltb_spec i 0); [reflexivity|].
  rewrite lookup_ge_None_2; [reflexivity | lia].
Qed.

Lemma vec_set_in_range l i a :
  0 <= i < Z.of_nat (length l) -> vec_set l i a = Done (<[Z.to_nat i := a]> l).
Proof.
  intros Hi. unfold vec_set.
  destruct (Z.leb_spec 0 i); [|lia]. destruct (Z.ltb_spec i (Z.of_nat (length l))); [|lia].
  reflexivity.
Qed.

Lemma vec_set_Done l i a l' :
  vec_set l i a = Done l' ->
  0 <= i < Z.of_nat (length l) /\ l' = <[Z.to_nat i := a]> l.
Proof.
  unfold vec_set.
  destruct (Z.leb_spec 0 i); destruct (Z.ltb_spec i (Z.of_nat (length l)));
    simpl; intros E; try discriminate.
  injection E as <-. split; [lia | reflexivity].
Qed.

Lemma vec_at_insert_eq l i a :
  0 <= i < Z.of_nat (length l) -> vec_at (<[Z.to_nat i := a]> l) i = Done a.
Proof.
  intros Hi. apply vec_at_Done. split; [lia|].
  apply list_lookup_insert_eq. lia.
Qed.

Lemma vec_at_insert_ne l i j a :
  0 <= i -> 0 <= j -> i <> j -> vec_at (<[Z.to_nat i := a]> l) j = vec_at l j.
Proof.
  intros Hi Hj Hne. unfold vec_at.
  rewrite list_lookup_insert_ne; [reflexivity | lia].
Qed.
End Vectors.

(** ** Ranges *)

Lemma in_range_spec lo hi z : in_range lo hi z = true <-> lo <= z < hi.
Proof. unfold in_range. rewrite andb_true_iff, Z.leb_le, Z.ltb_lt. tauto. Qed.

Lemma forallb_vec_at (P : Z -> bool) (l : list Z) (i a : Z) :
  forallb P l = true -> vec_at l i = Done a -> P a = true.
Proof.
  intros Hall [_ Hl]%vec_at_Done.
  rewrite forallb_forall in Hall. apply Hall.
  apply list_elem_of_In. eapply list_elem_of_lookup_2. exact Hl.
Qed.

Lemma well_formed_facts s : well_formed s = true <-> wf_facts s.
Proof.
  unfold well_formed. rewrite !andb_true_iff, !Nat.eqb_eq, !in_range_spec.
  split.
  - intros H.
    repeat match goal with H : _ /\ _ |- _ => destruct H end.
    constructor;
      first [assumption | lia
            | match goal with H : length _ = _ |- _ => rewrite H; reflexivity end].
  - intros []. repeat split; first [assumption | lia | apply Nat2Z.inj; assumption].
Qed.

Lemma wf_V_at s x a :
  well_formed s = true -> vec_at (V s) x = Done a -> 0 <= a < 256.
Proof.
  intros Hwf%well_formed_facts Hx. apply in_range_spec.
  eapply forallb_vec_at; [apply (wf_V s Hwf) | exact Hx].
Qed.

Lemma wf_V_ex s x :
  well_formed s = true -> 0 <= x < 16 ->
  exists a, vec_at (V s) x = Done a /\ 0 <= a < 256.
Proof.
  intros Hwf Hx. pose proof Hwf as Hf%well_formed_facts.
  destruct (vec_at_in_range (V s) x) as [a Ha]; [rewrite (wf_V_len s Hf); lia|].
  exists a. split; [exact Ha | eapply wf_V_at; eassumption].
Qed.

(** ** Decoding *)

Ltac bits_to_arith :=
  unfold uint8_t, uint16_t;
  change 0xFFF with (Z.ones 12); change 0xFF with (Z.ones 8);
  change 0xF with (Z.ones 4);
  rewrite ?Z.land_ones, ?Z.shiftr_div_pow2, ?Z.shiftl_mul_pow2 by lia.

Ltac euclid := Z.to_euclidean_division_equations; lia.

Lemma lor_bytes (b0 b1 : Z) :
  0 <= b1 < 256 -> Z.lor (b0 * 256) b1 = b0 * 256 + b1.
Proof.
  intros Hb1. rewrite <- Z.add_lor_land.
  assert (Z.land (b0 * 256) b1 = 0) as ->; [|lia].
  apply Z.bits_inj'. intros n Hn.
  rewrite Z.land_spec, Z.bits_0.
  destruct (Z.ltb_spec n 8).
  - change 256 with (2 ^ 8). rewrite Z.mul_pow2_bits_low by lia. reflexivity.
  - replace b1 with (b1 mod 2 ^ 8) by (apply Z.mod_small; exact Hb1).
    rewrite Z.mod_pow2_bits_high by lia. apply andb_false_r.
Qed.

(** The variables of [ExecuteInst], read off the 16-bit instruction. *)
Lemma ExecuteInst_fetch (s : Chip_8) (op : Z) :
  0 <= op < 65536 -> fetches s op ->
  ExecuteInst s =
    dispatch op (op mod 4096) (op mod 16) ((op / 256) mod 16) ((op / 16) mod 16)
             (int8_t (op mod 256)) (op / 4096) (op mod 16)
             (set_PC s (uint16_t (PC s + 2))).
Proof.
  intros Hop [H0 H1]. unfold ExecuteInst.
  pose proof (vec_at_bounds _ _ _ H0) as HPC.
  destruct (Z.geb_spec (PC s) (Z.of_nat (length (mem s)))); [lia|].
  rewrite H0, H1. cbn [bind].
  assert (Z.lor (uint16_t (Z.shiftl (uint16_t (op / 256)) 8)) (op mod 256) = op) as ->.
  { unfold uint16_t. rewrite Z.shiftl_mul_pow2 by lia. change (2 ^ 8) with 256.
    rewrite (Z.mod_small (op / 256)) by euclid.
    rewrite (Z.mod_small (op / 256 * 256)) by euclid.
    rewrite lor_bytes by euclid. euclid. }
  f_equal.
  - bits_to_arith. euclid.
  - bits_to_arith. euclid.
  - bits_to_arith. euclid.
  - bits_to_arith. change (2 ^ 4) with 16. euclid.
  - bits_to_arith. change (2 ^ 4) with 16. euclid.
  - bits_to_arith. euclid.
Qed.

(** [PC += 2] does not wrap where an instruction was fetched. *)
Lemma PC_advance (s : Chip_8) (op : Z) :
  well_formed s = true -> fetches s op ->
  0 <= PC s /\ PC s + 1 < 4096 /\ uint16_t (PC s + 2) = PC s + 2.
Proof.
  intros Hwf%well_formed_facts [_ H1].
  apply vec_at_bounds in H1. rewrite (wf_mem_len s Hwf) in H1.
  pose proof (wf_PC s Hwf). unfold uint16_t. rewrite Z.mod_small by lia. lia.
Qed.

(** ** Call and return *)

Lemma ExecuteInst_CALL (s : Chip_8) (nnn : Z) :
  0 <= nnn < 4096 -> fetches s (0x2000 + nnn) ->
  ExecuteInst s = op_CALL nnn (set_PC s (uint16_t (PC s + 2))).
Proof.
  intros Hn Hf. rewrite (ExecuteInst_fetch s (0x2000 + nnn)) by (lia || assumption).
  unfold dispatch, CLS, RET.
  destruct (Z.eqb_spec (0x2000 + nnn) 0xE0); [lia|].
  destruct (Z.eqb_spec (0x2000 + nnn) 0xEE); [lia|].
  replace ((0x2000 + nnn) / 4096) with 2 by euclid.
  replace ((0x2000 + nnn) mod 4096) with nnn by euclid.
  reflexivity.
Qed.

Lemma ExecuteInst_RET (s : Chip_8) :
  fetches s 0x00EE ->
  ExecuteInst s = op_RET (set_PC s (uint16_t (PC s + 2))).
Proof.
  intros Hf. rewrite (ExecuteInst_fetch s 0x00EE) by (lia || assumption).
  reflexivity.
Qed.



(** ** Skips on an immediate: 3xkk and 4xkk *)

(** Split a conjunction of closed facts and evaluate each. *)
Ltac conjuncts :=
  unfold fetches; repeat match goal with |- _ /\ _ => split end.

Ltac evaluate := conjuncts; vm_compute; reflexivity.

Lemma dispatch_xkk (s : Chip_8) (u x kk : Z) :
  1 <= u < 16 -> 0 <= x < 16 -> 0 <= kk < 256 ->
  fetches s (0x1000 * u + 0x100 * x + kk) ->
  ExecuteInst s =
    dispatch (0x1000 * u + 0x100 * x + kk) (0x100 * x + kk) (kk mod 16) x (kk / 16)
             (int8_t kk) u (kk mod 16) (set_PC s (uint16_t (PC s + 2))).
Proof.
  intros Hu Hx Hk Hf.
  rewrite (ExecuteInst_fetch s (0x1000 * u + 0x100 * x + kk)) by (lia || assumption).
  f_equal; try (f_equal; euclid); euclid.
Qed.

Lemma ExecuteInst_SE_kk (s : Chip_8) (x kk : Z) :
  0 <= x < 16 -> 0 <= kk < 256 ->
  fetches s (0x3000 + 0x100 * x + kk) ->
  ExecuteInst s = op_SE_kk x (int8_t kk) (set_PC s (uint16_t (PC s + 2))).
Proof.
  intros Hx Hk Hf. rewrite (dispatch_xkk s 3 x kk) by (lia || assumption).
  unfold dispatch, CLS, RET.
  destruct (Z.eqb_spec (0x1000 * 3 + 0x100 * x + kk) 0xE0); [lia|].
  destruct (Z.eqb_spec (0x1000 * 3 + 0x100 * x + kk) 0xEE); [lia|].
  reflexivity.
Qed.

Lemma ExecuteInst_SNE_kk (s : Chip_8) (x kk : Z) :
  0 <= x < 16 -> 0 <= kk < 256 ->
  fetches s (0x4000 + 0x100 * x + kk) ->
  ExecuteInst s = op_SNE_kk x (int8_t kk) (set_PC s (uint16_t (PC s + 2))).
Proof.
  intros Hx Hk Hf. rewrite (dispatch_xkk s 4 x kk) by (lia || assumption).
  unfold dispatch, CLS, RET.
  destruct (Z.eqb_spec (0x1000 * 4 + 0x100 * x + kk) 0xE0); [lia|].
  destruct (Z.eqb_spec (0x1000 * 4 + 0x100 * x + kk) 0xEE); [lia|].
  reflexivity.
Qed.

(** What the code does on 3xkk: the register, 0..255, is compared with the
    immediate read as a signed byte, -128..127. *)
Lemma SE_kk_signed (s : Chip_8) (x kk vx : Z) :
  well_formed s = true -> 0 <= x < 16 -> 0 <= kk < 256 ->
  fetches s (0x3000 + 0x100 * x + kk) ->
  vec_at (V s) x = Done vx ->
  observe PC (ExecuteInst s) =
    Done (if vx =? int8_t kk then PC s + 4 else PC s + 2).
Proof.
  intros Hwf Hx Hk Hf Hvx.
  destruct (PC_advance s _ Hwf Hf) as (HPC0 & HPC1 & HPC2).
  rewrite (ExecuteInst_SE_kk s x kk) by assumption. rewrite HPC2.
  unfold op_SE_kk. cbn [V set_PC]. rewrite Hvx. cbn [bind observe].
  unfold skip_if. destruct (vx =? int8_t kk); cbn [PC set_PC]; [|reflexivity].
  unfold uint16_t. rewrite Z.mod_small by lia. f_equal. lia.
Qed.

Lemma SNE_kk_signed (s : Chip_8) (x kk vx : Z) :
  well_formed s = true -> 0 <= x < 16 -> 0 <= kk < 256 ->
  fetches s (0x4000 + 0x100 * x + kk) ->
  vec_at (V s) x = Done vx ->
  observe PC (ExecuteInst s) =
    Done (if vx =? int8_t kk then PC s + 2 else PC s + 4).
Proof.
  intros Hwf Hx Hk Hf Hvx.
  destruct (PC_advance s _ Hwf Hf) as (HPC0 & HPC1 & HPC2).
  rewrite (ExecuteInst_SNE_kk s x kk) by assumption. rewrite HPC2.
  unfold op_SNE_kk. cbn [V set_PC]. rewrite Hvx. cbn [bind observe].
  unfold skip_if. destruct (vx =? int8_t kk); cbn [negb PC set_PC]; [reflexivity|].
  unfold uint16_t. rewrite Z.mod_small by lia. f_equal. lia.
Qed.

(** Up to 0x7F the signed byte is the immediate itself, and 3xkk skips
    exactly when [V[x]] equals it. *)
Lemma SE_kk_low (s : Chip_8) (x kk vx : Z) :
  well_formed s = true -> 0 <= x < 16 -> 0 <= kk < 128 ->
  fetches s (0x3000 + 0x100 * x + kk) ->
  vec_at (V s) x = Done vx ->
  observe PC (ExecuteInst s) = Done (if vx =? kk then PC s + 4 else PC s + 2).
Proof.
  intros Hwf Hx Hk Hf Hvx.
  rewrite (SE_kk_signed s x kk vx) by (lia || assumption).
  replace (int8_t kk) with kk; [reflexivity|].
  unfold int8_t. rewrite Z.mod_small; lia.
Qed.

(** From 0x80 on the signed byte is negative, no register equals it, and
    3xkk never skips while 4xkk always does. *)
Lemma SE_kk_high (s : Chip_8) (x kk vx : Z) :
  well_formed s = true -> 0 <= x < 16 -> 128 <= kk < 256 ->
  fetches s (0x3000 + 0x100 * x + kk) ->
  vec_at (V s) x = Done vx ->
  observe PC (ExecuteInst s) = Done (PC s + 2).
Proof.
  intros Hwf Hx Hk Hf Hvx.
  rewrite (SE_kk_signed s x kk vx) by (lia || assumption).
  pose proof (wf_V_at s x vx Hwf Hvx).
  destruct (Z.eqb_spec vx (int8_t kk)) as [E|]; [|reflexivity].
  unfold int8_t in E. exfalso. euclid.
Qed.

Lemma SNE_kk_high (s : Chip_8) (x kk vx : Z) :
  well_formed s = true -> 0 <= x < 16 -> 128 <= kk < 256 ->
  fetches s (0x4000 + 0x100 * x + kk) ->
  vec_at (V s) x = Done vx ->
  observe PC (ExecuteInst s) = Done (PC s + 4).
Proof.
  intros Hwf Hx Hk Hf Hvx.
  rewrite (SNE_kk_signed s x kk vx) by (lia || assumption).
  pose proof (wf_V_at s x vx Hwf Hvx).
  destruct (Z.eqb_spec vx (int8_t kk)) as [E|]; [|reflexivity].
  unfold int8_t in E. exfalso. euclid.
Qed.

(** C1, at an immediate with the high bit set.  With [V[0] = 0x80], the
    instruction 3080 at 0x202 does not skip, [PC] ends at 0x204, and 4080
    does skip, [PC] ends at 0x206, although the register equals the
    immediate. *)
Theorem SE_kk_high_bit_at_0x80 :
  well_formed se_demo = true /\ fetches se_demo 0x3080 /\
  vec_at (V se_demo) 0 = Done 0x80 /\ PC se_demo = 0x202 /\
  observe PC (ExecuteInst se_demo) = Done 0x204 /\
  well_formed sne_demo = true /\ fetches sne_demo 0x4080 /\
  vec_at (V sne_demo) 0 = Done 0x80 /\ PC sne_demo = 0x202 /\
  observe PC (ExecuteInst sne_demo) = Done 0x206.
Proof. evaluate. Qed.

(** ** Register arithmetic: 8xy4 and 8xy5 *)

Lemma ExecuteInst_8xyv (s : Chip_8) (x y v : Z) :
  0 <= x < 16 -> 0 <= y < 16 -> 0 <= v < 16 ->
  fetches s (0x8000 + 0x100 * x + 0x10 * y + v) ->
  ExecuteInst s = op_8 x y v (set_PC s (uint16_t (PC s + 2))).
Proof.
  intros Hx Hy Hv Hf.
  rewrite (ExecuteInst_fetch s (0x8000 + 0x100 * x + 0x10 * y + v)) by (lia || assumption).
  unfold dispatch, CLS, RET.
  destruct (Z.eqb_spec (0x8000 + 0x100 * x + 0x10 * y + v) 0xE0); [lia|].
  destruct (Z.eqb_spec (0x8000 + 0x100 * x + 0x10 * y + v) 0xEE); [lia|].
  replace ((0x8000 + 0x100 * x + 0x10 * y + v) / 4096) with 8 by euclid.
  cbv iota. f_equal; euclid.
Qed.

Lemma assign_V_in_range (s : Chip_8) (i a : Z) :
  0 <= i < Z.of_nat (length (V s)) ->
  assign_V s i a = Done (set_V s (<[Z.to_nat i := a]> (V s))).
Proof. intros Hi. unfold assign_V. rewrite vec_set_in_range by exact Hi. reflexivity. Qed.

(** C2, amended.  After 8xy4, [V[x]] holds the sum of the old [V[x]] and
    [V[y]] modulo 256, for every [x] and [y]; when [x] is not 15, [V[15]]
    holds 1 if that sum exceeds 255 and 0 otherwise.  Both are computed from
    the values the registers held before the instruction, also when [y] is
    15.  When [x] is 15 the sum is stored over the flag. *)
Theorem ADD_result_and_flag (s : Chip_8) (x y : Z) :
  well_formed s = true -> 0 <= x < 16 -> 0 <= y < 16 ->
  fetches s (0x8004 + 0x100 * x + 0x10 * y) ->
  exists vx vy s',
    vec_at (V s) x = Done vx /\ vec_at (V s) y = Done vy /\
    ExecuteInst s = Done s' /\
    vec_at (V s') x = Done ((vx + vy) mod 256) /\
    (x <> 15 -> vec_at (V s') 15 = Done (if vx + vy >? 255 then 1 else 0)).
Proof.
  intros Hwf Hx Hy Hf.
  destruct (wf_V_ex s x Hwf Hx) as (vx & Hvx & Rx).
  destruct (wf_V_ex s y Hwf Hy) as (vy & Hvy & Ry).
  pose proof Hwf as Hw%well_formed_facts. pose proof (wf_V_len s Hw) as Hlen.
  exists vx, vy.
  replace (0x8004 + 0x100 * x + 0x10 * y)
    with (0x8000 + 0x100 * x + 0x10 * y + 4) in Hf by lia.
  rewrite (ExecuteInst_8xyv s x y 4) by (lia || assumption).
  unfold op_8, op_ADD. cbn [V set_PC]. rewrite Hvx, Hvy. cbn [bind].
  rewrite assign_V_in_range by (cbn [V set_PC]; lia). cbn [bind].
  rewrite assign_V_in_range by (cbn [V set_V set_PC]; rewrite length_insert; lia).
  eexists. split; [reflexivity|]. split; [reflexivity|]. split; [reflexivity|].
  cbn [V set_V set_PC].
  replace (uint8_t (Z.land (uint16_t (vx + vy)) 255)) with ((vx + vy) mod 256)
    by (bits_to_arith; euclid).
  split.
  - apply vec_at_insert_eq. rewrite length_insert. lia.
  - intros Hne. rewrite vec_at_insert_ne by lia.
    rewrite (vec_at_insert_eq (V s) 15) by lia.
    unfold uint16_t. rewrite Z.mod_small by lia. reflexivity.
Qed.

Lemma ADD_result_and_flag_witness :
  well_formed add_demo = true /\ 0 <= 0 < 16 /\ 0 <= 1 < 16 /\
  fetches add_demo (0x8004 + 0x100 * 0 + 0x10 * 1) /\
  exists vx vy s',
    vec_at (V add_demo) 0 = Done vx /\ vec_at (V add_demo) 1 = Done vy /\
    ExecuteInst add_demo = Done s' /\
    vec_at (V s') 0 = Done ((vx + vy) mod 256) /\
    (0 <> 15 -> vec_at (V s') 15 = Done (if vx + vy >? 255 then 1 else 0)).
Proof.
  assert (well_formed add_demo = true) as Hwf by (vm_compute; reflexivity).
  assert (fetches add_demo (0x8004 + 0x100 * 0 + 0x10 * 1)) as Hf
    by (split; vm_compute; reflexivity).
  split; [exact Hwf|]. split; [lia|]. split; [lia|]. split; [exact Hf|].
  exact (ADD_result_and_flag add_demo 0 1 Hwf ltac:(lia) ltac:(lia) Hf).
Defined.

(** C2 as worded fails at [x = 15]: 1 + 1 leaves 2 in [V[15]], not the
    carry 0. *)
Lemma ADD_as_claimed_fails_at_VF :
  fetches add_VF_demo 0x8F04 /\
  observe (fun t => vec_at (V t) 15) (ExecuteInst add_VF_demo) = Done (Done 2) /\
  ~ ADD_as_claimed add_VF_demo 15 0.
Proof.
  assert (observe (fun t => vec_at (V t) 15) (ExecuteInst add_VF_demo) = Done (Done 2)) as Ho
    by (vm_compute; reflexivity).
  split; [split; vm_compute; reflexivity|]. split; [exact Ho|].
  intros (vx & vy & s' & Hvx & Hvy & He & _ & Hflag).
  vm_compute in Hvx. vm_compute in Hvy.
  injection Hvx as <-. injection Hvy as <-.
  rewrite He in Ho. cbn [observe bind] in Ho. rewrite Hflag in Ho.
  discriminate Ho.
Qed.

(** C3, amended.  After 8xy5, when [x] is not 15 (or [y] is 15 too),
    [V[15]] holds 1 exactly when the old [V[x]] is greater than the old
    [V[y]], and 0 otherwise; when neither or both of [x] and [y] are 15,
    [V[x]] holds the old [V[x]] minus the old [V[y]] modulo 256. *)
Theorem SUB_result_and_flag (s : Chip_8) (x y : Z) :
  well_formed s = true -> 0 <= x < 16 -> 0 <= y < 16 ->
  fetches s (0x8005 + 0x100 * x + 0x10 * y) ->
  exists vx vy s',
    vec_at (V s) x = Done vx /\ vec_at (V s) y = Done vy /\
    ExecuteInst s = Done s' /\
    (x <> 15 \/ y = 15 -> vec_at (V s') 15 = Done (if vx >? vy then 1 else 0)) /\
    ((x = 15 <-> y = 15) -> vec_at (V s') x = Done ((vx - vy) mod 256)).
Proof.
  intros Hwf Hx Hy Hf.
  destruct (wf_V_ex s x Hwf Hx) as (vx & Hvx & Rx).
  destruct (wf_V_ex s y Hwf Hy) as (vy & Hvy & Ry).
  pose proof Hwf as Hw%well_formed_facts. pose proof (wf_V_len s Hw) as Hlen.
  exists vx, vy.
  replace (0x8005 + 0x100 * x + 0x10 * y)
    with (0x8000 + 0x100 * x + 0x10 * y + 5) in Hf by lia.
  rewrite (ExecuteInst_8xyv s x y 5) by (lia || assumption).
  unfold op_8, op_SUB. cbn [V set_PC]. rewrite Hvx, Hvy. cbn [bind].
  rewrite assign_V_in_range by (cbn [V set_PC]; lia). cbn [bind V set_V set_PC].
  set (f := if vx >? vy then 1 else 0).
  assert (vec_at (<[Z.to_nat 15 := f]> (V s)) 15 = Done f) as H15
    by (apply vec_at_insert_eq; lia).
  destruct (Z.eq_dec y 15) as [->|Hy15]; destruct (Z.eq_dec x 15) as [->|Hx15].
  - (* both are VF: the operands are equal, before and after the flag *)
    rewrite H15. cbn [bind].
    rewrite assign_V_in_range by (cbn [V set_V set_PC]; rewrite length_insert; lia).
    eexists. split; [reflexivity|]. split; [reflexivity|]. split; [reflexivity|].
    cbn [V set_V set_PC].
    assert (vx = vy) as -> by congruence.
    rewrite vec_at_insert_eq by (rewrite length_insert; lia).
    rewrite !Z.sub_diag. unfold f. destruct (Z.gtb_spec vy vy); [lia|].
    split; intros _; reflexivity.
  - (* only y is VF *)
    rewrite H15. rewrite vec_at_insert_ne by lia. rewrite Hvx. cbn [bind].
    rewrite assign_V_in_range by (cbn [V set_V set_PC]; rewrite length_insert; lia).
    eexists. split; [reflexivity|]. split; [reflexivity|]. split; [reflexivity|].
    cbn [V set_V set_PC]. split.
    + intros _. rewrite vec_at_insert_ne by lia. exact H15.
    + intros [_ Hyx]. exfalso. apply Hx15, Hyx. reflexivity.
  - (* only x is VF *)
    rewrite vec_at_insert_ne by lia. rewrite Hvy, H15. cbn [bind].
    rewrite assign_V_in_range by (cbn [V set_V set_PC]; rewrite length_insert; lia).
    eexists. split; [reflexivity|]. split; [reflexivity|]. split; [reflexivity|].
    split.
    + intros [Hne|He]; [exfalso; apply Hne; reflexivity | contradiction].
    + intros [Hxy _]. exfalso. apply Hy15, Hxy. reflexivity.
  - (* neither is VF *)
    rewrite !vec_at_insert_ne by lia. rewrite Hvy, Hvx. cbn [bind].
    rewrite assign_V_in_range by (cbn [V set_V set_PC]; rewrite length_insert; lia).
    eexists. split; [reflexivity|]. split; [reflexivity|]. split; [reflexivity|].
    cbn [V set_V set_PC]. split; intros _.
    + rewrite vec_at_insert_ne by lia. exact H15.
    + apply vec_at_insert_eq. rewrite length_insert. lia.
Qed.

Lemma SUB_result_and_flag_witness :
  well_formed sub_demo = true /\ 0 <= 0 < 16 /\ 0 <= 1 < 16 /\
  fetches sub_demo (0x8005 + 0x100 * 0 + 0x10 * 1) /\
  exists vx vy s',
    vec_at (V sub_demo) 0 = Done vx /\ vec_at (V sub_demo) 1 = Done vy /\
    ExecuteInst sub_demo = Done s' /\
    (0 <> 15 \/ 1 = 15 -> vec_at (V s') 15 = Done (if vx >? vy then 1 else 0)) /\
    ((0 = 15 <-> 1 = 15) -> vec_at (V s') 0 = Done ((vx - vy) mod 256)).
Proof.
  assert (well_formed sub_demo = true) as Hwf by (vm_compute; reflexivity).
  assert (fetches sub_demo (0x8005 + 0x100 * 0 + 0x10 * 1)) as Hf
    by (split; vm_compute; reflexivity).
  split; [exact Hwf|]. split; [lia|]. split; [lia|]. split; [exact Hf|].
  exact (SUB_result_and_flag sub_demo 0 1 Hwf ltac:(lia) ltac:(lia) Hf).
Defined.

(** C3 as worded fails when exactly one of the registers is [V[15]].  With
    [x = 15], 5 - 3 leaves 254 in [V[15]], which is neither the flag 1 nor
    the difference 2: the flag 1 was written first and then 1 - 3 computed.
    With [y = 15], 5 - 3 leaves 4 in [V[0]]: the flag 1 replaced the
    operand 3 before the subtraction. *)
Lemma SUB_as_claimed_fails_at_VF :
  (fetches sub_VF_x_demo 0x8F05 /\ ~ SUB_as_claimed sub_VF_x_demo 15 0) /\
  (fetches sub_VF_y_demo 0x80F5 /\ ~ SUB_as_claimed sub_VF_y_demo 0 15) /\
  observe (fun t => vec_at (V t) 15) (ExecuteInst sub_VF_x_demo) = Done (Done 254) /\
  observe (fun t => vec_at (V t) 0) (ExecuteInst sub_VF_y_demo) = Done (Done 4).
Proof.
  split; [split; [split; vm_compute; reflexivity|]|].
  { intros (vx & vy & s' & Hvx & Hvy & He & Hflag & _).
    vm_compute in Hvx. vm_compute in Hvy.
    injection Hvx as <-. injection Hvy as <-.
    assert (observe (fun t => vec_at (V t) 15) (ExecuteInst sub_VF_x_demo)
            = Done (Done 254)) as Ho by (vm_compute; reflexivity).
    rewrite He in Ho. cbn [observe bind] in Ho. rewrite Hflag in Ho.
    discriminate Ho. }
  split; [split; [split; vm_compute; reflexivity|]|].
  { intros (vx & vy & s' & Hvx & Hvy & He & _ & Hres).
    vm_compute in Hvx. vm_compute in Hvy.
    injection Hvx as <-. injection Hvy as <-.
    assert (observe (fun t => vec_at (V t) 0) (ExecuteInst sub_VF_y_demo)
            = Done (Done 4)) as Ho by (vm_compute; reflexivity).
    rewrite He in Ho. cbn [observe bind] in Ho. rewrite Hres in Ho.
    discriminate Ho. }
  split; vm_compute; reflexivity.
Qed.

(** ** The limits of the call stack *)

(** A call with the 16 slots taken exits before anything is stored. *)
Lemma CALL_on_full_stack (s : Chip_8) (nnn : Z) :
  well_formed s = true -> 0 <= nnn < 4096 ->
  fetches s (0x2000 + nnn) -> 16 <= SP s ->
  ExecuteInst s = Exit "Max recursion depth exceeded".
Proof.
  intros Hwf Hn Hf Hsp. pose proof Hwf as Hw%well_formed_facts.
  rewrite (ExecuteInst_CALL s nnn) by assumption.
  unfold op_CALL. cbn [callstack SP set_PC].
  destruct (Z.geb_spec (SP s) (Z.of_nat (length (callstack s)))); [reflexivity|].
  rewrite (wf_callstack_len s Hw) in *. lia.
Qed.

(** A return with the stack pointer at 0 has no test in front of it:
    [--SP] wraps to 255 and [callstack[255]] is read, which no 16-entry
    vector has. *)
Lemma RET_on_empty_stack (s : Chip_8) :
  well_formed s = true -> fetches s 0x00EE -> SP s = 0 ->
  uint8_t (SP s - 1) = 255 /\
  vec_at (callstack s) (uint8_t (SP s - 1)) = OutOfRange /\
  ExecuteInst s = OutOfRange.
Proof.
  intros Hwf Hf Hsp. pose proof Hwf as Hw%well_formed_facts.
  rewrite (ExecuteInst_RET s) by assumption.
  unfold op_RET. cbn [callstack SP set_PC set_SP]. rewrite Hsp.
  assert (vec_at (callstack s) (uint8_t (0 - 1)) = OutOfRange) as HO.
  { apply vec_at_out_of_range. rewrite (wf_callstack_len s Hw). vm_compute. discriminate. }
  rewrite HO. repeat split.
Qed.

(** C4, on a fresh machine.  The return at 0x200 finds the stack empty; it
    does not exit, the stack pointer goes to 255 and the load of
    [callstack[255]] is outside the vector.  The 17th call does exit. *)
Theorem RET_underflow_reads_outside :
  well_formed ret_demo = true /\ fetches ret_demo 0x00EE /\ SP ret_demo = 0 /\
  uint8_t (SP ret_demo - 1) = 255 /\
  vec_at (callstack ret_demo) 255 = OutOfRange /\
  ExecuteInst ret_demo = OutOfRange /\
  SP call_full_demo = 16 /\ fetches call_full_demo 0x2200 /\
  ExecuteInst call_full_demo = Exit "Max recursion depth exceeded".
Proof. evaluate. Qed.

(** ** Fx1E *)

Lemma ExecuteInst_Fxkk (s : Chip_8) (x kk : Z) :
  well_formed s = true -> 0 <= x < 16 -> 0 <= kk < 256 ->
  fetches s (0xF000 + 0x100 * x + kk) ->
  ExecuteInst s = op_F x (set_PC s (PC s + 2)) /\
  vec_at (mem s) (PC s + 2 + 1 - 2) = Done kk.
Proof.
  intros Hwf Hx Hk Hf.
  destruct (PC_advance s _ Hwf Hf) as (HPC0 & HPC1 & HPC2).
  replace (0xF000 + 0x100 * x + kk) with (0x1000 * 15 + 0x100 * x + kk) in Hf by lia.
  rewrite (dispatch_xkk s 15 x kk) by (lia || assumption).
  unfold dispatch, CLS, RET.
  destruct (Z.eqb_spec (0x1000 * 15 + 0x100 * x + kk) 0xE0); [lia|].
  destruct (Z.eqb_spec (0x1000 * 15 + 0x100 * x + kk) 0xEE); [lia|].
  rewrite HPC2. split; [reflexivity|].
  destruct Hf as [_ H1]. replace (PC s + 2 + 1 - 2) with (PC s + 1) by lia.
  rewrite H1. f_equal. euclid.
Qed.

(** C7, amended.  After Fx1E the index register holds the old [VI] plus
    [V[x]] modulo 65536, the range of its 16-bit type; nothing masks it to
    12 bits, so its low 12 bits are the sum modulo 4096 and the value itself
    can exceed 0xFFF. *)
Theorem ADD_I_wraps_at_16_bits (s : Chip_8) (x : Z) :
  well_formed s = true -> 0 <= x < 16 ->
  fetches s (0xF01E + 0x100 * x) ->
  exists vx s',
    vec_at (V s) x = Done vx /\ ExecuteInst s = Done s' /\
    VI s' = (VI s + vx) mod 65536 /\
    VI s' mod 4096 = (VI s + vx) mod 4096.
Proof.
  intros Hwf Hx Hf.
  destruct (wf_V_ex s x Hwf Hx) as (vx & Hvx & Rx).
  replace (0xF01E + 0x100 * x) with (0xF000 + 0x100 * x + 0x1E) in Hf by lia.
  destruct (ExecuteInst_Fxkk s x 0x1E Hwf Hx ltac:(lia) Hf) as [-> Hb].
  unfold op_F. cbn [mem V VI PC set_PC]. rewrite Hb. cbn [bind].
  rewrite Hvx. cbn [bind].
  exists vx. eexists. split; [reflexivity|]. split; [reflexivity|].
  cbn [VI set_VI set_PC]. unfold uint16_t. split; [reflexivity|]. euclid.
Qed.

Lemma ADD_I_wraps_at_16_bits_witness :
  well_formed add_I_demo = true /\ 0 <= 0 < 16 /\
  fetches add_I_demo (0xF01E + 0x100 * 0) /\
  exists vx s',
    vec_at (V add_I_demo) 0 = Done vx /\ ExecuteInst add_I_demo = Done s' /\
    VI s' = (VI add_I_demo + vx) mod 65536 /\
    VI s' mod 4096 = (VI add_I_demo + vx) mod 4096.
Proof.
  assert (well_formed add_I_demo = true) as Hwf by (vm_compute; reflexivity).
  assert (fetches add_I_demo (0xF01E + 0x100 * 0)) as Hf
    by (split; vm_compute; reflexivity).
  split; [exact Hwf|]. split; [lia|]. split; [exact Hf|].
  exact (ADD_I_wraps_at_16_bits add_I_demo 0 Hwf ltac:(lia) Hf).
Defined.

(** C7 as worded fails where the sum passes 0xFFF: 0xFFF + 1 leaves 0x1000
    in the index register, not 0. *)
Lemma ADD_I_as_claimed_fails_at_0xFFF :
  fetches add_I_demo 0xF01E /\ VI add_I_demo = 0xFFF /\
  observe VI (ExecuteInst add_I_demo) = Done 0x1000 /\
  ~ ADD_I_as_claimed add_I_demo 0.
Proof.
  assert (observe VI (ExecuteInst add_I_demo) = Done 0x1000) as Ho
    by (vm_compute; reflexivity).
  split; [split; vm_compute; reflexivity|].
  split; [vm_compute; reflexivity|]. split; [exact Ho|].
  intros (vx & s' & _ & He & _ & Hle).
  rewrite He in Ho. cbn [observe bind] in Ho. injection Ho as Ho.
  rewrite Ho in Hle. vm_compute in Hle. apply Hle. reflexivity.
Qed.

(** ** Skips on a key: Ex9E and ExA1 *)

Lemma ExecuteInst_Exkk (s : Chip_8) (x kk : Z) :
  well_formed s = true -> 0 <= x < 16 -> 0 <= kk < 256 ->
  fetches s (0xE000 + 0x100 * x + kk) ->
  ExecuteInst s = op_SKP x (set_PC s (PC s + 2)) /\
  vec_at (mem s) (PC s + 2 + 1 - 2) = Done kk.
Proof.
  intros Hwf Hx Hk Hf.
  destruct (PC_advance s _ Hwf Hf) as (HPC0 & HPC1 & HPC2).
  replace (0xE000 + 0x100 * x + kk) with (0x1000 * 14 + 0x100 * x + kk) in Hf by lia.
  rewrite (dispatch_xkk s 14 x kk) by (lia || assumption).
  unfold dispatch, CLS, RET.
  destruct (Z.eqb_spec (0x1000 * 14 + 0x100 * x + kk) 0xE0); [lia|].
  destruct (Z.eqb_spec (0x1000 * 14 + 0x100 * x + kk) 0xEE); [lia|].
  rewrite HPC2. split; [reflexivity|].
  destruct Hf as [_ H1]. replace (PC s + 2 + 1 - 2) with (PC s + 1) by lia.
  rewrite H1. f_equal. euclid.
Qed.

(** Ex9E tests the register before it indexes [keys]. *)
Lemma SKP_invalid_key (s : Chip_8) (x vx : Z) :
  well_formed s = true -> 0 <= x < 16 ->
  fetches s (0xE09E + 0x100 * x) ->
  vec_at (V s) x = Done vx -> 15 < vx ->
  ExecuteInst s = Exit "Invalid code".
Proof.
  intros Hwf Hx Hf Hvx Hgt.
  replace (0xE09E + 0x100 * x) with (0xE000 + 0x100 * x + 0x9E) in Hf by lia.
  destruct (ExecuteInst_Exkk s x 0x9E Hwf Hx ltac:(lia) Hf) as [-> Hb].
  unfold op_SKP. cbn [mem V PC set_PC]. rewrite Hb. cbn [bind].
  rewrite Hvx. cbn [bind].
  destruct (Z.gtb_spec vx 15); [reflexivity | lia].
Qed.

(** ExA1 has no such test: a register above 15 indexes [keys] outside its
    16 entries. *)
Lemma SKNP_invalid_key (s : Chip_8) (x vx : Z) :
  well_formed s = true -> 0 <= x < 16 ->
  fetches s (0xE0A1 + 0x100 * x) ->
  vec_at (V s) x = Done vx -> 15 < vx ->
  vec_at (keys s) vx = OutOfRange /\ ExecuteInst s = OutOfRange.
Proof.
  intros Hwf Hx Hf Hvx Hgt. pose proof Hwf as Hw%well_formed_facts.
  replace (0xE0A1 + 0x100 * x) with (0xE000 + 0x100 * x + 0xA1) in Hf by lia.
  destruct (ExecuteInst_Exkk s x 0xA1 Hwf Hx ltac:(lia) Hf) as [-> Hb].
  assert (vec_at (keys s) vx = OutOfRange) as HO
    by (apply vec_at_out_of_range; rewrite (wf_keys_len s Hw); lia).
  split; [exact HO|].
  unfold op_SKP. cbn [mem V keys PC set_PC]. rewrite Hb. cbn [bind].
  rewrite Hvx. cbn [bind]. rewrite HO. reflexivity.
Qed.

(** With the register at most 15 both instructions read a key that exists,
    and skip exactly when it is down (Ex9E) or up (ExA1). *)
Lemma SKP_valid_key (s : Chip_8) (x vx : Z) :
  well_formed s = true -> 0 <= x < 16 ->
  fetches s (0xE09E + 0x100 * x) ->
  vec_at (V s) x = Done vx -> vx <= 15 ->
  exists k, vec_at (keys s) vx = Done k /\
    observe PC (ExecuteInst s) =
      Done (if keyState_eqb k DOWN then PC s + 4 else PC s + 2).
Proof.
  intros Hwf Hx Hf Hvx Hle. pose proof Hwf as Hw%well_formed_facts.
  pose proof (wf_V_at s x vx Hwf Hvx) as Rx.
  destruct (PC_advance s _ Hwf Hf) as (HPC0 & HPC1 & HPC2).
  replace (0xE09E + 0x100 * x) with (0xE000 + 0x100 * x + 0x9E) in Hf by lia.
  destruct (ExecuteInst_Exkk s x 0x9E Hwf Hx ltac:(lia) Hf) as [-> Hb].
  destruct (vec_at_in_range (keys s) vx) as [k Hk];
    [rewrite (wf_keys_len s Hw); lia|].
  exists k. split; [exact Hk|].
  unfold op_SKP. cbn [mem V keys PC set_PC]. rewrite Hb. cbn [bind Z.eqb Pos.eqb].
  rewrite Hvx. cbn [bind].
  destruct (Z.gtb_spec vx 15); [lia|]. rewrite Hk. cbn [bind observe].
  unfold skip_if. destruct (keyState_eqb k DOWN); cbn [PC set_PC]; [|reflexivity].
  unfold uint16_t. rewrite Z.mod_small by lia. f_equal. lia.
Qed.

Lemma SKNP_valid_key (s : Chip_8) (x vx : Z) :
  well_formed s = true -> 0 <= x < 16 ->
  fetches s (0xE0A1 + 0x100 * x) ->
  vec_at (V s) x = Done vx -> vx <= 15 ->
  exists k, vec_at (keys s) vx = Done k /\
    observe PC (ExecuteInst s) =
      Done (if keyState_eqb k UP then PC s + 4 else PC s + 2).
Proof.
  intros Hwf Hx Hf Hvx Hle. pose proof Hwf as Hw%well_formed_facts.
  pose proof (wf_V_at s x vx Hwf Hvx) as Rx.
  destruct (PC_advance s _ Hwf Hf) as (HPC0 & HPC1 & HPC2).
  replace (0xE0A1 + 0x100 * x) with (0xE000 + 0x100 * x + 0xA1) in Hf by lia.
  destruct (ExecuteInst_Exkk s x 0xA1 Hwf Hx ltac:(lia) Hf) as [-> Hb].
  destruct (vec_at_in_range (keys s) vx) as [k Hk];
    [rewrite (wf_keys_len s Hw); lia|].
  exists k. split; [exact Hk|].
  unfold op_SKP. cbn [mem V keys PC set_PC]. rewrite Hb. cbn [bind Z.eqb Pos.eqb].
  rewrite Hvx. cbn [bind]. rewrite Hk. cbn [bind observe].
  unfold skip_if. destruct (keyState_eqb k UP); cbn [PC set_PC]; [|reflexivity].
  unfold uint16_t. rewrite Z.mod_small by lia. f_equal. lia.
Qed.

(** C8, with [V[0] = 16].  ExA1 does not exit: it indexes [keys] at 16,
    outside the 16 entries.  Ex9E does exit, before it reads a key. *)
Theorem SKNP_reads_outside_keys :
  well_formed sknp_demo = true /\ fetches sknp_demo 0xE0A1 /\
  vec_at (V sknp_demo) 0 = Done 16 /\
  vec_at (keys sknp_demo) 16 = OutOfRange /\
  ExecuteInst sknp_demo = OutOfRange /\
  well_formed skp_demo = true /\ fetches skp_demo 0xE09E /\
  vec_at (V skp_demo) 0 = Done 16 /\
  ExecuteInst skp_demo = Exit "Invalid code".
Proof. evaluate. Qed.

(** ** Well-formedness is an invariant *)

Lemma for_loop_inv {S : Type} (P : S -> Prop) (body : Z -> S -> outcome S) :
  (forall i s s', P s -> body i s = Done s' -> P s') ->
  forall n i s s', P s -> for_loop n i body s = Done s' -> P s'.
Proof.
  intros Hbody n. induction n as [|n IH]; intros i s s' HP H; cbn [for_loop] in H.
  - injection H as <-. exact HP.
  - destruct (body i s) as [s1| |] eqn:E; cbn [bind] in H; try discriminate.
    eapply IH; [|exact H]. eapply Hbody; eassumption.
Qed.

Lemma assign_V_Done (s : Chip_8) (i a : Z) (s' : Chip_8) :
  assign_V s i a = Done s' ->
  0 <= i < Z.of_nat (length (V s)) /\ s' = set_V s (<[Z.to_nat i := a]> (V s)).
Proof.
  unfold assign_V.
  destruct (vec_set (V s) i a) as [l| |] eqn:E; cbn [bind]; try discriminate.
  intros H. injection H as <-. apply vec_set_Done in E as [Hi ->].
  split; [exact Hi | reflexivity].
Qed.

Lemma assign_mem_Done (s : Chip_8) (i a : Z) (s' : Chip_8) :
  assign_mem s i a = Done s' ->
  0 <= i < Z.of_nat (length (mem s)) /\ s' = set_mem s (<[Z.to_nat i := a]> (mem s)).
Proof.
  unfold assign_mem.
  destruct (vec_set (mem s) i a) as [l| |] eqn:E; cbn [bind]; try discriminate.
  intros H. injection H as <-. apply vec_set_Done in E as [Hi ->].
  split; [exact Hi | reflexivity].
Qed.

Lemma forallb_insert {A : Type} (P : A -> bool) (l : list A) (i : nat) (a : A) :
  forallb P l = true -> P a = true -> forallb P (<[i := a]> l) = true.
Proof.
  revert i. induction l as [|b l IH]; intros [|i] Hl Ha; cbn in *; try reflexivity.
  - apply andb_true_iff in Hl as [_ Hl]. rewrite Ha, Hl. reflexivity.
  - apply andb_true_iff in Hl as [Hb Hl]. rewrite Hb, IH by assumption. reflexivity.
Qed.

Lemma forallb_repeat {A : Type} (P : A -> bool) (a : A) (n : nat) :
  P a = true -> forallb P (repeat a n) = true.
Proof. intros Ha. induction n as [|n IH]; cbn; [reflexivity | rewrite Ha, IH; reflexivity]. Qed.

Lemma range_uint8_t (z : Z) : in_range 0 256 (uint8_t z) = true.
Proof. apply in_range_spec. unfold uint8_t. euclid. Qed.

Lemma range_int8_t (z : Z) : in_range (-128) 128 (int8_t z) = true.
Proof. apply in_range_spec. unfold int8_t. euclid. Qed.

Lemma range_int16_t (z : Z) : in_range (-32768) 32768 (int16_t z) = true.
Proof. apply in_range_spec. unfold int16_t. euclid. Qed.

Lemma bounds_uint8_t (z : Z) : 0 <= uint8_t z < 256.
Proof. unfold uint8_t. euclid. Qed.

Lemma bounds_uint16_t (z : Z) : 0 <= uint16_t z < 65536.
Proof. unfold uint16_t. euclid. Qed.

Lemma bind_Done {A B : Type} (m : outcome A) (k : A -> outcome B) (b : B) :
  bind m k = Done b -> exists a, m = Done a /\ k a = Done b.
Proof. destruct m as [a| |]; cbn [bind]; intros H; try discriminate. eauto. Qed.

(** Take a successful run of monadic code apart, one bind or test at a time. *)
Ltac run H :=
  repeat first
    [ match type of H with
      | bind ?m _ = Done _ =>
          let a := fresh "a" in let E := fresh "E" in
          apply bind_Done in H as (a & E & H); cbv beta in H
      | Exit _ = Done _ => discriminate H
      | OutOfRange = Done _ => discriminate H
      | (if ?b then _ else _) = Done _ => let E := fresh "E" in destruct b eqn:E
      | match ?o with Some _ => _ | None => _ end = Done _ =>
          let E := fresh "E" in destruct o eqn:E
      end ].

(** Replace the states of a finished run by what was assigned. *)
Ltac explicit :=
  repeat match goal with
    | H : assign_V _ _ _ = Done _ |- _ => apply assign_V_Done in H as [? ->]
    | H : assign_mem _ _ _ = Done _ |- _ => apply assign_mem_Done in H as [? ->]
    | H : vec_set _ _ _ = Done _ |- _ => apply vec_set_Done in H as [? ->]
    | H : Done _ = Done _ |- _ => injection H as <-
    | H : (if ?b then _ else _) = Done _ |- _ => destruct b eqn:?
    end.

Ltac fields :=
  cbn [mem V keys VI soundTimer delayTimer PC SP callstack randomSeed randGen pixels
       set_mem set_V set_keys set_VI set_soundTimer set_delayTimer set_PC set_SP
       set_callstack set_randGen set_pixels] in *.

(** Case analysis on a [switch] over integer constants. *)
Ltac switch_in H b :=
  destruct b as [|?p|?p];
  repeat match type of H with
    | context [match ?q with xI _ => _ | xO _ => _ | xH => _ end] => is_var q; destruct q
    end.

Ltac range_solve :=
  lazymatch goal with
  | |- forallb _ (@insert _ _ _ _ _ _ _) = true => apply forallb_insert; range_solve
  | |- forallb _ (repeat _ _) = true => apply forallb_repeat; reflexivity
  | |- forallb _ _ = true => assumption
  | |- in_range 0 256 (uint8_t _) = true => apply range_uint8_t
  | |- in_range _ _ (int8_t _) = true => apply range_int8_t
  | |- in_range _ _ (int16_t _) = true => apply range_int16_t
  | |- in_range _ _ (if ?b then _ else _) = true => destruct b; reflexivity
  | |- in_range _ _ (Zpos _) = true => reflexivity
  | |- in_range _ _ 0 = true => reflexivity
  | |- in_range ?lo ?hi ?a = true =>
      first
        [ match goal with
          | E : vec_at ?l _ = Done a |- _ =>
              refine (forallb_vec_at (in_range lo hi) l _ a _ E); range_solve
          end
        | apply in_range_spec; first [assumption | lia] ]
  | |- _ <= uint8_t _ < _ => apply bounds_uint8_t
  | |- _ <= uint16_t _ < _ => apply bounds_uint16_t
  | |- _ <= ?a < _ =>
      first [ assumption | lia | apply in_range_spec; range_solve ]
  | |- _ => idtac
  end.

Ltac wf_solve :=
  match goal with
  | Hw : wf_facts ?s |- wf_facts _ =>
      destruct Hw; constructor; fields;
      rewrite ?length_insert, ?repeat_length; try assumption; range_solve
  end.

Ltac op_wf op :=
  let Hrun := fresh "Hrun" in
  intros ? Hrun; unfold op in Hrun; try unfold skip_if in Hrun;
  run Hrun; explicit; fields;
  try match goal with |- wf_facts (if ?b then _ else _) => destruct b end;
  wf_solve.

Lemma op_CLS_wf s s' : wf_facts s -> op_CLS s = Done s' -> wf_facts s'.
Proof. op_wf op_CLS. Qed.

Lemma op_RET_wf s s' : wf_facts s -> op_RET s = Done s' -> wf_facts s'.
Proof. op_wf op_RET. Qed.

Lemma op_JP_wf nnn s s' :
  0 <= nnn < 65536 -> wf_facts s -> op_JP nnn s = Done s' -> wf_facts s'.
Proof. intros Hn. op_wf op_JP. Qed.

Lemma op_CALL_wf nnn s s' :
  0 <= nnn < 65536 -> wf_facts s -> op_CALL nnn s = Done s' -> wf_facts s'.
Proof. intros Hn. op_wf op_CALL. Qed.

Lemma op_SE_kk_wf x kk s s' : wf_facts s -> op_SE_kk x kk s = Done s' -> wf_facts s'.
Proof. op_wf op_SE_kk. Qed.

Lemma op_SNE_kk_wf x kk s s' : wf_facts s -> op_SNE_kk x kk s = Done s' -> wf_facts s'.
Proof. op_wf op_SNE_kk. Qed.

Lemma op_SE_wf x y s s' : wf_facts s -> op_SE x y s = Done s' -> wf_facts s'.
Proof. op_wf op_SE. Qed.

Lemma op_SNE_wf x y s s' : wf_facts s -> op_SNE x y s = Done s' -> wf_facts s'.
Proof. op_wf op_SNE. Qed.

Lemma op_LD_kk_wf x kk s s' : wf_facts s -> op_LD_kk x kk s = Done s' -> wf_facts s'.
Proof. op_wf op_LD_kk. Qed.

Lemma op_ADD_kk_wf x kk s s' : wf_facts s -> op_ADD_kk x kk s = Done s' -> wf_facts s'.
Proof. op_wf op_ADD_kk. Qed.

Lemma op_LD_wf x y s s' : wf_facts s -> op_LD x y s = Done s' -> wf_facts s'.
Proof. op_wf op_LD. Qed.

Lemma op_bitwise_wf f x y s s' : wf_facts s -> op_bitwise f x y s = Done s' -> wf_facts s'.
Proof. op_wf op_bitwise. Qed.

Lemma op_ADD_wf x y s s' : wf_facts s -> op_ADD x y s = Done s' -> wf_facts s'.
Proof. op_wf op_ADD. Qed.

Lemma op_SUB_wf x y s s' : wf_facts s -> op_SUB x y s = Done s' -> wf_facts s'.
Proof. op_wf op_SUB. Qed.

Lemma op_SHR_wf x s s' : wf_facts s -> op_SHR x s = Done s' -> wf_facts s'.
Proof. op_wf op_SHR. Qed.

Lemma op_SUBN_wf x y s s' : wf_facts s -> op_SUBN x y s = Done s' -> wf_facts s'.
Proof. op_wf op_SUBN. Qed.

Lemma op_SHL_wf x s s' : wf_facts s -> op_SHL x s = Done s' -> wf_facts s'.
Proof. op_wf op_SHL. Qed.

Lemma op_LD_I_wf nnn s s' :
  0 <= nnn < 65536 -> wf_facts s -> op_LD_I nnn s = Done s' -> wf_facts s'.
Proof. intros Hn. op_wf op_LD_I. Qed.

Lemma op_JP_V0_wf nnn s s' : wf_facts s -> op_JP_V0 nnn s = Done s' -> wf_facts s'.
Proof. op_wf op_JP_V0. Qed.

Lemma op_RND_wf x kk s s' : wf_facts s -> op_RND x kk s = Done s' -> wf_facts s'.
Proof. op_wf op_RND. Qed.

Lemma draw_bit_wf x y line row bit s s' :
  wf_facts s -> draw_bit x y line row bit s = Done s' -> wf_facts s'.
Proof. op_wf draw_bit. Qed.

Lemma draw_row_wf x y row s s' :
  wf_facts s -> draw_row x y row s = Done s' -> wf_facts s'.
Proof.
  intros Hw H. unfold draw_row in H. run H.
  eapply (for_loop_inv wf_facts); [|exact Hw|exact H].
  intros i t t' Ht Hb. eapply draw_bit_wf; eassumption.
Qed.

Lemma op_DRW_wf x y n s s' : wf_facts s -> op_DRW x y n s = Done s' -> wf_facts s'.
Proof.
  intros Hw H. unfold op_DRW in H. run H.
  eapply (for_loop_inv wf_facts); [| |exact H].
  - intros i t t' Ht Hb. eapply draw_row_wf; eassumption.
  - explicit. wf_solve.
Qed.

Lemma op_SKP_wf x s s' : wf_facts s -> op_SKP x s = Done s' -> wf_facts s'.
Proof. op_wf op_SKP. Qed.

Lemma op_LD_K_wf x s s' : wf_facts s -> op_LD_K x s = Done s' -> wf_facts s'.
Proof. op_wf op_LD_K. Qed.

Lemma op_BCD_wf x s s' : wf_facts s -> op_BCD x s = Done s' -> wf_facts s'.
Proof. op_wf op_BCD. Qed.

Lemma op_LD_I_V_wf x s s' : wf_facts s -> op_LD_I_V x s = Done s' -> wf_facts s'.
Proof.
  intros Hw H. unfold op_LD_I_V in H.
  eapply (for_loop_inv wf_facts); [|exact Hw|exact H].
  cbv beta. intros i t t' Ht Hb. run Hb. explicit. wf_solve.
Qed.

Lemma op_LD_V_I_wf x s s' : wf_facts s -> op_LD_V_I x s = Done s' -> wf_facts s'.
Proof.
  intros Hw H. unfold op_LD_V_I in H.
  eapply (for_loop_inv wf_facts); [|exact Hw|exact H].
  cbv beta. intros i t t' Ht Hb. run Hb. explicit. wf_solve.
Qed.

Lemma op_F_wf x s s' : wf_facts s -> op_F x s = Done s' -> wf_facts s'.
Proof.
  intros Hw H. unfold op_F in H.
  destruct (vec_at (mem s) (PC s + 1 - 2)) as [b| |]; cbn [bind] in H; try discriminate.
  switch_in H b; try discriminate H;
    first [ eapply op_LD_K_wf; eassumption | eapply op_BCD_wf; eassumption
          | eapply op_LD_I_V_wf; eassumption | eapply op_LD_V_I_wf; eassumption
          | run H; explicit; fields; wf_solve ].
Qed.

Lemma op_8_wf x y v s s' : wf_facts s -> op_8 x y v s = Done s' -> wf_facts s'.
Proof.
  intros Hw H. unfold op_8 in H.
  switch_in H v; try discriminate H;
    first [ eapply op_LD_wf; eassumption | eapply op_bitwise_wf; eassumption
          | eapply op_ADD_wf; eassumption | eapply op_SUB_wf; eassumption
          | eapply op_SHR_wf; eassumption | eapply op_SUBN_wf; eassumption
          | eapply op_SHL_wf; eassumption ].
Qed.

Lemma dispatch_wf opcode nnn n x y kk u v s s' :
  0 <= nnn < 65536 -> wf_facts s ->
  dispatch opcode nnn n x y kk u v s = Done s' -> wf_facts s'.
Proof.
  intros Hn Hw H. unfold dispatch in H.
  destruct (opcode =? CLS); [eapply op_CLS_wf; eassumption|].
  destruct (opcode =? RET); [eapply op_RET_wf; eassumption|].
  switch_in H u; try discriminate H;
    first [ eapply op_JP_wf; eassumption | eapply op_CALL_wf; eassumption
          | eapply op_SE_kk_wf; eassumption | eapply op_SNE_kk_wf; eassumption
          | eapply op_SE_wf; eassumption | eapply op_LD_kk_wf; eassumption
          | eapply op_ADD_kk_wf; eassumption | eapply op_8_wf; eassumption
          | eapply op_SNE_wf; eassumption | eapply op_LD_I_wf; eassumption
          | eapply op_JP_V0_wf; eassumption | eapply op_RND_wf; eassumption
          | eapply op_DRW_wf; eassumption | eapply op_SKP_wf; eassumption
          | eapply op_F_wf; eassumption ].
Qed.

(** Every instruction that completes leaves the machine well formed. *)
Lemma ExecuteInst_wf s s' :
  well_formed s = true -> ExecuteInst s = Done s' -> well_formed s' = true.
Proof.
  rewrite !well_formed_facts. intros Hw H. unfold ExecuteInst in H. run H.
  eapply dispatch_wf; [apply bounds_uint16_t| |exact H].
  wf_solve.
Qed.

Lemma RunCycle_wf s s' :
  well_formed s = true -> RunCycle s = Done s' -> well_formed s' = true.
Proof.
  intros Hwf H. unfold RunCycle in H. run H.
  apply ExecuteInst_wf in E; [|exact Hwf]. apply well_formed_facts in E.
  apply well_formed_facts. explicit.
  destruct (delayTimer a >? 0); fields;
    match goal with |- wf_facts (if ?b then _ else _) => destruct b end; wf_solve.
Qed.

Lemma run_cycles_wf n s s' :
  well_formed s = true -> run_cycles n s = Done s' -> well_formed s' = true.
Proof.
  intros Hwf H. unfold run_cycles in H.
  eapply (for_loop_inv (fun t => well_formed t = true)); [|exact Hwf|exact H].
  cbv beta. intros _ t t'. apply RunCycle_wf.
Qed.

Lemma poll_events_wf evs s s' :
  well_formed s = true -> poll_events evs s = Done s' ->
  well_formed s' = true /\ delayTimer s' = delayTimer s /\ soundTimer s' = soundTimer s.
Proof.
  revert s. induction evs as [|ev evs IH]; intros s Hwf H; cbn [poll_events] in H.
  - injection H as <-. auto.
  - unfold key_event in H. run H. run E. explicit.
    apply IH in H; [exact H|].
    apply well_formed_facts. apply well_formed_facts in Hwf. wf_solve.
Qed.

Lemma frame_wf evs s s' :
  well_formed s = true -> frame evs s = Done s' -> well_formed s' = true.
Proof.
  intros Hwf H. unfold frame in H. run H.
  apply poll_events_wf in E as [Hwf' _]; [|exact Hwf].
  eapply run_cycles_wf; eassumption.
Qed.

(** The constructor builds a well-formed machine, and loading a program
    keeps it so. *)
Lemma Chip_8_new_wf rnd : well_formed (Chip_8_new rnd) = true.
Proof. vm_compute. reflexivity. Qed.

Lemma LoadProgram_from_wf file pos s s' :
  well_formed s = true -> LoadProgram_from file pos s = Done s' ->
  well_formed s' = true.
Proof.
  revert pos s. induction file as [|b file IH]; intros pos s Hwf H;
    cbn [LoadProgram_from] in H.
  - apply well_formed_facts. apply well_formed_facts in Hwf. explicit. wf_solve.
  - run H. apply IH in H; [exact H|].
    apply well_formed_facts. apply well_formed_facts in Hwf. explicit. wf_solve.
Qed.

(** ** Timers *)

Lemma timers_kept_refl s : timers_kept s s.
Proof. split; reflexivity. Qed.

Lemma timers_kept_trans s t u : timers_kept s t -> timers_kept t u -> timers_kept s u.
Proof. intros [? ?] [? ?]. split; congruence. Qed.

Ltac op_timers op :=
  let Hrun := fresh "Hrun" in
  intros Hrun; unfold op in Hrun; try unfold skip_if in Hrun;
  run Hrun; explicit; fields;
  try match goal with |- timers_kept _ (if ?b then _ else _) => destruct b end;
  split; reflexivity.

Lemma op_CLS_timers s s' : op_CLS s = Done s' -> timers_kept s s'.
Proof. op_timers op_CLS. Qed.

Lemma op_RET_timers s s' : op_RET s = Done s' -> timers_kept s s'.
Proof. op_timers op_RET. Qed.

Lemma op_JP_timers nnn s s' : op_JP nnn s = Done s' -> timers_kept s s'.
Proof. op_timers op_JP. Qed.

Lemma op_CALL_timers nnn s s' : op_CALL nnn s = Done s' -> timers_kept s s'.
Proof. op_timers op_CALL. Qed.

Lemma op_SE_kk_timers x kk s s' : op_SE_kk x kk s = Done s' -> timers_kept s s'.
Proof. op_timers op_SE_kk. Qed.

Lemma op_SNE_kk_timers x kk s s' : op_SNE_kk x kk s = Done s' -> timers_kept s s'.
Proof. op_timers op_SNE_kk. Qed.

Lemma op_SE_timers x y s s' : op_SE x y s = Done s' -> timers_kept s s'.
Proof. op_timers op_SE. Qed.

Lemma op_SNE_timers x y s s' : op_SNE x y s = Done s' -> timers_kept s s'.
Proof. op_timers op_SNE. Qed.

Lemma op_LD_kk_timers x kk s s' : op_LD_kk x kk s = Done s' -> timers_kept s s'.
Proof. op_timers op_LD_kk. Qed.

Lemma op_ADD_kk_timers x kk s s' : op_ADD_kk x kk s = Done s' -> timers_kept s s'.
Proof. op_timers op_ADD_kk. Qed.

Lemma op_LD_timers x y s s' : op_LD x y s = Done s' -> timers_kept s s'.
Proof. op_timers op_LD. Qed.

Lemma op_bitwise_timers f x y s s' : op_bitwise f x y s = Done s' -> timers_kept s s'.
Proof. op_timers op_bitwise. Qed.

Lemma op_ADD_timers x y s s' : op_ADD x y s = Done s' -> timers_kept s s'.
Proof. op_timers op_ADD. Qed.

Lemma op_SUB_timers x y s s' : op_SUB x y s = Done s' -> timers_kept s s'.
Proof. op_timers op_SUB. Qed.

Lemma op_SHR_timers x s s' : op_SHR x s = Done s' -> timers_kept s s'.
Proof. op_timers op_SHR. Qed.

Lemma op_SUBN_timers x y s s' : op_SUBN x y s = Done s' -> timers_kept s s'.
Proof. op_timers op_SUBN. Qed.

Lemma op_SHL_timers x s s' : op_SHL x s = Done s' -> timers_kept s s'.
Proof. op_timers op_SHL. Qed.

Lemma op_LD_I_timers nnn s s' : op_LD_I nnn s = Done s' -> timers_kept s s'.
Proof. op_timers op_LD_I. Qed.

Lemma op_JP_V0_timers nnn s s' : op_JP_V0 nnn s = Done s' -> timers_kept s s'.
Proof. op_timers op_JP_V0. Qed.

Lemma op_RND_timers x kk s s' : op_RND x kk s = Done s' -> timers_kept s s'.
Proof. op_timers op_RND. Qed.

Lemma draw_bit_timers x y line row bit s s' :
  draw_bit x y line row bit s = Done s' -> timers_kept s s'.
Proof. op_timers draw_bit. Qed.

Lemma for_loop_timers (body : Z -> Chip_8 -> outcome Chip_8) :
  (forall i t t', body i t = Done t' -> timers_kept t t') ->
  forall n i s s', for_loop n i body s = Done s' -> timers_kept s s'.
Proof.
  intros Hbody n i s s' H.
  eapply (for_loop_inv (fun t => timers_kept s t)); [|apply timers_kept_refl|exact H].
  cbv beta. intros j t t' Ht Hb. eapply timers_kept_trans; [exact Ht|]. eapply Hbody, Hb.
Qed.

Lemma op_DRW_timers x y n s s' : op_DRW x y n s = Done s' -> timers_kept s s'.
Proof.
  intros H. unfold op_DRW in H. run H.
  apply (timers_kept_trans s a s').
  - explicit. split; reflexivity.
  - eapply for_loop_timers; [|exact H].
    intros i t t' Hr. unfold draw_row in Hr. run Hr.
    eapply for_loop_timers; [|exact Hr].
    intros j r r'. apply draw_bit_timers.
Qed.

Lemma op_SKP_timers x s s' : op_SKP x s = Done s' -> timers_kept s s'.
Proof. op_timers op_SKP. Qed.

Lemma op_LD_K_timers x s s' : op_LD_K x s = Done s' -> timers_kept s s'.
Proof. op_timers op_LD_K. Qed.

Lemma op_BCD_timers x s s' : op_BCD x s = Done s' -> timers_kept s s'.
Proof. op_timers op_BCD. Qed.

Lemma op_LD_I_V_timers x s s' : op_LD_I_V x s = Done s' -> timers_kept s s'.
Proof.
  intros H. unfold op_LD_I_V in H. eapply for_loop_timers; [|exact H].
  cbv beta. intros i t t' Hb. run Hb. explicit. split; reflexivity.
Qed.

Lemma op_LD_V_I_timers x s s' : op_LD_V_I x s = Done s' -> timers_kept s s'.
Proof.
  intros H. unfold op_LD_V_I in H. eapply for_loop_timers; [|exact H].
  cbv beta. intros i t t' Hb. run Hb. explicit. split; reflexivity.
Qed.

Lemma op_8_timers x y v s s' : op_8 x y v s = Done s' -> timers_kept s s'.
Proof.
  intros H. unfold op_8 in H.
  switch_in H v; try discriminate H;
    first [ eapply op_LD_timers; eassumption | eapply op_bitwise_timers; eassumption
          | eapply op_ADD_timers; eassumption | eapply op_SUB_timers; eassumption
          | eapply op_SHR_timers; eassumption | eapply op_SUBN_timers; eassumption
          | eapply op_SHL_timers; eassumption ].
Qed.

(** Inside [case 0xF] only Fx15 writes the delay timer and only Fx18 the
    sound timer. *)
Lemma op_F_timers x s s' b :
  vec_at (mem s) (PC s + 1 - 2) = Done b -> op_F x s = Done s' ->
  (b <> 0x15 -> delayTimer s' = delayTimer s) /\
  (b <> 0x18 -> soundTimer s' = soundTimer s).
Proof.
  intros Hb H. unfold op_F in H. rewrite Hb in H. cbn [bind] in H.
  switch_in H b; try discriminate H;
    first
      [ apply op_LD_K_timers in H; destruct H; split; intros _; assumption
      | apply op_BCD_timers in H; destruct H; split; intros _; assumption
      | apply op_LD_I_V_timers in H; destruct H; split; intros _; assumption
      | apply op_LD_V_I_timers in H; destruct H; split; intros _; assumption
      | run H; explicit; fields;
        split; intros Hne; first [reflexivity | exfalso; apply Hne; reflexivity] ].
Qed.

Lemma dispatch_timers opcode nnn n x y kk u v s s' b :
  vec_at (mem s) (PC s + 1 - 2) = Done b ->
  dispatch opcode nnn n x y kk u v s = Done s' ->
  (~ (u = 15 /\ b = 0x15) -> delayTimer s' = delayTimer s) /\
  (~ (u = 15 /\ b = 0x18) -> soundTimer s' = soundTimer s).
Proof.
  intros Hb H. unfold dispatch in H.
  assert (timers_kept s s' ->
          (~ (u = 15 /\ b = 0x15) -> delayTimer s' = delayTimer s) /\
          (~ (u = 15 /\ b = 0x18) -> soundTimer s' = soundTimer s)) as Hk
    by (intros [? ?]; split; intros _; assumption).
  destruct (opcode =? CLS); [apply Hk; eapply op_CLS_timers; eassumption|].
  destruct (opcode =? RET); [apply Hk; eapply op_RET_timers; eassumption|].
  switch_in H u; try discriminate H;
    first
      [ apply Hk;
        first [ eapply op_JP_timers; eassumption | eapply op_CALL_timers; eassumption
              | eapply op_SE_kk_timers; eassumption | eapply op_SNE_kk_timers; eassumption
              | eapply op_SE_timers; eassumption | eapply op_LD_kk_timers; eassumption
              | eapply op_ADD_kk_timers; eassumption | eapply op_8_timers; eassumption
              | eapply op_SNE_timers; eassumption | eapply op_LD_I_timers; eassumption
              | eapply op_JP_V0_timers; eassumption | eapply op_RND_timers; eassumption
              | eapply op_DRW_timers; eassumption | eapply op_SKP_timers; eassumption ]
      | destruct (op_F_timers x s s' b Hb H) as [Hd Hs];
        split; intros Hne; [apply Hd | apply Hs]; intros ->; apply Hne; split; reflexivity ].
Qed.

(** An instruction that completes was fetched. *)
Lemma ExecuteInst_Done_fetches s s' :
  well_formed s = true -> ExecuteInst s = Done s' ->
  exists op, 0 <= op < 65536 /\ fetches s op.
Proof.
  intros Hwf H. pose proof Hwf as Hw%well_formed_facts.
  unfold ExecuteInst in H. run H.
  rename a into b0. rename a0 into b1. pose proof (wf_mem s Hw) as Hmem.
  assert (0 <= b0 < 256) by (apply in_range_spec; range_solve).
  assert (0 <= b1 < 256) by (apply in_range_spec; range_solve).
  exists (b0 * 256 + b1). split; [lia|]. split.
  - rewrite E0. f_equal. euclid.
  - rewrite E1. f_equal. euclid.
Qed.

Lemma ExecuteInst_timers s s' :
  well_formed s = true -> ExecuteInst s = Done s' ->
  (~ executes LD_DT_Vx s -> delayTimer s' = delayTimer s) /\
  (~ executes LD_ST_Vx s -> soundTimer s' = soundTimer s).
Proof.
  intros Hwf H.
  destruct (ExecuteInst_Done_fetches s s' Hwf H) as (op & Hop & Hf).
  destruct (PC_advance s _ Hwf Hf) as (HPC0 & HPC1 & HPC2).
  rewrite (ExecuteInst_fetch s op Hop Hf) in H. rewrite HPC2 in H.
  assert (vec_at (mem (set_PC s (PC s + 2))) (PC (set_PC s (PC s + 2)) + 1 - 2)
          = Done (op mod 256)) as Hb.
  { cbn [mem PC set_PC]. replace (PC s + 2 + 1 - 2) with (PC s + 1) by lia. apply Hf. }
  destruct (dispatch_timers _ _ _ _ _ _ _ _ _ _ _ Hb H) as [Hd Hs].
  cbn [delayTimer soundTimer set_PC] in Hd, Hs.
  split; intros Hne; [apply Hd | apply Hs]; intros [Hu Hlow]; apply Hne;
    exists op; (split; [|exact Hf]); exists ((op / 256) mod 16);
    (split; [|]); euclid.
Qed.

(** [RunCycle] is [ExecuteInst] followed by one step down of each timer
    that is not 0. *)
Lemma RunCycle_timers s s' :
  well_formed s = true -> RunCycle s = Done s' ->
  exists s1, ExecuteInst s = Done s1 /\
    delayTimer s' = Z.max 0 (delayTimer s1 - 1) /\
    soundTimer s' = Z.max 0 (soundTimer s1 - 1).
Proof.
  intros Hwf H. unfold RunCycle in H. run H. exists a. split; [exact E|].
  apply ExecuteInst_wf in E; [|exact Hwf]. apply well_formed_facts in E.
  pose proof (wf_delay a E). pose proof (wf_sound a E).
  injection H as <-. unfold uint8_t.
  destruct (Z.gtb_spec (delayTimer a) 0); fields;
    destruct (Z.gtb_spec (soundTimer a) 0); fields;
    rewrite ?Z.mod_small by lia; lia.
Qed.

Lemma for_loop_RunCycle_timers n i s s' :
  well_formed s = true -> for_loop n i (fun _ => RunCycle) s = Done s' ->
  (cycles_avoid LD_DT_Vx n s -> delayTimer s' = Z.max 0 (delayTimer s - Z.of_nat n)) /\
  (cycles_avoid LD_ST_Vx n s -> soundTimer s' = Z.max 0 (soundTimer s - Z.of_nat n)).
Proof.
  revert i s.
  induction n as [|n IH]; intros i s Hwf H; cbn [for_loop] in H.
  - injection H as <-. apply well_formed_facts in Hwf.
    pose proof (wf_delay s Hwf). pose proof (wf_sound s Hwf).
    split; intros _; lia.
  - run H. rename a into s1.
    pose proof (RunCycle_wf s s1 Hwf E) as Hwf1.
    destruct (IH (i + 1) s1 Hwf1 H) as [IHd IHs].
    destruct (RunCycle_timers s s1 Hwf E) as (t & Ht & Hd & Hs).
    destruct (ExecuteInst_timers s t Hwf Ht) as [Kd Ks].
    split; intros [Hno Hrest].
    + rewrite (IHd (Hrest s1 E)), Hd, (Kd Hno). lia.
    + rewrite (IHs (Hrest s1 E)), Hs, (Ks Hno). lia.
Qed.

Lemma run_cycles_timers n s s' :
  well_formed s = true -> run_cycles n s = Done s' ->
  (cycles_avoid LD_DT_Vx n s -> delayTimer s' = Z.max 0 (delayTimer s - Z.of_nat n)) /\
  (cycles_avoid LD_ST_Vx n s -> soundTimer s' = Z.max 0 (soundTimer s - Z.of_nat n)).
Proof. apply for_loop_RunCycle_timers. Qed.

(** C6, amended.  [ExecuteInst] never decrements a timer: it leaves the
    delay timer alone unless the instruction is Fx15 and the sound timer
    alone unless it is Fx18.  The timers are decremented by [RunCycle],
    which takes 1 off each timer that is not 0 after every instruction it
    executes, and a frame calls [RunCycle] 150 times; so over a frame in
    which no Fx15 (Fx18) is executed the delay (sound) timer goes down by
    150, or to 0 when it was less. *)
Theorem timers_tick_with_every_instruction (s : Chip_8) :
  well_formed s = true ->
  (forall s', ExecuteInst s = Done s' ->
     (~ executes LD_DT_Vx s -> delayTimer s' = delayTimer s) /\
     (~ executes LD_ST_Vx s -> soundTimer s' = soundTimer s)) /\
  (forall s', RunCycle s = Done s' ->
     exists s1, ExecuteInst s = Done s1 /\
       delayTimer s' = Z.max 0 (delayTimer s1 - 1) /\
       soundTimer s' = Z.max 0 (soundTimer s1 - 1)) /\
  (forall evs s', frame evs s = Done s' ->
     exists s0, poll_events evs s = Done s0 /\ run_cycles 150 s0 = Done s' /\
       (cycles_avoid LD_DT_Vx 150 s0 -> delayTimer s' = Z.max 0 (delayTimer s - 150)) /\
       (cycles_avoid LD_ST_Vx 150 s0 -> soundTimer s' = Z.max 0 (soundTimer s - 150))).
Proof.
  intros Hwf. split; [|split].
  - intros s'. apply ExecuteInst_timers, Hwf.
  - intros s'. apply RunCycle_timers, Hwf.
  - intros evs s' H. unfold frame in H. run H. rename a into s0.
    change (Z.to_nat (clockSpeed / 2)) with 150%nat in H.
    exists s0. split; [exact E|]. split; [exact H|].
    destruct (poll_events_wf evs s s0 Hwf E) as (Hwf0 & Hd & Hs).
    destruct (run_cycles_timers 150 s0 s' Hwf0 H) as [Kd Ks].
    rewrite <- Hd, <- Hs. split; intros Hno; [apply Kd | apply Ks]; exact Hno.
Qed.

Lemma timers_tick_with_every_instruction_witness :
  well_formed timer_demo = true /\
  (forall s', ExecuteInst timer_demo = Done s' ->
     (~ executes LD_DT_Vx timer_demo -> delayTimer s' = delayTimer timer_demo) /\
     (~ executes LD_ST_Vx timer_demo -> soundTimer s' = soundTimer timer_demo)) /\
  (forall s', RunCycle timer_demo = Done s' ->
     exists s1, ExecuteInst timer_demo = Done s1 /\
       delayTimer s' = Z.max 0 (delayTimer s1 - 1) /\
       soundTimer s' = Z.max 0 (soundTimer s1 - 1)) /\
  (forall evs s', frame evs timer_demo = Done s' ->
     exists s0, poll_events evs timer_demo = Done s0 /\ run_cycles 150 s0 = Done s' /\
       (cycles_avoid LD_DT_Vx 150 s0 ->
        delayTimer s' = Z.max 0 (delayTimer timer_demo - 150)) /\
       (cycles_avoid LD_ST_Vx 150 s0 ->
        soundTimer s' = Z.max 0 (soundTimer timer_demo - 150))).
Proof.
  assert (well_formed timer_demo = true) as Hwf by (vm_compute; reflexivity).
  split; [exact Hwf|].
  exact (timers_tick_with_every_instruction timer_demo Hwf).
Defined.

(** A machine that sits on a jump to itself executes nothing else. *)
Lemma spin_avoids (P : Z -> Prop) (a : Z) (n : nat) (s : Chip_8) :
  0 <= a < 4096 -> ~ P (0x1000 + a) ->
  well_formed s = true -> PC s = a -> fetches s (0x1000 + a) ->
  cycles_avoid P n s.
Proof.
  intros Ha HP. revert s. induction n as [|n IH]; intros s Hwf HPC Hf; cbn [cycles_avoid].
  - exact I.
  - split.
    + intros (op & Hop & [H0 H1]). destruct Hf as [F0 F1].
      rewrite F0 in H0. rewrite F1 in H1. injection H0 as H0. injection H1 as H1.
      apply HP. replace (0x1000 + a) with op by euclid. exact Hop.
    + intros s' Hr. pose proof (RunCycle_wf s s' Hwf Hr) as Hwf'.
      apply IH; [exact Hwf'| |].
      * unfold RunCycle in Hr. run Hr.
        rewrite (ExecuteInst_fetch s (0x1000 + a)) in E by (lia || assumption).
        unfold dispatch, CLS, RET in E.
        destruct (Z.eqb_spec (0x1000 + a) 0xE0); [lia|].
        destruct (Z.eqb_spec (0x1000 + a) 0xEE); [lia|].
        replace ((0x1000 + a) / 4096) with 1 in E by euclid.
        replace ((0x1000 + a) mod 4096) with a in E by euclid.
        cbv iota in E. unfold op_JP in E. run E. explicit.
        destruct (delayTimer _ >? 0); fields;
          destruct (soundTimer _ >? 0); reflexivity.
      * unfold RunCycle in Hr. run Hr.
        rewrite (ExecuteInst_fetch s (0x1000 + a)) in E by (lia || assumption).
        unfold dispatch, CLS, RET in E.
        destruct (Z.eqb_spec (0x1000 + a) 0xE0); [lia|].
        destruct (Z.eqb_spec (0x1000 + a) 0xEE); [lia|].
        replace ((0x1000 + a) / 4096) with 1 in E by euclid.
        replace ((0x1000 + a) mod 4096) with a in E by euclid.
        cbv iota in E. unfold op_JP in E. run E. explicit.
        unfold fetches in *. rewrite HPC in Hf.
        destruct (delayTimer _ >? 0); fields;
          destruct (soundTimer _ >? 0); fields; exact Hf.
Qed.

(** C6 as worded fails on a frame that executes nothing but jumps: the
    delay timer falls from 107 to 0, not to 106. *)
Lemma frame_tick_as_claimed_fails :
  delayTimer timer_demo = 107 /\
  cycles_avoid LD_DT_Vx 150 timer_demo /\
  observe delayTimer (frame [] timer_demo) = Done 0 /\
  ~ frame_tick_as_claimed timer_demo.
Proof.
  assert (observe delayTimer (frame [] timer_demo) = Done 0) as Ho
    by (vm_compute; reflexivity).
  split; [vm_compute; reflexivity|]. split; [|split; [exact Ho|]].
  - apply (spin_avoids LD_DT_Vx 0x204); try (vm_compute; reflexivity); try lia.
    + intros (x & Hx & E). lia.
    + split; vm_compute; reflexivity.
  - intros Hc. unfold frame_tick_as_claimed in Hc.
    destruct (frame [] timer_demo) as [s'| |] eqn:E; try discriminate Ho.
    specialize (Hc s' eq_refl). cbn [observe bind] in Ho. injection Ho as Ho.
    rewrite Ho in Hc. vm_compute in Hc. discriminate Hc.
Qed.

(** ** Drawing: what Dxyn does to the display *)

Lemma xor_all_app us vs p : xor_all (us ++ vs) p = xor_all vs (xor_all us p).
Proof. unfold xor_all. apply foldl_app. Qed.

Lemma xor_all_length us p : length (xor_all us p) = length p.
Proof.
  revert p. induction us as [|u us IH]; intros p; [reflexivity|].
  cbn [xor_all foldl]. fold (xor_all us (xor_at u p)). rewrite IH.
  unfold xor_at. apply length_alter.
Qed.

Lemma xor_all_lookup us (p : list Z) (j : nat) :
  xor_all us p !! j = (fun v => Z.lxor v (mask us j)) <$> (p !! j).
Proof.
  revert p. induction us as [|[i d] us IH]; intros p.
  - cbn [xor_all foldl mask]. destruct (p !! j); cbn; [rewrite Z.lxor_0_r|]; reflexivity.
  - cbn [xor_all foldl]. fold (xor_all us (xor_at (i, d) p)). rewrite IH.
    unfold xor_at. cbn [fst snd mask]. destruct (Nat.eqb_spec i j) as [->|Hne].
    + rewrite list_lookup_alter_eq. destruct (p !! j); cbn; [|reflexivity].
      rewrite Z.lxor_assoc. reflexivity.
    + rewrite list_lookup_alter_ne by exact Hne. reflexivity.
Qed.

(** The same updates a second time undo the first. *)
Lemma xor_all_twice us (p : list Z) : xor_all us (xor_all us p) = p.
Proof.
  apply list_eq. intros j. rewrite !xor_all_lookup.
  destruct (p !! j) as [v|]; cbn; [|reflexivity].
  rewrite Z.lxor_assoc, Z.lxor_nilpotent, Z.lxor_0_r. reflexivity.
Qed.

Lemma alter_as_insert (f : Z -> Z) (l : list Z) (i : nat) (v : Z) :
  l !! i = Some v -> <[i := f v]> l = alter f i l.
Proof.
  intros Hv. apply list_eq. intros j. destruct (Nat.eq_dec i j) as [<-|Hne].
  - rewrite list_lookup_alter_eq, Hv.
    apply list_lookup_insert_eq. eapply lookup_lt_Some, Hv.
  - rewrite list_lookup_alter_ne, list_lookup_insert_ne by exact Hne. reflexivity.
Qed.

(** XOR with a bit keeps an [int8_t] an [int8_t]. *)
Lemma lxor_bit_range (v d : Z) :
  -128 <= v < 128 -> d = 0 \/ d = 1 -> -128 <= Z.lxor v d < 128.
Proof.
  intros Hv [-> | ->]; [rewrite Z.lxor_0_r; exact Hv|].
  destruct (Z.eq_dec (v mod 2) 0) as [He|Ho].
  - rewrite <- Z.add_nocarry_lxor.
    + euclid.
    + change 1 with (Z.ones 1). rewrite Z.land_ones by lia. exact He.
  - assert (Z.lxor (v - 1) 1 = v) as Hv1.
    { rewrite <- Z.add_nocarry_lxor; [lia|].
      change 1 with (Z.ones 1) at 2. rewrite Z.land_ones by lia.
      change (2 ^ 1) with 2. euclid. }
    assert (Z.lxor v 1 = v - 1) as ->; [|euclid].
    rewrite <- Hv1 at 1.
    rewrite Z.lxor_assoc, Z.lxor_nilpotent, Z.lxor_0_r. reflexivity.
Qed.

Lemma int8_t_small (z : Z) : -128 <= z < 128 -> int8_t z = z.
Proof. intros Hz. unfold int8_t. rewrite Z.mod_small; lia. Qed.

Lemma draw_bit_is_bit (line bit : Z) :
  let d := uint8_t (Z.land (Z.shiftr line (7 - bit)) 1) in d = 0 \/ d = 1.
Proof.
  cbv zeta. unfold uint8_t.
  generalize (Z.shiftr line (7 - bit)). intros z.
  replace (Z.land z 1) with (z mod 2); [euclid|].
  change 1 with (Z.ones 1). rewrite Z.land_ones by lia. reflexivity.
Qed.

Lemma drawn_trans us vs s t u :
  drawn us s t -> drawn vs t u -> drawn (us ++ vs) s u.
Proof.
  intros (Hp & Hm & Hi & Hv) (Hp' & Hm' & Hi' & Hv').
  repeat split; try congruence.
  - rewrite xor_all_app, <- Hp. exact Hp'.
  - intros j Hj. rewrite Hv', Hv by exact Hj. reflexivity.
Qed.

Lemma drawn_set_flag s a :
  0 <= 15 < Z.of_nat (length (V s)) ->
  drawn [] s (set_V s (<[Z.to_nat 15 := a]> (V s))).
Proof.
  intros Hlen. repeat split. intros j Hj. cbn [V set_V].
  destruct (Z.ltb_spec j 0) as [Hneg|Hpos].
  - unfold vec_at. destruct (Z.ltb_spec j 0); [reflexivity | lia].
  - apply vec_at_insert_ne; lia.
Qed.

Lemma loop_updates_ext (f g : Z -> list (nat * Z)) (k : nat) (i : Z) :
  (forall j, i <= j < i + Z.of_nat k -> f j = g j) ->
  loop_updates k i f = loop_updates k i g.
Proof.
  revert i. induction k as [|k IH]; intros i Hfg; cbn [loop_updates]; [reflexivity|].
  rewrite (Hfg i) by lia. f_equal. apply IH. intros j Hj. apply Hfg. lia.
Qed.

Section Draw.
Variables (x y vx vy : Z).
Hypothesis (Hx : x <> 15) (Hy : y <> 15).

Lemma coords_drawn us s s' : drawn us s s' -> coords x y vx vy s -> coords x y vx vy s'.
Proof.
  intros (_ & _ & _ & Hv) [Cx Cy]. split; rewrite Hv by assumption; assumption.
Qed.

Lemma draw_bit_drawn line row bit s :
  wf_facts s -> coords x y vx vy s -> 0 <= row -> 0 <= bit ->
  exists s', draw_bit x y line row bit s = Done s' /\
    drawn [bit_update vx vy line row bit] s s' /\
    forall v, vec_at (V s) 15 = Done v ->
      vec_at (V s') 15
      = Done (if any_on (pixels s) [bit_update vx vy line row bit] then 1 else v).
Proof.
  intros Hw [Cx Cy] Hrow Hbit.
  pose proof (wf_pixels_len s Hw) as Hplen. pose proof (wf_V_len s Hw) as HVlen.
  unfold draw_bit. rewrite Cx, Cy. cbn [bind].
  set (idx := W * uint8_t ((row + vy) mod H) + uint8_t ((bit + vx) mod W)).
  assert (0 <= idx < 2048) as Hidx by (unfold idx, uint8_t, W, H; euclid).
  destruct (vec_at_in_range (pixels s) idx) as [p Hp]; [lia|].
  assert (-128 <= p < 128) as Rp.
  { apply in_range_spec. eapply forallb_vec_at; [apply (wf_pixels s Hw) | exact Hp]. }
  pose proof (draw_bit_is_bit line bit) as Hd. cbv zeta in Hd.
  set (d := uint8_t (Z.land (Z.shiftr line (7 - bit)) 1)) in *.
  assert (<[Z.to_nat idx := int8_t (Z.lxor p d)]> (pixels s)
          = xor_all [bit_update vx vy line row bit] (pixels s)) as Hpix.
  { rewrite int8_t_small by (apply lxor_bit_range; assumption).
    cbn [xor_all foldl]. unfold xor_at, bit_update. cbn [fst snd]. fold idx d.
    apply (alter_as_insert (fun v => Z.lxor v d)).
    apply vec_at_Done in Hp. apply Hp. }
  assert (any_on (pixels s) [bit_update vx vy line row bit] = (p =? 1)) as Hon.
  { unfold any_on, on, bit_update. cbn [existsb fst]. fold idx.
    apply vec_at_Done in Hp as [_ ->]. apply orb_false_r. }
  rewrite Hp. cbn [bind]. rewrite Hon.
  destruct (p =? 1).
  - rewrite assign_V_in_range by lia. cbn [bind pixels set_V].
    rewrite Hp. cbn [bind]. rewrite vec_set_in_range by lia. cbn [bind].
    eexists. split; [reflexivity|]. split.
    + split; [exact Hpix|]. split; [reflexivity|]. split; [reflexivity|].
      apply (drawn_set_flag s 1). lia.
    + intros v _. cbn [V set_V set_pixels]. apply vec_at_insert_eq. lia.
  - cbn [bind]. rewrite Hp. cbn [bind]. rewrite vec_set_in_range by lia. cbn [bind].
    eexists. split; [reflexivity|]. split.
    + split; [exact Hpix|]. repeat split.
    + intros v Hv. exact Hv.
Qed.

Lemma draw_bits_drawn line row (k : nat) (i : Z) s :
  wf_facts s -> coords x y vx vy s -> 0 <= row -> 0 <= i ->
  exists s', for_loop k i (draw_bit x y line row) s = Done s' /\
    drawn (loop_updates k i (fun bit => [bit_update vx vy line row bit])) s s' /\
    wf_facts s'.
Proof.
  revert i s. induction k as [|k IH]; intros i s Hw Hc Hrow Hi; cbn [for_loop loop_updates].
  - exists s. split; [reflexivity|]. split; [|exact Hw]. repeat split.
  - destruct (draw_bit_drawn line row i s Hw Hc Hrow Hi) as (s1 & E1 & D1 & _).
    rewrite E1. cbn [bind].
    pose proof (draw_bit_wf _ _ _ _ _ _ _ Hw E1) as Hw1.
    destruct (IH (i + 1) s1 Hw1 (coords_drawn _ _ _ D1 Hc) Hrow ltac:(lia))
      as (s2 & E2 & D2 & Hw2).
    exists s2. split; [exact E2|]. split; [|exact Hw2].
    eapply drawn_trans; eassumption.
Qed.

Lemma draw_row_drawn row s :
  wf_facts s -> coords x y vx vy s -> 0 <= row -> Z.land (VI s) 0xFFF + row < 4096 ->
  exists s', draw_row x y row s = Done s' /\
    drawn (row_updates vx vy (mem s) (Z.land (VI s) 0xFFF) row) s s' /\
    wf_facts s'.
Proof.
  intros Hw Hc Hrow Hin. unfold draw_row, row_updates.
  assert (0 <= Z.land (VI s) 0xFFF) as Hbase.
  { change 0xFFF with (Z.ones 12). rewrite Z.land_ones by lia. euclid. }
  destruct (vec_at_in_range (mem s) (Z.land (VI s) 0xFFF + row)) as [line Hl];
    [rewrite (wf_mem_len s Hw); lia|].
  rewrite Hl. cbn [bind].
  apply draw_bits_drawn; assumption || lia.
Qed.

Lemma draw_rows_drawn (k : nat) (i : Z) s :
  wf_facts s -> coords x y vx vy s -> 0 <= i ->
  Z.land (VI s) 0xFFF + i + Z.of_nat k <= 4096 ->
  exists s', for_loop k i (draw_row x y) s = Done s' /\
    drawn (loop_updates k i (row_updates vx vy (mem s) (Z.land (VI s) 0xFFF))) s s' /\
    wf_facts s'.
Proof.
  revert i s. induction k as [|k IH]; intros i s Hw Hc Hi Hin; cbn [for_loop loop_updates].
  - exists s. split; [reflexivity|]. split; [|exact Hw]. repeat split.
  - destruct (draw_row_drawn i s Hw Hc Hi ltac:(lia)) as (s1 & E1 & D1 & Hw1).
    rewrite E1. cbn [bind].
    pose proof D1 as (_ & Hm & HI & _).
    destruct (IH (i + 1) s1 Hw1 (coords_drawn _ _ _ D1 Hc) ltac:(lia))
      as (s2 & E2 & D2 & Hw2); [rewrite HI; lia|].
    rewrite Hm, HI in D2.
    exists s2. split; [exact E2|]. split; [|exact Hw2].
    eapply drawn_trans; eassumption.
Qed.

Lemma op_DRW_drawn n s :
  wf_facts s -> coords x y vx vy s -> 0 <= n -> Z.land (VI s) 0xFFF + n <= 4096 ->
  exists s', op_DRW x y n s = Done s' /\
    drawn (sprite_updates vx vy (mem s) (Z.land (VI s) 0xFFF) (Z.to_nat n)) s s' /\
    wf_facts s'.
Proof.
  intros Hw Hc Hn Hin. unfold op_DRW, sprite_updates.
  pose proof (wf_V_len s Hw) as HVlen.
  rewrite assign_V_in_range by lia. cbn [bind].
  pose proof (drawn_set_flag s 0 ltac:(lia)) as D0.
  assert (wf_facts (set_V s (<[Z.to_nat 15 := 0]> (V s)))) as Hw0 by wf_solve.
  destruct (draw_rows_drawn (Z.to_nat n) 0 _ Hw0 (coords_drawn _ _ _ D0 Hc) ltac:(lia))
    as (s1 & E1 & D1 & Hw1); [cbn [VI set_V]; lia|].
  exists s1. split; [exact E1|]. split; [|exact Hw1].
  apply (drawn_trans [] _ s _ s1 D0). exact D1.
Qed.
End Draw.

Lemma ExecuteInst_DRW (s : Chip_8) (x y n : Z) :
  well_formed s = true ->
  0 <= x < 16 -> 0 <= y < 16 -> 0 <= n < 16 ->
  fetches s (0xD000 + 0x100 * x + 0x10 * y + n) ->
  ExecuteInst s = op_DRW x y n (set_PC s (PC s + 2)).
Proof.
  intros Hwf Hx Hy Hn Hf.
  destruct (PC_advance s _ Hwf Hf) as (HPC0 & HPC1 & HPC2).
  rewrite (ExecuteInst_fetch s (0xD000 + 0x100 * x + 0x10 * y + n)) by (lia || assumption).
  unfold dispatch, CLS, RET.
  destruct (Z.eqb_spec (0xD000 + 0x100 * x + 0x10 * y + n) 0xE0); [lia|].
  destruct (Z.eqb_spec (0xD000 + 0x100 * x + 0x10 * y + n) 0xEE); [lia|].
  replace ((0xD000 + 0x100 * x + 0x10 * y + n) / 4096) with 13 by euclid.
  cbv iota. rewrite HPC2. f_equal; euclid.
Qed.

(** Where the code does erase what it drew.  When neither [x] nor [y] is
    15 and the [n] sprite bytes from [VI & 0xFFF] on lie inside the memory,
    the draw Dxyn completes, and the same draw executed again, in any state
    that has the display the first draw left and the same [V[x]], [V[y]],
    index register and sprite bytes, completes and leaves the display as it
    was before the first draw. *)
Theorem DRW_twice_restores (s : Chip_8) (x y n : Z) :
  well_formed s = true ->
  0 <= x < 15 -> 0 <= y < 15 -> 0 <= n < 16 ->
  fetches s (0xD000 + 0x100 * x + 0x10 * y + n) ->
  Z.land (VI s) 0xFFF + n <= 4096 ->
  exists s1,
    ExecuteInst s = Done s1 /\
    forall s2,
      well_formed s2 = true ->
      fetches s2 (0xD000 + 0x100 * x + 0x10 * y + n) ->
      vec_at (V s2) x = vec_at (V s) x ->
      vec_at (V s2) y = vec_at (V s) y ->
      VI s2 = VI s ->
      (forall r, 0 <= r < n ->
         vec_at (mem s2) (Z.land (VI s) 0xFFF + r)
         = vec_at (mem s) (Z.land (VI s) 0xFFF + r)) ->
      pixels s2 = pixels s1 ->
      exists s3, ExecuteInst s2 = Done s3 /\ pixels s3 = pixels s.
Proof.
  intros Hwf Hx Hy Hn Hf Hin.
  destruct (wf_V_ex s x Hwf ltac:(lia)) as (vx & Hvx & _).
  destruct (wf_V_ex s y Hwf ltac:(lia)) as (vy & Hvy & _).
  pose proof Hwf as Hw%well_formed_facts.
  rewrite (ExecuteInst_DRW s x y n) by (lia || assumption).
  pose proof (PC_advance s _ Hwf Hf) as (HPC0 & HPC1 & _).
  destruct (op_DRW_drawn x y vx vy ltac:(lia) ltac:(lia) n (set_PC s (PC s + 2)))
    as (s1 & E1 & (P1 & _) & _);
    [wf_solve | split; assumption | lia | exact Hin |].
  cbn [mem VI pixels set_PC] in P1.
  exists s1. split; [exact E1|].
  intros s2 Hwf2 Hf2 Hx2 Hy2 HI2 Hrows Hp2.
  pose proof Hwf2 as Hw2%well_formed_facts.
  rewrite (ExecuteInst_DRW s2 x y n) by (lia || assumption).
  pose proof (PC_advance s2 _ Hwf2 Hf2) as (HPC2 & HPC3 & _).
  destruct (op_DRW_drawn x y vx vy ltac:(lia) ltac:(lia) n (set_PC s2 (PC s2 + 2)))
    as (s3 & E3 & (P3 & _) & _);
    [wf_solve | split; cbn [V set_PC]; congruence | lia
    | cbn [VI set_PC]; rewrite HI2; exact Hin |].
  cbn [mem VI pixels set_PC] in P3.
  exists s3. split; [exact E3|].
  rewrite P3, Hp2, P1, HI2.
  replace (sprite_updates vx vy (mem s2) (Z.land (VI s) 0xFFF) (Z.to_nat n))
    with (sprite_updates vx vy (mem s) (Z.land (VI s) 0xFFF) (Z.to_nat n)).
  - apply xor_all_twice.
  - unfold sprite_updates. apply loop_updates_ext. intros r Hr.
    unfold row_updates. rewrite Hrows by lia. reflexivity.
Qed.

Lemma DRW_twice_restores_witness :
  well_formed drw_demo = true /\
  0 <= 0 < 15 /\ 0 <= 1 < 15 /\ 0 <= 1 < 16 /\
  fetches drw_demo (0xD000 + 0x100 * 0 + 0x10 * 1 + 1) /\
  Z.land (VI drw_demo) 0xFFF + 1 <= 4096 /\
  exists s1,
    ExecuteInst drw_demo = Done s1 /\
    forall s2,
      well_formed s2 = true ->
      fetches s2 (0xD000 + 0x100 * 0 + 0x10 * 1 + 1) ->
      vec_at (V s2) 0 = vec_at (V drw_demo) 0 ->
      vec_at (V s2) 1 = vec_at (V drw_demo) 1 ->
      VI s2 = VI drw_demo ->
      (forall r, 0 <= r < 1 ->
         vec_at (mem s2) (Z.land (VI drw_demo) 0xFFF + r)
         = vec_at (mem drw_demo) (Z.land (VI drw_demo) 0xFFF + r)) ->
      pixels s2 = pixels s1 ->
      exists s3, ExecuteInst s2 = Done s3 /\ pixels s3 = pixels drw_demo.
Proof.
  assert (well_formed drw_demo = true) as Hwf by (vm_compute; reflexivity).
  assert (fetches drw_demo (0xD000 + 0x100 * 0 + 0x10 * 1 + 1)) as Hf
    by (split; vm_compute; reflexivity).
  assert (Z.land (VI drw_demo) 0xFFF + 1 <= 4096) as Hin
    by (vm_compute; discriminate).
  split; [exact Hwf|]. split; [lia|]. split; [lia|]. split; [lia|].
  split; [exact Hf|]. split; [exact Hin|].
  exact (DRW_twice_restores drw_demo 0 1 1 Hwf ltac:(lia) ltac:(lia) ltac:(lia) Hf Hin).
Defined.

(** C9, with [V[15]] as a coordinate register.  Dxyn resets [V[15]], and
    for every bit it reads [V[x]] and [V[y]] again and then sets [V[15]] when
    the pixel is on; so with [x] or [y] at 15 the sprite moves in the middle
    of a draw that meets a lit pixel.  DF01 twice on a fresh machine, with
    all registers, the index register and the memory the same at both draws:
    the first draw of the byte 0x12 turns the pixels 3 and 6 on; the second
    turns 3 off, its x coordinate goes from 0 to 1 there, and it turns 7 on
    instead of 6 off.  The pixels 6 and 7 stay on where the display was
    blank.  D0F1 twice likewise leaves the pixel 6 on and the pixel 6 of the
    next row, at 70. *)
Theorem DRW_twice_through_VF_leaves_pixels :
  well_formed drw_VF_demo = true /\ fetches drw_VF_demo 0xDF01 /\
  fetches (from_done (ExecuteInst drw_VF_demo)) 0xDF01 /\
  V (from_done (ExecuteInst drw_VF_demo)) = V drw_VF_demo /\
  VI (from_done (ExecuteInst drw_VF_demo)) = VI drw_VF_demo /\
  mem (from_done (ExecuteInst drw_VF_demo)) = mem drw_VF_demo /\
  vec_at (pixels drw_VF_demo) 6 = Done 0 /\ vec_at (pixels drw_VF_demo) 7 = Done 0 /\
  observe (fun t => (vec_at (pixels t) 3, vec_at (pixels t) 6, vec_at (pixels t) 7))
          (s1 <- ExecuteInst drw_VF_demo ;; ExecuteInst s1)
  = Done (Done 0, Done 1, Done 1) /\
  ~ DRW_twice_as_claimed drw_VF_demo 0xDF01 /\
  well_formed drw_VF_y_demo = true /\ fetches drw_VF_y_demo 0xD0F1 /\
  fetches (from_done (ExecuteInst drw_VF_y_demo)) 0xD0F1 /\
  V (from_done (ExecuteInst drw_VF_y_demo)) = V drw_VF_y_demo /\
  vec_at (pixels drw_VF_y_demo) 6 = Done 0 /\ vec_at (pixels drw_VF_y_demo) 70 = Done 0 /\
  observe (fun t => (vec_at (pixels t) 3, vec_at (pixels t) 6, vec_at (pixels t) 70))
          (s1 <- ExecuteInst drw_VF_y_demo ;; ExecuteInst s1)
  = Done (Done 0, Done 1, Done 1).
Proof.
  assert (fetches drw_VF_demo 0xDF01) as Hf by (split; vm_compute; reflexivity).
  assert (~ DRW_twice_as_claimed drw_VF_demo 0xDF01) as Hno.
  { intros Hc.
    set (s1 := from_done (ExecuteInst drw_VF_demo)).
    set (s2 := from_done (ExecuteInst s1)).
    assert (pixels s2 = pixels drw_VF_demo) as Hp.
    { apply (Hc s1 s2).
      - exact Hf.
      - vm_compute. reflexivity.
      - split; vm_compute; reflexivity.
      - vm_compute. reflexivity.
      - vm_compute. reflexivity.
      - vm_compute. reflexivity.
      - vm_compute. reflexivity. }
    assert (vec_at (pixels s2) 7 = vec_at (pixels drw_VF_demo) 7) as H7
      by (rewrite Hp; reflexivity).
    vm_compute in H7. discriminate H7. }
  split; [vm_compute; reflexivity|]. split; [exact Hf|].
  split; [split; vm_compute; reflexivity|].
  split; [vm_compute; reflexivity|]. split; [vm_compute; reflexivity|].
  split; [vm_compute; reflexivity|]. split; [vm_compute; reflexivity|].
  split; [vm_compute; reflexivity|]. split; [vm_compute; reflexivity|].
  split; [exact Hno|].
  split; [vm_compute; reflexivity|].
  split; [split; vm_compute; reflexivity|].
  split; [split; vm_compute; reflexivity|].
  split; [vm_compute; reflexivity|]. split; [vm_compute; reflexivity|].
  split; [vm_compute; reflexivity|]. vm_compute. reflexivity.
Qed.

(** ** The collision flag *)

(** C5, for a sprite without a single bit set.  No sprite bit meets a
    pixel, the display is left as it was, and [V[15]] is 1 all the same:
    the flag is set for every target pixel that is on, whatever the sprite
    bit. *)
Theorem DRW_flag_without_sprite_bit :
  well_formed drw_blank_demo = true /\ fetches drw_blank_demo 0xD001 /\
  VI drw_blank_demo = 1 /\ vec_at (mem drw_blank_demo) 1 = Done 0 /\
  vec_at (V drw_blank_demo) 0 = Done 0 /\
  vec_at (pixels drw_blank_demo) 3 = Done 1 /\
  observe (fun t => vec_at (V t) 15) (ExecuteInst drw_blank_demo) = Done (Done 1) /\
  observe pixels (ExecuteInst drw_blank_demo) = Done (pixels drw_blank_demo).
Proof. evaluate. Qed.

(** *** What the flag is after a draw *)

Lemma mask_not_in us t : ~ In t (map fst us) -> mask us t = 0.
Proof.
  induction us as [|u us IH]; intros Hn; cbn [mask]; [reflexivity|].
  cbn [map In] in Hn. destruct (Nat.eqb_spec (fst u) t) as [E|_].
  - exfalso. apply Hn. left. exact E.
  - apply IH. intros Hin. apply Hn. right. exact Hin.
Qed.

Lemma on_xor_all_not_in us p t :
  ~ In t (map fst us) -> on (xor_all us p) t = on p t.
Proof.
  intros Hn. unfold on. rewrite xor_all_lookup, (mask_not_in us t Hn).
  destruct (p !! t); cbn; [rewrite Z.lxor_0_r|]; reflexivity.
Qed.

Lemma any_on_app p us vs : any_on p (us ++ vs) = any_on p us || any_on p vs.
Proof. unfold any_on. apply existsb_app. Qed.

Lemma any_on_xor_all_disjoint us vs p :
  (forall t, In t (map fst vs) -> ~ In t (map fst us)) ->
  any_on (xor_all us p) vs = any_on p vs.
Proof.
  intros Hd. unfold any_on. induction vs as [|v vs IH]; [reflexivity|].
  cbn [existsb]. rewrite on_xor_all_not_in by (apply Hd; left; reflexivity).
  rewrite IH; [reflexivity|]. intros t Ht. apply Hd. right. exact Ht.
Qed.

Lemma in_loop_updates (f : Z -> list (nat * Z)) (k : nat) (i : Z) (t : nat) :
  In t (map fst (loop_updates k i f)) ->
  exists j, i <= j < i + Z.of_nat k /\ In t (map fst (f j)).
Proof.
  revert i. induction k as [|k IH]; intros i Hin; cbn [loop_updates] in Hin.
  - destruct Hin.
  - rewrite map_app in Hin. apply in_app_or in Hin as [Hin|Hin].
    + exists i. split; [lia | exact Hin].
    + destruct (IH (i + 1) Hin) as (j & Hj & Ht). exists j. split; [lia | exact Ht].
Qed.

(** A loop whose rounds aim at different pixels: the flag ends at 1 exactly
    when it was 1 or one of the pixels aimed at was on before the loop. *)
Lemma for_loop_flag (body : Z -> Chip_8 -> outcome Chip_8)
    (f : Z -> list (nat * Z)) (inv : Chip_8 -> Prop) (hi : Z) :
  (forall j s s' v,
     0 <= j < hi -> inv s -> vec_at (V s) 15 = Done v -> body j s = Done s' ->
     inv s' /\ drawn (f j) s s' /\
     vec_at (V s') 15 = Done (if any_on (pixels s) (f j) then 1 else v)) ->
  (forall j j' t,
     0 <= j < j' -> j' < hi -> In t (map fst (f j')) -> ~ In t (map fst (f j))) ->
  forall (k : nat) (i : Z) s s' v,
    0 <= i -> i + Z.of_nat k <= hi ->
    inv s -> vec_at (V s) 15 = Done v -> for_loop k i body s = Done s' ->
    inv s' /\ drawn (loop_updates k i f) s s' /\
    vec_at (V s') 15 = Done (if any_on (pixels s) (loop_updates k i f) then 1 else v).
Proof.
  intros Hstep Hdisj k. induction k as [|k IH]; intros i s s' v Hi Hk Hinv Hv H;
    cbn [for_loop loop_updates] in *.
  - injection H as <-. split; [exact Hinv|]. split; [repeat split | exact Hv].
  - run H. rename a into s1.
    destruct (Hstep i s s1 v ltac:(lia) Hinv Hv E) as (Hinv1 & D1 & Hv1).
    destruct (IH (i + 1) s1 s' _ ltac:(lia) ltac:(lia) Hinv1 Hv1 H) as (Hinv' & D' & Hv').
    split; [exact Hinv'|]. split; [eapply drawn_trans; eassumption|].
    rewrite Hv'. f_equal. rewrite any_on_app.
    destruct D1 as (-> & _).
    rewrite any_on_xor_all_disjoint.
    + destruct (any_on (pixels s) (loop_updates k (i + 1) f));
        destruct (any_on (pixels s) (f i)); reflexivity.
    + intros t Ht. apply in_loop_updates in Ht as (j & Hj & Ht).
      apply (Hdisj i j t); assumption || lia.
Qed.

Lemma uint8_t_mod (z m : Z) : 0 < m <= 256 -> uint8_t (z mod m) = z mod m.
Proof.
  intros Hm. unfold uint8_t. apply Z.mod_small.
  pose proof (Z.mod_pos_bound z m). lia.
Qed.

Lemma target_eq vx vy row bit :
  target vx vy row bit = Z.to_nat (64 * ((row + vy) mod 32) + (bit + vx) mod 64).
Proof. unfold target, W, H. rewrite !uint8_t_mod by lia. reflexivity. Qed.

Lemma mod32_inj (a b c : Z) :
  0 <= a < 32 -> 0 <= b < 32 -> (a + c) mod 32 = (b + c) mod 32 -> a = b.
Proof. intros Ha Hb E. euclid. Qed.

Lemma mod64_inj (a b c : Z) :
  0 <= a < 64 -> 0 <= b < 64 -> (a + c) mod 64 = (b + c) mod 64 -> a = b.
Proof. intros Ha Hb E. euclid. Qed.

(** Within 32 lines and 64 bits no two sprite bits aim at one pixel. *)
Lemma target_inj vx vy row bit row' bit' :
  0 <= row < 32 -> 0 <= row' < 32 -> 0 <= bit < 64 -> 0 <= bit' < 64 ->
  target vx vy row bit = target vx vy row' bit' -> row = row' /\ bit = bit'.
Proof.
  intros Hr Hr' Hb Hb' E. rewrite !target_eq in E.
  pose proof (Z.mod_pos_bound (row + vy) 32 ltac:(lia)).
  pose proof (Z.mod_pos_bound (row' + vy) 32 ltac:(lia)).
  pose proof (Z.mod_pos_bound (bit + vx) 64 ltac:(lia)).
  pose proof (Z.mod_pos_bound (bit' + vx) 64 ltac:(lia)).
  apply Z2Nat.inj in E; [|lia|lia].
  assert ((row + vy) mod 32 = (row' + vy) mod 32 /\ (bit + vx) mod 64 = (bit' + vx) mod 64)
    as [E1 E2] by lia.
  split; [exact (mod32_inj row row' vy Hr Hr' E1) | exact (mod64_inj bit bit' vx Hb Hb' E2)].
Qed.

(** Bits of one line never meet, whatever the line. *)
Lemma target_inj_bit vx vy row bit bit' :
  0 <= bit < 64 -> 0 <= bit' < 64 ->
  target vx vy row bit = target vx vy row bit' -> bit = bit'.
Proof.
  intros Hb Hb' E. rewrite !target_eq in E.
  pose proof (Z.mod_pos_bound (row + vy) 32 ltac:(lia)).
  pose proof (Z.mod_pos_bound (bit + vx) 64 ltac:(lia)).
  pose proof (Z.mod_pos_bound (bit' + vx) 64 ltac:(lia)).
  apply Z2Nat.inj in E; [|lia|lia].
  apply (mod64_inj bit bit' vx Hb Hb'). lia.
Qed.

Lemma in_bits vx vy line row t :
  In t (map fst (loop_updates 8 0 (fun bit => [bit_update vx vy line row bit]))) ->
  exists bit, 0 <= bit < 8 /\ t = target vx vy row bit.
Proof.
  intros Hin. apply in_loop_updates in Hin as (bit & Hb & Hin).
  cbn [map In fst bit_update] in Hin. destruct Hin as [<-|[]].
  exists bit. split; [lia | reflexivity].
Qed.

Lemma in_row vx vy m base row t :
  In t (map fst (row_updates vx vy m base row)) ->
  exists bit, 0 <= bit < 8 /\ t = target vx vy row bit.
Proof.
  unfold row_updates. destruct (vec_at m (base + row)); [apply in_bits | intros [] ..].
Qed.

Section DrawFlag.
Variables (x y vx vy : Z).
Hypothesis (Hx : x <> 15) (Hy : y <> 15).

Lemma draw_bits_flag line row s s' v :
  0 <= row ->
  wf_facts s /\ coords x y vx vy s -> vec_at (V s) 15 = Done v ->
  for_loop 8 0 (draw_bit x y line row) s = Done s' ->
  (wf_facts s' /\ coords x y vx vy s') /\
  drawn (loop_updates 8 0 (fun bit => [bit_update vx vy line row bit])) s s' /\
  vec_at (V s') 15
  = Done (if any_on (pixels s) (loop_updates 8 0 (fun bit => [bit_update vx vy line row bit]))
          then 1 else v).
Proof.
  intros Hrow Hinv Hv H.
  refine (for_loop_flag (draw_bit x y line row)
            (fun bit => [bit_update vx vy line row bit])
            (fun t => wf_facts t /\ coords x y vx vy t) 8 _ _ 8%nat 0 s s' v
            _ _ Hinv Hv H); try lia.
  - intros j t t' w Hj [Hw Hc] Hw15 Hb.
    destruct (draw_bit_drawn x y vx vy line row j t Hw Hc Hrow ltac:(lia))
      as (t1 & E1 & D1 & F1).
    rewrite E1 in Hb. injection Hb as <-.
    split; [split|split].
    + eapply draw_bit_wf; eassumption.
    + eapply coords_drawn; eassumption.
    + exact D1.
    + apply F1, Hw15.
  - intros j j' t Hj Hj' Hin Hin'.
    cbn [map In fst bit_update] in Hin, Hin'.
    destruct Hin as [<-|[]]. destruct Hin' as [E|[]].
    change (target vx vy row j = target vx vy row j') in E.
    apply target_inj_bit in E; lia.
Qed.

(** A draw of [n] lines, up to 16, sets the flag exactly when one of the
    [8 * n] pixels it aims at was on before. *)
Lemma op_DRW_flag n s s' :
  wf_facts s -> coords x y vx vy s -> 0 <= n <= 16 ->
  op_DRW x y n s = Done s' ->
  vec_at (V s') 15
  = Done (if any_on (pixels s)
               (sprite_updates vx vy (mem s) (Z.land (VI s) 0xFFF) (Z.to_nat n))
          then 1 else 0).
Proof.
  intros Hw Hc Hn H. unfold op_DRW in H. run H. rename a into s0.
  pose proof (wf_V_len s Hw) as HVlen.
  rewrite assign_V_in_range in E by lia. injection E as <-.
  pose proof (drawn_set_flag s 0 ltac:(lia)) as D0.
  assert (wf_facts (set_V s (<[Z.to_nat 15 := 0]> (V s)))) as Hw0 by wf_solve.
  set (s0 := set_V s (<[Z.to_nat 15 := 0]> (V s))) in *.
  set (inv := fun t => (wf_facts t /\ coords x y vx vy t)
                       /\ mem t = mem s /\ VI t = VI s).
  assert (inv s0) as Hinv0.
  { split; [split; [exact Hw0 | eapply coords_drawn; eassumption]|].
    split; reflexivity. }
  assert (vec_at (V s0) 15 = Done 0) as Hv0
    by (unfold s0; cbn [V set_V]; apply vec_at_insert_eq; lia).
  unfold sprite_updates.
  refine (proj2 (proj2 (for_loop_flag (draw_row x y)
            (row_updates vx vy (mem s) (Z.land (VI s) 0xFFF)) inv 16 _ _
            (Z.to_nat n) 0 s0 s' 0 _ _ Hinv0 Hv0 H))); try lia.
  - intros j t t' w Hj [[Hwt Hct] [Hm HI]] Hw15 Hr.
    unfold draw_row in Hr. run Hr. rename a into line.
    unfold row_updates. rewrite <- Hm, <- HI, E.
    destruct (draw_bits_flag line j t t' w ltac:(lia) (conj Hwt Hct) Hw15 Hr)
      as (Hinv' & D' & F').
    split; [|split; assumption].
    split; [exact Hinv'|]. destruct D' as (_ & Hm' & HI' & _). split; congruence.
  - intros j j' t Hj Hj' Hin Hin'.
    apply in_row in Hin as (b & Hb & ->). apply in_row in Hin' as (b' & Hb' & E).
    apply target_inj in E; lia.
Qed.
End DrawFlag.

Lemma loop_updates_in (f : Z -> list (nat * Z)) (k : nat) (i j : Z) (t : nat) :
  i <= j < i + Z.of_nat k -> In t (map fst (f j)) ->
  In t (map fst (loop_updates k i f)).
Proof.
  revert i. induction k as [|k IH]; intros i Hj Hin; [lia|].
  cbn [loop_updates]. rewrite map_app. apply in_or_app.
  destruct (Z.eq_dec i j) as [->|Hne]; [left; exact Hin|].
  right. apply IH; [lia | exact Hin].
Qed.

Lemma on_target (p : list Z) (vx vy row bit : Z) :
  on p (target vx vy row bit) = true <->
  vec_at p (W * ((row + vy) mod H) + (bit + vx) mod W) = Done 1.
Proof.
  rewrite target_eq. unfold on, W, H.
  pose proof (Z.mod_pos_bound (row + vy) 32 ltac:(lia)).
  pose proof (Z.mod_pos_bound (bit + vx) 64 ltac:(lia)).
  rewrite vec_at_Done.
  destruct (p !! Z.to_nat (64 * ((row + vy) mod 32) + (bit + vx) mod 64)) as [v|].
  - rewrite Z.eqb_eq. split; [intros ->; split; [lia | reflexivity]|].
    intros [_ E]. injection E as ->. reflexivity.
  - split; [discriminate | intros [_ E]; discriminate].
Qed.

(** The pixels a sprite aims at, line by line and bit by bit. *)
Lemma any_on_sprite (p : list Z) (vx vy : Z) (m : list Z) (base n : Z) :
  (forall r, 0 <= r < n -> exists line, vec_at m (base + r) = Done line) ->
  any_on p (sprite_updates vx vy m base (Z.to_nat n)) = true <->
  exists r b, 0 <= r < n /\ 0 <= b < 8 /\ on p (target vx vy r b) = true.
Proof.
  intros Hrows. unfold any_on. rewrite existsb_exists. split.
  - intros (u & Hin & Hon).
    assert (In (fst u) (map fst (sprite_updates vx vy m base (Z.to_nat n)))) as Ht
      by (apply in_map; exact Hin).
    unfold sprite_updates in Ht. apply in_loop_updates in Ht as (r & Hr & Ht).
    apply in_row in Ht as (b & Hb & E). rewrite E in Hon.
    exists r, b. split; [lia|]. split; assumption.
  - intros (r & b & Hr & Hb & Hon).
    assert (In (target vx vy r b) (map fst (sprite_updates vx vy m base (Z.to_nat n))))
      as Ht.
    { unfold sprite_updates. apply (loop_updates_in _ _ 0 r); [lia|].
      unfold row_updates. destruct (Hrows r Hr) as [line ->].
      apply (loop_updates_in _ _ 0 b); [lia|]. left. reflexivity. }
    apply in_map_iff in Ht as (u & E & Hin). exists u. split; [exact Hin|].
    rewrite E. exact Hon.
Qed.

(** What the code makes of the flag.  When neither coordinate register is
    [V[15]] and the sprite lies inside the memory, Dxyn leaves 1 in [V[15]]
    exactly when one of the pixels of the [8 x n] rectangle at the wrapped
    position of the sprite was on before the draw, and 0 otherwise; the
    sprite bits play no part. *)
Lemma DRW_flag_is_any_lit_target (s : Chip_8) (x y n : Z) :
  well_formed s = true ->
  0 <= x < 15 -> 0 <= y < 15 -> 0 <= n < 16 ->
  fetches s (0xD000 + 0x100 * x + 0x10 * y + n) ->
  Z.land (VI s) 0xFFF + n <= 4096 ->
  exists vx vy s',
    vec_at (V s) x = Done vx /\ vec_at (V s) y = Done vy /\
    ExecuteInst s = Done s' /\
    (vec_at (V s') 15 = Done 1 \/ vec_at (V s') 15 = Done 0) /\
    (vec_at (V s') 15 = Done 1 <->
     exists r b, 0 <= r < n /\ 0 <= b < 8 /\
       vec_at (pixels s) (W * ((r + vy) mod H) + (b + vx) mod W) = Done 1).
Proof.
  intros Hwf Hx Hy Hn Hf Hin.
  destruct (wf_V_ex s x Hwf ltac:(lia)) as (vx & Hvx & _).
  destruct (wf_V_ex s y Hwf ltac:(lia)) as (vy & Hvy & _).
  pose proof Hwf as Hw%well_formed_facts.
  pose proof (PC_advance s _ Hwf Hf) as (HPC0 & HPC1 & _).
  assert (wf_facts (set_PC s (PC s + 2))) as Hw' by wf_solve.
  assert (coords x y vx vy (set_PC s (PC s + 2))) as Hc by (split; assumption).
  assert (0 <= Z.land (VI s) 0xFFF) as Hbase.
  { change 0xFFF with (Z.ones 12). rewrite Z.land_ones by lia. euclid. }
  destruct (op_DRW_drawn x y vx vy ltac:(lia) ltac:(lia) n _ Hw' Hc ltac:(lia) Hin)
    as (s' & E & _ & _).
  pose proof (op_DRW_flag x y vx vy ltac:(lia) ltac:(lia) n _ s' Hw' Hc ltac:(lia) E) as F.
  cbn [mem VI pixels set_PC] in F.
  exists vx, vy, s'. split; [exact Hvx|]. split; [exact Hvy|].
  split; [rewrite (ExecuteInst_DRW s x y n) by (lia || assumption); exact E|].
  pose proof (any_on_sprite (pixels s) vx vy (mem s) (Z.land (VI s) 0xFFF) n) as Hany.
  destruct Hany as [Hany1 Hany2].
  { intros r Hr. apply vec_at_in_range. rewrite (wf_mem_len s Hw). lia. }
  rewrite F.
  destruct (any_on (pixels s) _) eqn:Ha.
  - split; [left; reflexivity|]. split; [intros _|reflexivity].
    destruct (Hany1 eq_refl) as (r & b & Hr & Hb & Hon).
    exists r, b. split; [exact Hr|]. split; [exact Hb|]. apply on_target, Hon.
  - split; [right; reflexivity|]. split; [discriminate|].
    intros (r & b & Hr & Hb & Hon). exfalso.
    assert (false = true) as Hft; [|discriminate Hft].
    apply Hany2. exists r, b. split; [exact Hr|]. split; [exact Hb|].
    apply on_target, Hon.
Qed.

(** * Further properties of the code *)

(** ** The fields an instruction writes *)

Lemma only_changes_refl fs s : only_changes fs s s.
Proof. intros f _. destruct f; reflexivity. Qed.

Lemma only_changes_trans fs s t u :
  only_changes fs s t -> only_changes fs t u -> only_changes fs s u.
Proof.
  intros H1 H2 f Hf. specialize (H1 f Hf). specialize (H2 f Hf).
  destruct f; cbn [same_field] in *; congruence.
Qed.

Lemma only_changes_weaken fs gs s t :
  only_changes fs s t -> (forall f, In f fs -> In f gs) -> only_changes gs s t.
Proof. intros H Hi f Hf. apply H. intros Hin. apply Hf, Hi, Hin. Qed.

Lemma for_loop_footprint fs (body : Z -> Chip_8 -> outcome Chip_8) :
  (forall i t t', body i t = Done t' -> only_changes fs t t') ->
  forall n i s s', for_loop n i body s = Done s' -> only_changes fs s s'.
Proof.
  intros Hbody n i s s' H.
  eapply (for_loop_inv (fun t => only_changes fs s t)); [|apply only_changes_refl|exact H].
  cbv beta. intros j t t' Ht Hb. eapply only_changes_trans; [exact Ht|]. eapply Hbody, Hb.
Qed.

Ltac footprint :=
  let f := fresh "f" in
  let Hf := fresh "Hf" in
  intros f Hf; destruct f; cbn [same_field]; fields;
  first [reflexivity | exfalso; apply Hf; cbn [In]; tauto].

Ltac op_footprint op :=
  let Hrun := fresh "Hrun" in
  intros Hrun; unfold op in Hrun; try unfold skip_if in Hrun;
  run Hrun; explicit; fields;
  try match goal with |- only_changes _ _ (if ?b then _ else _) => destruct b end;
  footprint.

Ltac incl_solve := let f := fresh "f" in intros f; cbn; tauto.

Lemma op_CLS_footprint s s' : op_CLS s = Done s' -> only_changes [f_pixels] s s'.
Proof. op_footprint op_CLS. Qed.

Lemma op_RET_footprint s s' : op_RET s = Done s' -> only_changes [f_SP; f_PC] s s'.
Proof. op_footprint op_RET. Qed.

Lemma op_JP_footprint nnn s s' : op_JP nnn s = Done s' -> only_changes [f_PC] s s'.
Proof. op_footprint op_JP. Qed.

Lemma op_CALL_footprint nnn s s' :
  op_CALL nnn s = Done s' -> only_changes [f_callstack; f_SP; f_PC] s s'.
Proof. op_footprint op_CALL. Qed.

Lemma op_SE_kk_footprint x kk s s' : op_SE_kk x kk s = Done s' -> only_changes [f_PC] s s'.
Proof. op_footprint op_SE_kk. Qed.

Lemma op_SNE_kk_footprint x kk s s' : op_SNE_kk x kk s = Done s' -> only_changes [f_PC] s s'.
Proof. op_footprint op_SNE_kk. Qed.

Lemma op_SE_footprint x y s s' : op_SE x y s = Done s' -> only_changes [f_PC] s s'.
Proof. op_footprint op_SE. Qed.

Lemma op_SNE_footprint x y s s' : op_SNE x y s = Done s' -> only_changes [f_PC] s s'.
Proof. op_footprint op_SNE. Qed.

Lemma op_LD_kk_footprint x kk s s' : op_LD_kk x kk s = Done s' -> only_changes [f_V] s s'.
Proof. op_footprint op_LD_kk. Qed.

Lemma op_ADD_kk_footprint x kk s s' : op_ADD_kk x kk s = Done s' -> only_changes [f_V] s s'.
Proof. op_footprint op_ADD_kk. Qed.

Lemma op_LD_footprint x y s s' : op_LD x y s = Done s' -> only_changes [f_V] s s'.
Proof. op_footprint op_LD. Qed.

Lemma op_bitwise_footprint f x y s s' :
  op_bitwise f x y s = Done s' -> only_changes [f_V] s s'.
Proof. op_footprint op_bitwise. Qed.

Lemma op_ADD_footprint x y s s' : op_ADD x y s = Done s' -> only_changes [f_V] s s'.
Proof. op_footprint op_ADD. Qed.

Lemma op_SUB_footprint x y s s' : op_SUB x y s = Done s' -> only_changes [f_V] s s'.
Proof. op_footprint op_SUB. Qed.

Lemma op_SHR_footprint x s s' : op_SHR x s = Done s' -> only_changes [f_V] s s'.
Proof. op_footprint op_SHR. Qed.

Lemma op_SUBN_footprint x y s s' : op_SUBN x y s = Done s' -> only_changes [f_V] s s'.
Proof. op_footprint op_SUBN. Qed.

Lemma op_SHL_footprint x s s' : op_SHL x s = Done s' -> only_changes [f_V] s s'.
Proof. op_footprint op_SHL. Qed.

Lemma op_LD_I_footprint nnn s s' : op_LD_I nnn s = Done s' -> only_changes [f_VI] s s'.
Proof. op_footprint op_LD_I. Qed.

Lemma op_JP_V0_footprint nnn s s' : op_JP_V0 nnn s = Done s' -> only_changes [f_PC] s s'.
Proof. op_footprint op_JP_V0. Qed.

Lemma op_RND_footprint x kk s s' :
  op_RND x kk s = Done s' -> only_changes [f_V; f_randGen] s s'.
Proof. op_footprint op_RND. Qed.

Lemma draw_bit_footprint x y line row bit s s' :
  draw_bit x y line row bit s = Done s' -> only_changes [f_V; f_pixels] s s'.
Proof. op_footprint draw_bit. Qed.

Lemma op_DRW_footprint x y n s s' :
  op_DRW x y n s = Done s' -> only_changes [f_V; f_pixels] s s'.
Proof.
  intros H. unfold op_DRW in H. run H.
  apply (only_changes_trans _ s a s').
  - explicit. footprint.
  - eapply for_loop_footprint; [|exact H].
    intros i t t' Hr. unfold draw_row in Hr. run Hr.
    eapply for_loop_footprint; [|exact Hr].
    intros j r r'. apply draw_bit_footprint.
Qed.

Lemma op_SKP_footprint x s s' : op_SKP x s = Done s' -> only_changes [f_PC] s s'.
Proof. op_footprint op_SKP. Qed.

Lemma op_LD_K_footprint x s s' : op_LD_K x s = Done s' -> only_changes [f_V; f_PC] s s'.
Proof. op_footprint op_LD_K. Qed.

Lemma op_BCD_footprint x s s' : op_BCD x s = Done s' -> only_changes [f_mem] s s'.
Proof. op_footprint op_BCD. Qed.

Lemma op_LD_I_V_footprint x s s' : op_LD_I_V x s = Done s' -> only_changes [f_mem] s s'.
Proof.
  intros H. unfold op_LD_I_V in H. eapply for_loop_footprint; [|exact H].
  cbv beta. intros i t t' Hb. run Hb. explicit. footprint.
Qed.

Lemma op_LD_V_I_footprint x s s' : op_LD_V_I x s = Done s' -> only_changes [f_V] s s'.
Proof.
  intros H. unfold op_LD_V_I in H. eapply for_loop_footprint; [|exact H].
  cbv beta. intros i t t' Hb. run Hb. explicit. footprint.
Qed.

Lemma op_8_footprint x y v s s' : op_8 x y v s = Done s' -> only_changes [f_V] s s'.
Proof.
  intros H. unfold op_8 in H.
  switch_in H v; try discriminate H;
    first [ eapply op_LD_footprint; eassumption | eapply op_bitwise_footprint; eassumption
          | eapply op_ADD_footprint; eassumption | eapply op_SUB_footprint; eassumption
          | eapply op_SHR_footprint; eassumption | eapply op_SUBN_footprint; eassumption
          | eapply op_SHL_footprint; eassumption ].
Qed.

Lemma op_F_footprint x s s' b :
  vec_at (mem s) (PC s + 1 - 2) = Done b -> op_F x s = Done s' ->
  only_changes (f_PC :: writes_F b) s s'.
Proof.
  intros Hb H. unfold op_F in H. rewrite Hb in H. cbn [bind] in H. unfold writes_F.
  switch_in H b; try discriminate H;
    first
      [ eapply only_changes_weaken;
        [ first [ eapply op_LD_K_footprint; eassumption
                | eapply op_BCD_footprint; eassumption
                | eapply op_LD_I_V_footprint; eassumption
                | eapply op_LD_V_I_footprint; eassumption ]
        | incl_solve ]
      | run H; explicit; fields; footprint ].
Qed.

Lemma dispatch_footprint opcode nnn n x y kk u v s s' b :
  vec_at (mem s) (PC s + 1 - 2) = Done b ->
  dispatch opcode nnn n x y kk u v s = Done s' ->
  only_changes (f_PC :: writes_of opcode u b) s s'.
Proof.
  intros Hb H. unfold dispatch in H. unfold writes_of.
  destruct (opcode =? CLS);
    [eapply only_changes_weaken; [eapply op_CLS_footprint; eassumption | incl_solve]|].
  destruct (opcode =? RET);
    [eapply only_changes_weaken; [eapply op_RET_footprint; eassumption | incl_solve]|].
  switch_in H u; try discriminate H;
    first
      [ eapply only_changes_weaken;
        [ first [ eapply op_JP_footprint; eassumption | eapply op_CALL_footprint; eassumption
                | eapply op_SE_kk_footprint; eassumption
                | eapply op_SNE_kk_footprint; eassumption
                | eapply op_SE_footprint; eassumption | eapply op_LD_kk_footprint; eassumption
                | eapply op_ADD_kk_footprint; eassumption | eapply op_8_footprint; eassumption
                | eapply op_SNE_footprint; eassumption | eapply op_LD_I_footprint; eassumption
                | eapply op_JP_V0_footprint; eassumption | eapply op_RND_footprint; eassumption
                | eapply op_DRW_footprint; eassumption | eapply op_SKP_footprint; eassumption ]
        | incl_solve ]
      | exact (op_F_footprint x s s' b Hb H) ].
Qed.

Lemma ExecuteInst_footprint s s' op :
  well_formed s = true -> 0 <= op < 65536 -> fetches s op ->
  ExecuteInst s = Done s' -> only_changes (f_PC :: writes op) s s'.
Proof.
  intros Hwf Hop Hf H.
  destruct (PC_advance s _ Hwf Hf) as (HPC0 & HPC1 & HPC2).
  rewrite (ExecuteInst_fetch s op Hop Hf) in H. rewrite HPC2 in H.
  assert (vec_at (mem (set_PC s (PC s + 2))) (PC (set_PC s (PC s + 2)) + 1 - 2)
          = Done (op mod 256)) as Hb.
  { cbn [mem PC set_PC]. replace (PC s + 2 + 1 - 2) with (PC s + 1) by lia. apply Hf. }
  pose proof (dispatch_footprint _ _ _ _ _ _ _ _ _ _ _ Hb H) as Hd.
  intros f Hnf. specialize (Hd f Hnf).
  destruct f; cbn [same_field] in *; fields;
    first [assumption | exfalso; apply Hnf; left; reflexivity].
Qed.

Lemma writes_of_spec opcode u b f :
  In f (writes_of opcode u b) ->
  match f with
  | f_pixels => opcode = CLS \/ u = 13
  | f_mem => u = 15 /\ (b = 0x33 \/ b = 0x55)
  | f_callstack => u = 2
  | f_SP => opcode = RET \/ u = 2
  | f_keys | f_randomSeed | f_PC => False
  | _ => True
  end.
Proof.
  unfold writes_of, writes_F.
  destruct (Z.eqb_spec opcode CLS); [intros [<-|[]]; auto|].
  destruct (Z.eqb_spec opcode RET); [intros [<-|[]]; auto|].
  intros Hin.
  repeat match type of Hin with
    | context [match ?q with xI _ => _ | xO _ => _ | xH => _ end] => is_var q; destruct q
    | context [match ?z with Z0 => _ | Zpos _ => _ | Zneg _ => _ end] => is_var z; destruct z
    end;
    cbn in Hin; repeat (destruct Hin as [<-|Hin]); try contradiction; cbn; auto.
Qed.

(** X1.  Whatever instruction [ExecuteInst] completes, it leaves the 16 key
    states and the source of random numbers as they were.  It leaves the
    memory as it was unless the instruction is Fx33 or Fx55, the display
    unless it is 00E0 or Dxyn, the call stack unless it is 2nnn, and the
    stack pointer unless it is 2nnn or 00EE. *)
Theorem ExecuteInst_leaves_alone (s s' : Chip_8) (op : Z) :
  well_formed s = true -> 0 <= op < 65536 -> fetches s op ->
  ExecuteInst s = Done s' ->
  keys s' = keys s /\ randomSeed s' = randomSeed s /\
  (~ (op / 4096 = 15 /\ (op mod 256 = 0x33 \/ op mod 256 = 0x55)) -> mem s' = mem s) /\
  (op <> 0x00E0 -> op / 4096 <> 13 -> pixels s' = pixels s) /\
  (op / 4096 <> 2 -> callstack s' = callstack s) /\
  (op <> 0x00EE -> op / 4096 <> 2 -> SP s' = SP s).
Proof.
  intros Hwf Hop Hf H.
  pose proof (ExecuteInst_footprint s s' op Hwf Hop Hf H) as Hfp.
  split; [|split; [|split; [|split; [|split]]]].
  - apply (Hfp f_keys). intros [Hd|Hin]; [discriminate|].
    apply writes_of_spec in Hin. exact Hin.
  - apply (Hfp f_randomSeed). intros [Hd|Hin]; [discriminate|].
    apply writes_of_spec in Hin. exact Hin.
  - intros Hno. apply (Hfp f_mem). intros [Hd|Hin]; [discriminate|].
    apply writes_of_spec in Hin. apply Hno, Hin.
  - intros Hc Hd. apply (Hfp f_pixels). intros [Hd'|Hin]; [discriminate|].
    apply writes_of_spec in Hin. unfold CLS in Hin. tauto.
  - intros Hc. apply (Hfp f_callstack). intros [Hd'|Hin]; [discriminate|].
    apply writes_of_spec in Hin. tauto.
  - intros Hr Hc. apply (Hfp f_SP). intros [Hd'|Hin]; [discriminate|].
    apply writes_of_spec in Hin. unfold RET in Hin. tauto.
Qed.

Lemma ExecuteInst_leaves_alone_witness :
  well_formed bcd_demo = true /\ 0 <= 0xF133 < 65536 /\ fetches bcd_demo 0xF133 /\
  ExecuteInst bcd_demo = Done bcd_demo_after /\
  keys bcd_demo_after = keys bcd_demo /\
  randomSeed bcd_demo_after = randomSeed bcd_demo /\
  (~ (0xF133 / 4096 = 15 /\ (0xF133 mod 256 = 0x33 \/ 0xF133 mod 256 = 0x55)) ->
   mem bcd_demo_after = mem bcd_demo) /\
  (0xF133 <> 0x00E0 -> 0xF133 / 4096 <> 13 -> pixels bcd_demo_after = pixels bcd_demo) /\
  (0xF133 / 4096 <> 2 -> callstack bcd_demo_after = callstack bcd_demo) /\
  (0xF133 <> 0x00EE -> 0xF133 / 4096 <> 2 -> SP bcd_demo_after = SP bcd_demo).
Proof.
  assert (well_formed bcd_demo = true) as Hwf by (vm_compute; reflexivity).
  assert (fetches bcd_demo 0xF133) as Hf by (split; vm_compute; reflexivity).
  assert (ExecuteInst bcd_demo = Done bcd_demo_after) as He by (vm_compute; reflexivity).
  split; [exact Hwf|]. split; [lia|]. split; [exact Hf|]. split; [exact He|].
  exact (ExecuteInst_leaves_alone bcd_demo bcd_demo_after 0xF133 Hwf ltac:(lia) Hf He).
Defined.

(** X3.  Besides [PC], an instruction that completes changes only the
    fields that [writes] lists for its opcode: the display for 00E0; the
    stack pointer for 00EE; the call stack and the stack pointer for 2nnn;
    the registers for 6xkk, 7xkk, 8xyN, Fx07, Fx0A and Fx65; the registers
    and the position in the random sequence for Cxkk; the registers and the
    display for Dxyn; the index register for Annn, Fx1E and Fx29; a timer for
    Fx15 and Fx18; the memory for Fx33 and Fx55; and nothing for the jumps
    and skips. *)
Theorem ExecuteInst_writes_only (s s' : Chip_8) (op : Z) :
  well_formed s = true -> 0 <= op < 65536 -> fetches s op ->
  ExecuteInst s = Done s' ->
  only_changes (f_PC :: writes op) s s'.
Proof. apply ExecuteInst_footprint. Qed.

Lemma ExecuteInst_writes_only_witness :
  well_formed bcd_demo = true /\ 0 <= 0xF133 < 65536 /\ fetches bcd_demo 0xF133 /\
  ExecuteInst bcd_demo = Done bcd_demo_after /\
  only_changes (f_PC :: writes 0xF133) bcd_demo bcd_demo_after.
Proof.
  assert (well_formed bcd_demo = true) as Hwf by (vm_compute; reflexivity).
  assert (fetches bcd_demo 0xF133) as Hf by (split; vm_compute; reflexivity).
  assert (ExecuteInst bcd_demo = Done bcd_demo_after) as He by (vm_compute; reflexivity).
  split; [exact Hwf|]. split; [lia|]. split; [exact Hf|]. split; [exact He|].
  exact (ExecuteInst_writes_only bcd_demo bcd_demo_after 0xF133 Hwf ltac:(lia) Hf He).
Defined.

(** ** The display holds bits *)

Lemma is_bit_spec (p : Z) : (p =? 0) || (p =? 1) = true <-> p = 0 \/ p = 1.
Proof. rewrite orb_true_iff, !Z.eqb_eq. tauto. Qed.

Lemma draw_bit_binary x y line row bit s s' :
  binary_display s = true -> draw_bit x y line row bit s = Done s' ->
  binary_display s' = true.
Proof.
  intros Hb H. unfold draw_bit in H. run H.
  assert (pixels a2 = pixels s) as Hp by (explicit; reflexivity).
  rewrite Hp in *.
  explicit; unfold binary_display in *; fields;
    (apply forallb_insert; [exact Hb|]);
    match goal with E : vec_at (pixels s) _ = Done ?p |- context [Z.lxor ?p _] =>
      pose proof (forallb_vec_at _ _ _ _ Hb E) as Hbit end;
    apply is_bit_spec in Hbit;
    destruct (draw_bit_is_bit line bit) as [-> | ->]; destruct Hbit as [-> | ->];
    reflexivity.
Qed.

Lemma op_DRW_binary x y n s s' :
  binary_display s = true -> op_DRW x y n s = Done s' -> binary_display s' = true.
Proof.
  intros Hb H. unfold op_DRW in H. run H.
  eapply (for_loop_inv (fun t => binary_display t = true)); [| |exact H].
  - intros i t t' Ht Hr. unfold draw_row in Hr. run Hr.
    eapply (for_loop_inv (fun t => binary_display t = true)); [|exact Ht|exact Hr].
    intros j r r'. apply draw_bit_binary.
  - explicit. exact Hb.
Qed.

Lemma dispatch_binary opcode nnn n x y kk u v s s' b :
  vec_at (mem s) (PC s + 1 - 2) = Done b -> binary_display s = true ->
  dispatch opcode nnn n x y kk u v s = Done s' -> binary_display s' = true.
Proof.
  intros Hb Hbin H.
  pose proof (dispatch_footprint _ _ _ _ _ _ _ _ _ _ _ Hb H) as Hfp.
  unfold dispatch in H.
  destruct (Z.eqb_spec opcode CLS) as [Hc|Hc].
  { unfold op_CLS in H. injection H as <-. unfold binary_display. fields.
    apply forallb_repeat. reflexivity. }
  assert (pixels s' = pixels s -> binary_display s' = true) as Hkept
    by (unfold binary_display in *; intros ->; exact Hbin).
  destruct (opcode =? RET) eqn:Hr.
  { apply Hkept. apply op_RET_footprint in H. apply (H f_pixels).
    cbn. intuition discriminate. }
  destruct (Z.eq_dec u 13) as [->|Hu].
  { cbv iota in H. eapply op_DRW_binary; eassumption. }
  apply Hkept. apply (Hfp f_pixels).
  intros [Hd|Hin]; [discriminate|]. apply writes_of_spec in Hin. tauto.
Qed.

Lemma ExecuteInst_binary s s' :
  well_formed s = true -> binary_display s = true ->
  ExecuteInst s = Done s' -> binary_display s' = true.
Proof.
  intros Hwf Hbin H.
  destruct (ExecuteInst_Done_fetches s s' Hwf H) as (op & Hop & Hf).
  destruct (PC_advance s _ Hwf Hf) as (HPC0 & HPC1 & HPC2).
  rewrite (ExecuteInst_fetch s op Hop Hf) in H. rewrite HPC2 in H.
  eapply dispatch_binary; [| |exact H].
  - cbn [mem PC set_PC]. replace (PC s + 2 + 1 - 2) with (PC s + 1) by lia. apply Hf.
  - exact Hbin.
Qed.

(** ** The key table *)

Lemma dict_find_app (m m' : keyDictionary) (k : Z) :
  dict_find (m ++ m') k
  = match dict_find m k with Some v => Some v | None => dict_find m' k end.
Proof.
  induction m as [|[k' v'] m IH]; cbn [dict_find app]; [reflexivity|].
  destruct (k' =? k); [reflexivity | exact IH].
Qed.

Lemma dict_find_insert (m : keyDictionary) (k0 v0 k : Z) :
  dict_find (dict_insert m (k0, v0)) k
  = match dict_find m k with
    | Some v => Some v
    | None => if k0 =? k then Some v0 else None
    end.
Proof.
  unfold dict_insert. cbn [fst].
  destruct (dict_find m k0) as [w|] eqn:E0.
  - destruct (dict_find m k) as [v|] eqn:E; [reflexivity|].
    destruct (Z.eqb_spec k0 k) as [->|Hne]; [congruence | reflexivity].
  - rewrite dict_find_app. cbn [dict_find]. reflexivity.
Qed.

(** Of the pairs of an initializer list with the same key the first one is
    the one the map holds. *)
Lemma dict_find_foldl_insert (l m : keyDictionary) (k : Z) :
  dict_find (foldl dict_insert m l) k
  = match dict_find m k with Some v => Some v | None => dict_find l k end.
Proof.
  revert m. induction l as [|[k0 v0] l IH]; intros m; cbn [foldl dict_find].
  - destruct (dict_find m k); reflexivity.
  - rewrite IH, dict_find_insert.
    destruct (dict_find m k); [reflexivity|]. destruct (k0 =? k); reflexivity.
Qed.

Lemma KeybindsInitialize_ok kc : dict_ok (KeybindsInitialize kc).
Proof.
  intros k v. unfold KeybindsInitialize. rewrite dict_find_foldl_insert.
  cbn [dict_find].
  repeat match goal with
    | |- context [if ?a =? k then _ else _] => destruct (a =? k)
    end;
    intros E; first [discriminate E | injection E as <-; lia].
Qed.

Lemma dict_index_ok (m : keyDictionary) (k : Z) :
  dict_ok m ->
  0 <= fst (dict_index m k) < 16 /\ fst (dict_index m k) <> 11 /\
  fst (dict_index m k) <> 14 /\ dict_ok (snd (dict_index m k)).
Proof.
  intros Hm. unfold dict_index. destruct (dict_find m k) as [v|] eqn:E; cbn [fst snd].
  - destruct (Hm k v E) as (? & ? & ?). auto.
  - split; [lia|]. split; [lia|]. split; [lia|].
    intros k' v'. rewrite dict_find_app. cbn [dict_find].
    destruct (dict_find m k') as [w|] eqn:E'.
    + intros Hw. injection Hw as <-. apply (Hm k' w E').
    + destruct (k =? k'); intros Hw; [injection Hw as <-; lia | discriminate].
Qed.

(** X4.  Whatever the key code, the table of [KeybindsInitialize] gives an
    index from 0 to 15 that is neither 11 nor 14: of the two pairs the
    initializer list has for [SDLK_c] and for [SDLK_e], the second ones,
    with the indices 11 and 14, are never inserted.  A key code that is none
    of the 14 the list names gets the index 0, that of [SDLK_x], and is
    added to the table with it. *)
Theorem keybinds_index_range (kc : SDL_Keycodes) (sym : Z) :
  0 <= fst (dict_index (KeybindsInitialize kc) sym) < 16 /\
  fst (dict_index (KeybindsInitialize kc) sym) <> 11 /\
  fst (dict_index (KeybindsInitialize kc) sym) <> 14 /\
  (~ In sym (named_keycodes kc) ->
   dict_index (KeybindsInitialize kc) sym = (0, KeybindsInitialize kc ++ [(sym, 0)])).
Proof.
  destruct (dict_index_ok (KeybindsInitialize kc) sym (KeybindsInitialize_ok kc))
    as (Hr & H11 & H14 & _).
  split; [exact Hr|]. split; [exact H11|]. split; [exact H14|].
  intros Hno. unfold dict_index.
  assert (dict_find (KeybindsInitialize kc) sym = None) as ->; [|reflexivity].
  unfold KeybindsInitialize at 1. rewrite dict_find_foldl_insert. cbn [dict_find].
  unfold named_keycodes in Hno. cbn [In] in Hno.
  repeat match goal with
    | |- context [if ?a =? sym then _ else _] =>
        destruct (Z.eqb_spec a sym); [exfalso; apply Hno; tauto|]
    end.
  reflexivity.
Qed.

(** X5.  When the 14 key codes the initializer list names are different
    from each other, as SDL's are, the table maps 1, 2, 3, 4 to the keys
    1, 2, 3, 0xC; q, w, e to 4, 5, 6; a, s, d to 7, 8, 9; z, x, c, v to
    0xA, 0, 0xD, 0xF.  No key code is mapped to 0xB or 0xE. *)
Theorem keybinds_table (kc : SDL_Keycodes) :
  List.NoDup (named_keycodes kc) ->
  map (fun k => fst (dict_index (KeybindsInitialize kc) k)) (named_keycodes kc)
  = [1; 2; 3; 12; 4; 5; 6; 7; 8; 9; 10; 0; 13; 15].
Proof.
  intros Hnd. unfold named_keycodes in *.
  repeat match goal with
    | H : List.NoDup (_ :: _) |- _ => apply List.NoDup_cons_iff in H; destruct H as [? H]
    end.
  cbn [In] in *.
  repeat match goal with
    | H : ~ (_ \/ _) |- _ => apply Decidable.not_or in H; destruct H as [? H]
    end.
  unfold dict_index, KeybindsInitialize. cbn [map].
  rewrite !dict_find_foldl_insert. cbn [dict_find]. rewrite !Z.eqb_refl.
  repeat match goal with
    | |- context [?a =? ?b] => destruct (Z.eqb_spec a b); [exfalso; congruence|]
    end.
  reflexivity.
Qed.

Lemma keybinds_table_witness :
  List.NoDup (named_keycodes SDL2_keycodes) /\
  map (fun k => fst (dict_index (KeybindsInitialize SDL2_keycodes) k))
      (named_keycodes SDL2_keycodes)
  = [1; 2; 3; 12; 4; 5; 6; 7; 8; 9; 10; 0; 13; 15].
Proof.
  assert (List.NoDup (named_keycodes SDL2_keycodes)) as Hnd.
  { unfold named_keycodes, SDL2_keycodes.
    cbn [SDLK_1 SDLK_2 SDLK_3 SDLK_4 SDLK_q SDLK_w SDLK_e SDLK_a SDLK_s SDLK_d
         SDLK_z SDLK_x SDLK_c SDLK_v].
    repeat (apply List.NoDup_cons; [cbn [In]; lia|]). apply List.NoDup_nil. }
  split; [exact Hnd|].
  exact (keybinds_table SDL2_keycodes Hnd).
Defined.

(** ** The loop of [main] *)

Lemma press_spec (sym : Z) (st : keyState) (h : host) :
  well_formed (CPU h) = true -> dict_ok (keybinds h) ->
  exists h', press sym st h = Done h' /\
    well_formed (CPU h') = true /\ dict_ok (keybinds h') /\
    only_changes [f_keys] (CPU h) (CPU h') /\
    vec_at (keys (CPU h')) 11 = vec_at (keys (CPU h)) 11 /\
    vec_at (keys (CPU h')) 14 = vec_at (keys (CPU h)) 14.
Proof.
  intros Hwf Hd. unfold press.
  destruct (dict_index_ok (keybinds h) sym Hd) as (Hr & N11 & N14 & Hd').
  destruct (dict_index (keybinds h) sym) as [i kb]. cbn [fst snd] in *.
  pose proof Hwf as Hw%well_formed_facts.
  rewrite vec_set_in_range by (rewrite (wf_keys_len _ Hw); lia). cbn [bind].
  eexists. split; [reflexivity|]. cbn [CPU keybinds].
  split; [apply well_formed_facts; wf_solve|].
  split; [exact Hd'|]. split; [footprint|].
  fields. split; apply vec_at_insert_ne; lia.
Qed.

Lemma handle_event_spec (e : SDL_Event) (h : host) :
  well_formed (CPU h) = true -> dict_ok (keybinds h) ->
  exists h', handle_event e h = Done h' /\
    well_formed (CPU h') = true /\ dict_ok (keybinds h') /\
    only_changes [f_keys] (CPU h) (CPU h') /\
    vec_at (keys (CPU h')) 11 = vec_at (keys (CPU h)) 11 /\
    vec_at (keys (CPU h')) 14 = vec_at (keys (CPU h)) 14.
Proof.
  intros Hwf Hd. destruct e as [|sym|sym|]; cbn [handle_event].
  - eexists. split; [reflexivity|]. cbn [CPU keybinds].
    split; [exact Hwf|]. split; [exact Hd|]. split; [apply only_changes_refl|].
    split; reflexivity.
  - apply press_spec; assumption.
  - apply press_spec; assumption.
  - exists h. split; [reflexivity|].
    split; [exact Hwf|]. split; [exact Hd|]. split; [apply only_changes_refl|].
    split; reflexivity.
Qed.

Lemma poll_SDL_events_spec (evs : list SDL_Event) (h : host) :
  well_formed (CPU h) = true -> dict_ok (keybinds h) ->
  exists h', poll_SDL_events evs h = Done h' /\
    well_formed (CPU h') = true /\ dict_ok (keybinds h') /\
    only_changes [f_keys] (CPU h) (CPU h') /\
    vec_at (keys (CPU h')) 11 = vec_at (keys (CPU h)) 11 /\
    vec_at (keys (CPU h')) 14 = vec_at (keys (CPU h)) 14.
Proof.
  revert h. induction evs as [|e evs IH]; intros h Hwf Hd; cbn [poll_SDL_events].
  - exists h. split; [reflexivity|].
    split; [exact Hwf|]. split; [exact Hd|]. split; [apply only_changes_refl|].
    split; reflexivity.
  - destruct (handle_event_spec e h Hwf Hd) as (h1 & E1 & Hwf1 & Hd1 & F1 & A1 & B1).
    rewrite E1. cbn [bind].
    destruct (IH h1 Hwf1 Hd1) as (h2 & E2 & Hwf2 & Hd2 & F2 & A2 & B2).
    exists h2. split; [exact E2|].
    split; [exact Hwf2|]. split; [exact Hd2|].
    split; [eapply only_changes_trans; eassumption|].
    split; congruence.
Qed.

(** X6.  Handling the pending events completes, whatever keys they are
    about: no key event indexes [keys] outside its 16 entries.  It leaves
    the machine well formed, changes no field of it but [keys], and leaves
    the states of the keys 0xB and 0xE as they were. *)
Theorem key_events_never_fail (kc : SDL_Keycodes) (evs : list SDL_Event)
    (q : bool) (s : Chip_8) :
  well_formed s = true ->
  exists h', poll_SDL_events evs (mkhost q (KeybindsInitialize kc) s) = Done h' /\
    well_formed (CPU h') = true /\
    only_changes [f_keys] s (CPU h') /\
    vec_at (keys (CPU h')) 11 = vec_at (keys s) 11 /\
    vec_at (keys (CPU h')) 14 = vec_at (keys s) 14.
Proof.
  intros Hwf.
  destruct (poll_SDL_events_spec evs (mkhost q (KeybindsInitialize kc) s) Hwf
              (KeybindsInitialize_ok kc)) as (h' & E & Hwf' & _ & F & A & B).
  exists h'. cbn [CPU] in *. auto.
Qed.

Lemma key_events_never_fail_witness :
  well_formed bcd_demo = true /\
  exists h',
    poll_SDL_events [SDL_KEYDOWN 99; SDL_KEYDOWN 114; SDL_QUIT; SDL_KEYUP 99]
      (mkhost false (KeybindsInitialize SDL2_keycodes) bcd_demo) = Done h' /\
    well_formed (CPU h') = true /\
    only_changes [f_keys] bcd_demo (CPU h') /\
    vec_at (keys (CPU h')) 11 = vec_at (keys bcd_demo) 11 /\
    vec_at (keys (CPU h')) 14 = vec_at (keys bcd_demo) 14.
Proof.
  assert (well_formed bcd_demo = true) as Hwf by (vm_compute; reflexivity).
  split; [exact Hwf|].
  exact (key_events_never_fail SDL2_keycodes
           [SDL_KEYDOWN 99; SDL_KEYDOWN 114; SDL_QUIT; SDL_KEYUP 99] false bcd_demo Hwf).
Defined.

Lemma ExecuteInst_cpu_ok s s' : cpu_ok s -> ExecuteInst s = Done s' -> cpu_ok s'.
Proof.
  intros (Hwf & Hbin & H11 & H14) H.
  destruct (ExecuteInst_Done_fetches s s' Hwf H) as (op & Hop & Hf).
  assert (keys s' = keys s) as Hk.
  { apply (ExecuteInst_footprint s s' op Hwf Hop Hf H f_keys).
    intros [Hd|Hin]; [discriminate|]. apply writes_of_spec in Hin. exact Hin. }
  split; [eapply ExecuteInst_wf; eassumption|].
  split; [eapply ExecuteInst_binary; eassumption|].
  rewrite Hk. split; assumption.
Qed.

Lemma RunCycle_cpu_ok s s' : cpu_ok s -> RunCycle s = Done s' -> cpu_ok s'.
Proof.
  intros Hok H. pose proof Hok as (Hwf & _).
  pose proof (RunCycle_wf s s' Hwf H) as Hwf'.
  unfold RunCycle in H. run H.
  apply (ExecuteInst_cpu_ok s a Hok) in E. destruct E as (_ & Hbin & H11 & H14).
  split; [exact Hwf'|]. injection H as <-.
  unfold binary_display in *.
  destruct (delayTimer a >? 0); fields; destruct (soundTimer _ >? 0); fields;
    (split; [assumption|split; assumption]).
Qed.

Lemma run_cycles_cpu_ok n s s' : cpu_ok s -> run_cycles n s = Done s' -> cpu_ok s'.
Proof.
  intros Hok H. unfold run_cycles in H.
  eapply (for_loop_inv cpu_ok); [|exact Hok|exact H].
  cbv beta. intros _ t t'. apply RunCycle_cpu_ok.
Qed.

Lemma main_iteration_ok evs h h' :
  cpu_ok (CPU h) -> dict_ok (keybinds h) -> main_iteration evs h = Done h' ->
  cpu_ok (CPU h') /\ dict_ok (keybinds h').
Proof.
  intros (Hwf & Hbin & H11 & H14) Hd H. unfold main_iteration in H.
  destruct (poll_SDL_events_spec evs h Hwf Hd) as (h1 & E1 & Hwf1 & Hd1 & F1 & A1 & B1).
  rewrite E1 in H. cbn [bind] in H. run H. injection H as <-. cbn [CPU keybinds].
  split; [|exact Hd1].
  eapply run_cycles_cpu_ok; [|exact E].
  split; [exact Hwf1|]. split; [|split; congruence].
  unfold binary_display in *. rewrite (F1 f_pixels); [exact Hbin|].
  cbn. intuition discriminate.
Qed.

Lemma main_loop_ok pending h h' :
  cpu_ok (CPU h) -> dict_ok (keybinds h) -> main_loop pending h = Done h' ->
  cpu_ok (CPU h').
Proof.
  revert h. induction pending as [|evs pending IH]; intros h Hok Hd H; cbn [main_loop] in H.
  - injection H as <-. exact Hok.
  - destruct (quit h); [injection H as <-; exact Hok|].
    run H. destruct (main_iteration_ok evs h a Hok Hd E) as [Hok1 Hd1].
    eapply IH; eassumption.
Qed.

Lemma LoadProgram_from_footprint file pos s s' :
  LoadProgram_from file pos s = Done s' -> only_changes [f_mem] s s'.
Proof.
  revert pos s. induction file as [|b file IH]; intros pos s H; cbn [LoadProgram_from] in H.
  - explicit. footprint.
  - run H. apply IH in H. eapply only_changes_trans; [|exact H].
    explicit. footprint.
Qed.

(** X7.  In every state that [main] reaches, from the construction of the
    machine and the loading of any file on, through any number of rounds of
    its loop with any events, the machine is well formed (the vectors have
    their sizes, the fields the ranges of their types), every pixel is 0 or
    1, and the keys 0xB and 0xE are up: no key of the host presses them. *)
Theorem main_reaches_sound_states (kc : SDL_Keycodes) (rnd : nat -> Z)
    (file : list Z) (pending : list (list SDL_Event)) (h : host) :
  main kc rnd file pending = Done h ->
  well_formed (CPU h) = true /\ binary_display (CPU h) = true /\
  vec_at (keys (CPU h)) 11 = Done UP /\ vec_at (keys (CPU h)) 14 = Done UP.
Proof.
  intros H. unfold main in H. run H. rename a into s0.
  refine (main_loop_ok pending (mkhost false (KeybindsInitialize kc) s0) h _
            (KeybindsInitialize_ok kc) H).
  unfold cpu_ok. cbn [CPU].
  unfold LoadProgram in E.
  pose proof (LoadProgram_from_footprint _ _ _ _ E) as F.
  split; [eapply LoadProgram_from_wf; [apply Chip_8_new_wf | exact E]|].
  assert (pixels s0 = pixels (Chip_8_new rnd)) as Hp
    by (apply (F f_pixels); cbn; intuition discriminate).
  assert (keys s0 = keys (Chip_8_new rnd)) as Hk
    by (apply (F f_keys); cbn; intuition discriminate).
  unfold binary_display. rewrite Hp, Hk.
  split; [|split]; vm_compute; reflexivity.
Qed.

Lemma main_reaches_sound_states_witness :
  main SDL2_keycodes (fun _ => 0) [0x12; 0x00]
       [[SDL_KEYDOWN 99; SDL_KEYDOWN 101; SDL_KEYUP 99]; [SDL_QUIT]; []]
  = Done main_demo /\
  well_formed (CPU main_demo) = true /\ binary_display (CPU main_demo) = true /\
  vec_at (keys (CPU main_demo)) 11 = Done UP /\
  vec_at (keys (CPU main_demo)) 14 = Done UP.
Proof.
  assert (main SDL2_keycodes (fun _ => 0) [0x12; 0x00]
            [[SDL_KEYDOWN 99; SDL_KEYDOWN 101; SDL_KEYUP 99]; [SDL_QUIT]; []]
          = Done main_demo) as Hm by (vm_compute; reflexivity).
  split; [exact Hm|].
  exact (main_reaches_sound_states _ _ _ _ _ Hm).
Defined.

(** ** Fetching, and the opcodes that are not instructions *)

(** X8.  [ExecuteInst] exits when [PC] is at or beyond the size of the
    memory; the test is on the first of the two bytes it fetches, so with
    [PC] at the last address, 4095, it reads the second byte outside the
    memory. *)
Theorem PC_guard_is_one_short (s : Chip_8) :
  well_formed s = true ->
  (4096 <= PC s -> ExecuteInst s = Exit "Incorrect PC, instruction overflow") /\
  (PC s = 4095 ->
   vec_at (mem s) (PC s + 1) = OutOfRange /\ ExecuteInst s = OutOfRange).
Proof.
  intros Hwf%well_formed_facts. pose proof (wf_mem_len s Hwf) as Hlen.
  unfold ExecuteInst. split; intros HPC.
  - destruct (Z.geb_spec (PC s) (Z.of_nat (length (mem s)))); [reflexivity | lia].
  - destruct (Z.geb_spec (PC s) (Z.of_nat (length (mem s)))); [lia|].
    destruct (vec_at_in_range (mem s) (PC s)) as [b0 Hb0]; [lia|].
    assert (vec_at (mem s) (PC s + 1) = OutOfRange) as HO
      by (apply vec_at_out_of_range; lia).
    rewrite Hb0, HO. split; reflexivity.
Qed.

Lemma PC_guard_is_one_short_witness :
  well_formed edge_PC_demo = true /\
  (4096 <= PC edge_PC_demo ->
   ExecuteInst edge_PC_demo = Exit "Incorrect PC, instruction overflow") /\
  (PC edge_PC_demo = 4095 ->
   vec_at (mem edge_PC_demo) (PC edge_PC_demo + 1) = OutOfRange /\
   ExecuteInst edge_PC_demo = OutOfRange).
Proof.
  assert (well_formed edge_PC_demo = true) as Hwf by (vm_compute; reflexivity).
  split; [exact Hwf|].
  exact (PC_guard_is_one_short edge_PC_demo Hwf).
Defined.

Ltac switch_goal :=
  repeat match goal with
    | |- context [match ?q with xI _ => _ | xO _ => _ | xH => _ end] => is_var q; destruct q
    end.

(** X9.  The opcodes [ExecuteInst] exits on as invalid: 0nnn other than
    00E0 and 00EE; 8xyN with N from 8 to 0xD or 0xF; Exkk with kk other than
    9E and A1; Fxkk with kk other than 07, 0A, 15, 18, 1E, 29, 33, 55 and
    65. *)
Theorem invalid_opcodes_exit (s : Chip_8) (op : Z) :
  well_formed s = true -> 0 <= op < 65536 -> fetches s op ->
  (op / 4096 = 0 -> op <> 0x00E0 -> op <> 0x00EE ->
   ExecuteInst s = Exit "Invalid opcode from start") /\
  (op / 4096 = 8 -> 8 <= op mod 16 <= 13 \/ op mod 16 = 15 ->
   ExecuteInst s = Exit "Invalid Opcode") /\
  (op / 4096 = 14 -> op mod 256 <> 0x9E -> op mod 256 <> 0xA1 ->
   ExecuteInst s = Exit "Invalid Opcode") /\
  (op / 4096 = 15 ->
   ~ In (op mod 256) [0x07; 0x0A; 0x15; 0x18; 0x1E; 0x29; 0x33; 0x55; 0x65] ->
   ExecuteInst s = Exit "Invalid Opcode inside F case").
Proof.
  intros Hwf Hop Hf.
  assert (0 <= (op / 256) mod 16 < 16) as Hx by euclid.
  assert (0 <= op mod 256 < 256) as Hk by euclid.
  split; [|split; [|split]].
  - intros Hu Hc Hr. rewrite (ExecuteInst_fetch s op Hop Hf).
    unfold dispatch, CLS, RET.
    destruct (Z.eqb_spec op 0xE0); [contradiction|].
    destruct (Z.eqb_spec op 0xEE); [contradiction|].
    rewrite Hu. reflexivity.
  - intros Hu Hv. rewrite (ExecuteInst_fetch s op Hop Hf).
    unfold dispatch, CLS, RET.
    destruct (Z.eqb_spec op 0xE0); [euclid|].
    destruct (Z.eqb_spec op 0xEE); [euclid|].
    rewrite Hu. cbv iota. unfold op_8.
    assert (op mod 16 = 8 \/ op mod 16 = 9 \/ op mod 16 = 10 \/ op mod 16 = 11 \/
            op mod 16 = 12 \/ op mod 16 = 13 \/ op mod 16 = 15) as Hc by lia.
    repeat (destruct Hc as [E|Hc]; [rewrite E; reflexivity|]).
    rewrite Hc. reflexivity.
  - intros Hu H9E HA1.
    assert (op = 0xE000 + 0x100 * ((op / 256) mod 16) + op mod 256) as Hop' by euclid.
    rewrite Hop' in Hf.
    destruct (ExecuteInst_Exkk s _ _ Hwf Hx Hk Hf) as [-> Hb].
    unfold op_SKP. fields. rewrite Hb. cbn [bind].
    destruct (Z.eqb_spec (op mod 256) 0x9E); [contradiction|].
    destruct (Z.eqb_spec (op mod 256) 0xA1); [contradiction|].
    reflexivity.
  - intros Hu Hno.
    assert (op = 0xF000 + 0x100 * ((op / 256) mod 16) + op mod 256) as Hop' by euclid.
    rewrite Hop' in Hf.
    destruct (ExecuteInst_Fxkk s _ _ Hwf Hx Hk Hf) as [-> Hb].
    unfold op_F. fields. rewrite Hb. cbn [bind]. cbn [In] in Hno.
    generalize dependent (op mod 256). intros b _ _ Hno.
    destruct b as [|p|p]; try reflexivity.
    switch_goal; first [reflexivity | exfalso; apply Hno; tauto].
Qed.

Lemma invalid_opcodes_exit_witness :
  well_formed invalid_demo = true /\ 0 <= 0x0123 < 65536 /\ fetches invalid_demo 0x0123 /\
  (0x0123 / 4096 = 0 -> 0x0123 <> 0x00E0 -> 0x0123 <> 0x00EE ->
   ExecuteInst invalid_demo = Exit "Invalid opcode from start") /\
  (0x0123 / 4096 = 8 -> 8 <= 0x0123 mod 16 <= 13 \/ 0x0123 mod 16 = 15 ->
   ExecuteInst invalid_demo = Exit "Invalid Opcode") /\
  (0x0123 / 4096 = 14 -> 0x0123 mod 256 <> 0x9E -> 0x0123 mod 256 <> 0xA1 ->
   ExecuteInst invalid_demo = Exit "Invalid Opcode") /\
  (0x0123 / 4096 = 15 ->
   ~ In (0x0123 mod 256) [0x07; 0x0A; 0x15; 0x18; 0x1E; 0x29; 0x33; 0x55; 0x65] ->
   ExecuteInst invalid_demo = Exit "Invalid Opcode inside F case").
Proof.
  assert (well_formed invalid_demo = true) as Hwf by (vm_compute; reflexivity).
  assert (fetches invalid_demo 0x0123) as Hf by (split; vm_compute; reflexivity).
  split; [exact Hwf|]. split; [lia|]. split; [exact Hf|].
  exact (invalid_opcodes_exit invalid_demo 0x0123 Hwf ltac:(lia) Hf).
Defined.

(** ** Jumps *)

Lemma ExecuteInst_unnn (s : Chip_8) (u nnn : Z) :
  well_formed s = true -> 1 <= u < 16 -> 0 <= nnn < 4096 ->
  fetches s (0x1000 * u + nnn) ->
  ExecuteInst s =
    dispatch (0x1000 * u + nnn) nnn (nnn mod 16) (nnn / 256) ((nnn / 16) mod 16)
             (int8_t (nnn mod 256)) u (nnn mod 16) (set_PC s (PC s + 2)) /\
  (0x1000 * u + nnn =? CLS) = false /\ (0x1000 * u + nnn =? RET) = false.
Proof.
  intros Hwf Hu Hn Hf.
  destruct (PC_advance s _ Hwf Hf) as (HPC0 & HPC1 & HPC2).
  rewrite (ExecuteInst_fetch s (0x1000 * u + nnn)) by (lia || assumption).
  rewrite HPC2. unfold CLS, RET.
  split; [|split; apply Z.eqb_neq; lia].
  f_equal; try (f_equal; euclid); euclid.
Qed.

Lemma ExecuteInst_JP (s : Chip_8) (nnn : Z) :
  well_formed s = true -> 0 <= nnn < 4096 -> fetches s (0x1000 + nnn) ->
  ExecuteInst s = Done (set_PC s nnn).
Proof.
  intros Hwf Hn Hf. pose proof Hwf as Hw%well_formed_facts.
  destruct (ExecuteInst_unnn s 1 nnn Hwf ltac:(lia) Hn Hf) as (-> & Hc & Hr).
  unfold dispatch. rewrite Hc, Hr. cbv iota. unfold op_JP. fields.
  destruct (Z.geb_spec nnn (Z.of_nat (length (mem s))));
    [rewrite (wf_mem_len s Hw) in *; lia|].
  reflexivity.
Qed.

(** X10.  1nnn puts [nnn] in [PC] and changes nothing else.  It never
    exits: the test of [nnn] against the size of the memory cannot fail for
    an address of 12 bits. *)
Theorem JP_sets_PC (s : Chip_8) (nnn : Z) :
  well_formed s = true -> 0 <= nnn < 4096 -> fetches s (0x1000 + nnn) ->
  ExecuteInst s = Done (set_PC s nnn).
Proof. apply ExecuteInst_JP. Qed.

Lemma JP_sets_PC_witness :
  well_formed jp_demo = true /\ 0 <= 0x204 < 4096 /\ fetches jp_demo (0x1000 + 0x204) /\
  ExecuteInst jp_demo = Done (set_PC jp_demo 0x204).
Proof.
  assert (well_formed jp_demo = true) as Hwf by (vm_compute; reflexivity).
  assert (fetches jp_demo (0x1000 + 0x204)) as Hf by (split; vm_compute; reflexivity).
  split; [exact Hwf|]. split; [lia|]. split; [exact Hf|].
  exact (JP_sets_PC jp_demo 0x204 Hwf ltac:(lia) Hf).
Defined.

(** X11.  Bnnn puts [nnn + V[0]] in [PC] and changes nothing else.  The sum
    is not tested: when it is 4096 or more, the next call of [ExecuteInst]
    exits. *)
Theorem JP_V0_adds_V0 (s : Chip_8) (nnn : Z) :
  well_formed s = true -> 0 <= nnn < 4096 -> fetches s (0xB000 + nnn) ->
  exists v0,
    vec_at (V s) 0 = Done v0 /\
    ExecuteInst s = Done (set_PC s (nnn + v0)) /\
    (4096 <= nnn + v0 ->
     ExecuteInst (set_PC s (nnn + v0)) = Exit "Incorrect PC, instruction overflow").
Proof.
  intros Hwf Hn Hf. pose proof Hwf as Hw%well_formed_facts.
  destruct (wf_V_ex s 0 Hwf ltac:(lia)) as (v0 & Hv0 & R0).
  exists v0. split; [exact Hv0|].
  destruct (ExecuteInst_unnn s 11 nnn Hwf ltac:(lia) Hn Hf) as (-> & Hc & Hr).
  unfold dispatch. rewrite Hc, Hr. cbv iota. unfold op_JP_V0. fields.
  rewrite Hv0. cbn [bind]. unfold uint16_t. rewrite Z.mod_small by lia.
  split; [reflexivity|].
  intros Hbig. unfold ExecuteInst. fields.
  destruct (Z.geb_spec (nnn + v0) (Z.of_nat (length (mem s))));
    [reflexivity | rewrite (wf_mem_len s Hw) in *; lia].
Qed.

Lemma JP_V0_adds_V0_witness :
  well_formed jp_V0_demo = true /\ 0 <= 0xFFE < 4096 /\
  fetches jp_V0_demo (0xB000 + 0xFFE) /\
  exists v0,
    vec_at (V jp_V0_demo) 0 = Done v0 /\
    ExecuteInst jp_V0_demo = Done (set_PC jp_V0_demo (0xFFE + v0)) /\
    (4096 <= 0xFFE + v0 ->
     ExecuteInst (set_PC jp_V0_demo (0xFFE + v0))
     = Exit "Incorrect PC, instruction overflow").
Proof.
  assert (well_formed jp_V0_demo = true) as Hwf by (vm_compute; reflexivity).
  assert (fetches jp_V0_demo (0xB000 + 0xFFE)) as Hf by (split; vm_compute; reflexivity).
  split; [exact Hwf|]. split; [lia|]. split; [exact Hf|].
  exact (JP_V0_adds_V0 jp_V0_demo 0xFFE Hwf ltac:(lia) Hf).
Defined.

(** ** Loads and arithmetic on the registers *)

Ltac past_00E0_00EE :=
  unfold dispatch, CLS, RET;
  match goal with
  | |- context [?a =? 0xE0] => destruct (Z.eqb_spec a 0xE0) as [?|_]; [lia|]
  end;
  match goal with
  | |- context [?a =? 0xEE] => destruct (Z.eqb_spec a 0xEE) as [?|_]; [lia|]
  end;
  cbv iota.

(** X12.  6xkk leaves [kk] in [V[x]] for every byte [kk], also for 0x80 and
    above, where [kk] is negative as the [int8_t] it is decoded to; it
    changes no other register and no flag. *)
Theorem LD_kk_loads_the_byte (s : Chip_8) (x kk : Z) :
  well_formed s = true -> 0 <= x < 16 -> 0 <= kk < 256 ->
  fetches s (0x6000 + 0x100 * x + kk) ->
  ExecuteInst s = Done (set_PC (set_V s (<[Z.to_nat x := kk]> (V s))) (PC s + 2)).
Proof.
  intros Hwf Hx Hk Hf. pose proof Hwf as Hw%well_formed_facts.
  destruct (PC_advance s _ Hwf Hf) as (HPC0 & HPC1 & HPC2).
  rewrite (dispatch_xkk s 6 x kk) by (lia || assumption).
  past_00E0_00EE. rewrite HPC2. unfold op_LD_kk.
  rewrite assign_V_in_range by (fields; rewrite (wf_V_len s Hw); lia).
  replace (uint8_t (int8_t kk)) with kk by (unfold uint8_t, int8_t; euclid).
  reflexivity.
Qed.

Lemma LD_kk_loads_the_byte_witness :
  well_formed ld_kk_demo = true /\ 0 <= 10 < 16 /\ 0 <= 0xFF < 256 /\
  fetches ld_kk_demo (0x6000 + 0x100 * 10 + 0xFF) /\
  ExecuteInst ld_kk_demo
  = Done (set_PC (set_V ld_kk_demo (<[Z.to_nat 10 := 0xFF]> (V ld_kk_demo)))
                 (PC ld_kk_demo + 2)).
Proof.
  assert (well_formed ld_kk_demo = true) as Hwf by (vm_compute; reflexivity).
  assert (fetches ld_kk_demo (0x6000 + 0x100 * 10 + 0xFF)) as Hf
    by (split; vm_compute; reflexivity).
  split; [exact Hwf|]. split; [lia|]. split; [lia|]. split; [exact Hf|].
  exact (LD_kk_loads_the_byte ld_kk_demo 10 0xFF Hwf ltac:(lia) ltac:(lia) Hf).
Defined.

(** X13.  7xkk leaves the sum of [V[x]] and the byte [kk] modulo 256 in
    [V[x]], for every byte [kk]; it changes no other register, so it sets
    no carry flag. *)
Theorem ADD_kk_wraps_without_flag (s : Chip_8) (x kk : Z) :
  well_formed s = true -> 0 <= x < 16 -> 0 <= kk < 256 ->
  fetches s (0x7000 + 0x100 * x + kk) ->
  exists vx,
    vec_at (V s) x = Done vx /\
    ExecuteInst s
    = Done (set_PC (set_V s (<[Z.to_nat x := (vx + kk) mod 256]> (V s))) (PC s + 2)).
Proof.
  intros Hwf Hx Hk Hf. pose proof Hwf as Hw%well_formed_facts.
  destruct (wf_V_ex s x Hwf Hx) as (vx & Hvx & Rx).
  exists vx. split; [exact Hvx|].
  destruct (PC_advance s _ Hwf Hf) as (HPC0 & HPC1 & HPC2).
  rewrite (dispatch_xkk s 7 x kk) by (lia || assumption).
  past_00E0_00EE. rewrite HPC2. unfold op_ADD_kk. fields. rewrite Hvx. cbn [bind].
  rewrite assign_V_in_range by (fields; rewrite (wf_V_len s Hw); lia).
  replace (uint8_t (vx + int8_t kk)) with ((vx + kk) mod 256)
    by (unfold uint8_t, int8_t; euclid).
  reflexivity.
Qed.

Lemma ADD_kk_wraps_without_flag_witness :
  well_formed add_kk_demo = true /\ 0 <= 10 < 16 /\ 0 <= 0x82 < 256 /\
  fetches add_kk_demo (0x7000 + 0x100 * 10 + 0x82) /\
  exists vx,
    vec_at (V add_kk_demo) 10 = Done vx /\
    ExecuteInst add_kk_demo
    = Done (set_PC (set_V add_kk_demo
                      (<[Z.to_nat 10 := (vx + 0x82) mod 256]> (V add_kk_demo)))
                   (PC add_kk_demo + 2)).
Proof.
  assert (well_formed add_kk_demo = true) as Hwf by (vm_compute; reflexivity).
  assert (fetches add_kk_demo (0x7000 + 0x100 * 10 + 0x82)) as Hf
    by (split; vm_compute; reflexivity).
  split; [exact Hwf|]. split; [lia|]. split; [lia|]. split; [exact Hf|].
  exact (ADD_kk_wraps_without_flag add_kk_demo 10 0x82 Hwf ltac:(lia) ltac:(lia) Hf).
Defined.

Lemma byte_bitwise (f : Z -> Z -> Z) (g : bool -> bool -> bool) :
  (forall a b n, Z.testbit (f a b) n = g (Z.testbit a n) (Z.testbit b n)) ->
  g false false = false ->
  forall a b, 0 <= a < 256 -> 0 <= b < 256 -> uint8_t (f a b) = f a b.
Proof.
  intros Hf Hg a b Ha Hb. unfold uint8_t. change 256 with (2 ^ 8) in *.
  rewrite <- Z.land_ones by lia. apply Z.bits_inj'. intros n Hn.
  rewrite Z.land_spec, Hf. destruct (Z.ltb_spec n 8).
  - rewrite Z.ones_spec_low by lia. apply andb_true_r.
  - rewrite Z.ones_spec_high by lia. rewrite andb_false_r.
    assert (forall c, 0 <= c < 2 ^ 8 -> Z.testbit c n = false) as Hhigh.
    { intros c Hc. rewrite <- (Z.mod_small c (2 ^ 8)) by exact Hc.
      apply Z.mod_pow2_bits_high. lia. }
    rewrite (Hhigh a Ha), (Hhigh b Hb). symmetry. exact Hg.
Qed.

(** X14.  8xy0, 8xy1, 8xy2 and 8xy3 leave [V[y]], the bitwise OR, the AND
    and the XOR of [V[x]] and [V[y]] in [V[x]]; they change no other
    register, [V[15]] neither. *)
Theorem logic_ops_keep_the_flag (s : Chip_8) (x y v : Z) :
  well_formed s = true -> 0 <= x < 16 -> 0 <= y < 16 -> 0 <= v <= 3 ->
  fetches s (0x8000 + 0x100 * x + 0x10 * y + v) ->
  exists vx vy,
    vec_at (V s) x = Done vx /\ vec_at (V s) y = Done vy /\
    ExecuteInst s
    = Done (set_PC (set_V s (<[Z.to_nat x := logic_result v vx vy]> (V s))) (PC s + 2)).
Proof.
  intros Hwf Hx Hy Hv Hf. pose proof Hwf as Hw%well_formed_facts.
  destruct (wf_V_ex s x Hwf Hx) as (vx & Hvx & Rx).
  destruct (wf_V_ex s y Hwf Hy) as (vy & Hvy & Ry).
  exists vx, vy. split; [exact Hvx|]. split; [exact Hvy|].
  destruct (PC_advance s _ Hwf Hf) as (HPC0 & HPC1 & HPC2).
  rewrite (ExecuteInst_8xyv s x y v) by (lia || assumption). rewrite HPC2.
  pose proof (wf_V_len s Hw) as Hlen.
  assert (v = 0 \/ v = 1 \/ v = 2 \/ v = 3) as [-> | [-> | [-> | ->]]] by lia;
    unfold op_8, op_LD, op_bitwise, logic_result; fields;
    rewrite ?Hvy, ?Hvx; cbn [bind];
    rewrite assign_V_in_range by (fields; lia).
  - reflexivity.
  - rewrite (byte_bitwise Z.lor orb Z.lor_spec eq_refl) by assumption. reflexivity.
  - rewrite (byte_bitwise Z.land andb Z.land_spec eq_refl) by assumption. reflexivity.
  - rewrite (byte_bitwise Z.lxor xorb Z.lxor_spec eq_refl) by assumption. reflexivity.
Qed.

Lemma logic_ops_keep_the_flag_witness :
  well_formed logic_demo = true /\ 0 <= 0 < 16 /\ 0 <= 1 < 16 /\ 0 <= 3 <= 3 /\
  fetches logic_demo (0x8000 + 0x100 * 0 + 0x10 * 1 + 3) /\
  exists vx vy,
    vec_at (V logic_demo) 0 = Done vx /\ vec_at (V logic_demo) 1 = Done vy /\
    ExecuteInst logic_demo
    = Done (set_PC (set_V logic_demo
                      (<[Z.to_nat 0 := logic_result 3 vx vy]> (V logic_demo)))
                   (PC logic_demo + 2)).
Proof.
  assert (well_formed logic_demo = true) as Hwf by (vm_compute; reflexivity).
  assert (fetches logic_demo (0x8000 + 0x100 * 0 + 0x10 * 1 + 3)) as Hf
    by (split; vm_compute; reflexivity).
  split; [exact Hwf|]. split; [lia|]. split; [lia|]. split; [lia|]. split; [exact Hf|].
  exact (logic_ops_keep_the_flag logic_demo 0 1 3 Hwf
           ltac:(lia) ltac:(lia) ltac:(lia) Hf).
Defined.

Lemma land_1 (z : Z) : Z.land z 1 = z mod 2.
Proof. change 1 with (Z.ones 1). rewrite Z.land_ones by lia. reflexivity. Qed.

Lemma shiftr_1 (z : Z) : Z.shiftr z 1 = z / 2.
Proof. rewrite Z.shiftr_div_pow2 by lia. reflexivity. Qed.

Lemma shiftl_1 (z : Z) : Z.shiftl z 1 = 2 * z.
Proof. rewrite Z.shiftl_mul_pow2 by lia. change (2 ^ 1) with 2. lia. Qed.

Lemma msb_of_byte (z : Z) : 0 <= z < 256 -> Z.shiftr (Z.land z 0x80) 7 = z / 128.
Proof.
  intros Hz. rewrite Z.shiftr_land. change (Z.shiftr 128 7) with 1.
  rewrite land_1, Z.shiftr_div_pow2 by lia. change (2 ^ 7) with 128. euclid.
Qed.

(** X15.  8xy6 ignores [V[y]].  When [x] is not 15 it leaves the lowest bit
    of the old [V[x]] in [V[15]] and half the old [V[x]], rounded down, in
    [V[x]].  When [x] is 15 the flag is written first and then shifted
    itself, so [V[15]] ends as 0.  No other register changes. *)
Theorem SHR_result_and_flag (s : Chip_8) (x y : Z) :
  well_formed s = true -> 0 <= x < 16 -> 0 <= y < 16 ->
  fetches s (0x8006 + 0x100 * x + 0x10 * y) ->
  exists vx s',
    vec_at (V s) x = Done vx /\ ExecuteInst s = Done s' /\
    (x <> 15 -> vec_at (V s') x = Done (vx / 2) /\ vec_at (V s') 15 = Done (vx mod 2)) /\
    (x = 15 -> vec_at (V s') 15 = Done 0) /\
    (forall j, 0 <= j -> j <> x -> j <> 15 -> vec_at (V s') j = vec_at (V s) j).
Proof.
  intros Hwf Hx Hy Hf. pose proof Hwf as Hw%well_formed_facts.
  destruct (wf_V_ex s x Hwf Hx) as (vx & Hvx & Rx).
  pose proof (wf_V_len s Hw) as Hlen.
  exists vx.
  replace (0x8006 + 0x100 * x + 0x10 * y)
    with (0x8000 + 0x100 * x + 0x10 * y + 6) in Hf by lia.
  rewrite (ExecuteInst_8xyv s x y 6) by (lia || assumption).
  unfold op_8, op_SHR. fields. rewrite Hvx. cbn [bind].
  rewrite assign_V_in_range by (fields; lia). cbn [bind]. fields.
  rewrite land_1. replace (uint8_t (vx mod 2)) with (vx mod 2) by (unfold uint8_t; euclid).
  destruct (Z.eq_dec x 15) as [->|Hne].
  - rewrite vec_at_insert_eq by lia. cbn [bind].
    rewrite assign_V_in_range by (fields; rewrite length_insert; lia).
    eexists. split; [reflexivity|]. split; [reflexivity|]. fields.
    split; [intros Hc; contradiction|]. split.
    + intros _. rewrite vec_at_insert_eq by (rewrite length_insert; lia).
      f_equal. rewrite shiftr_1. unfold uint8_t. euclid.
    + intros j Hj Hjx _. rewrite !vec_at_insert_ne by lia. reflexivity.
  - rewrite vec_at_insert_ne by lia. rewrite Hvx. cbn [bind].
    rewrite assign_V_in_range by (fields; rewrite length_insert; lia).
    eexists. split; [reflexivity|]. split; [reflexivity|]. fields.
    split; [|split; [intros Hc; contradiction|]].
    + intros _. split.
      * rewrite vec_at_insert_eq by (rewrite length_insert; lia).
        f_equal. rewrite shiftr_1. unfold uint8_t. euclid.
      * rewrite vec_at_insert_ne by lia. apply vec_at_insert_eq. lia.
    + intros j Hj Hjx Hj15. rewrite !vec_at_insert_ne by lia. reflexivity.
Qed.

Lemma SHR_result_and_flag_witness :
  well_formed shr_demo = true /\ 0 <= 0 < 16 /\ 0 <= 0 < 16 /\
  fetches shr_demo (0x8006 + 0x100 * 0 + 0x10 * 0) /\
  exists vx s',
    vec_at (V shr_demo) 0 = Done vx /\ ExecuteInst shr_demo = Done s' /\
    (0 <> 15 -> vec_at (V s') 0 = Done (vx / 2) /\ vec_at (V s') 15 = Done (vx mod 2)) /\
    (0 = 15 -> vec_at (V s') 15 = Done 0) /\
    (forall j, 0 <= j -> j <> 0 -> j <> 15 -> vec_at (V s') j = vec_at (V shr_demo) j).
Proof.
  assert (well_formed shr_demo = true) as Hwf by (vm_compute; reflexivity).
  assert (fetches shr_demo (0x8006 + 0x100 * 0 + 0x10 * 0)) as Hf
    by (split; vm_compute; reflexivity).
  split; [exact Hwf|]. split; [lia|]. split; [lia|]. split; [exact Hf|].
  exact (SHR_result_and_flag shr_demo 0 0 Hwf ltac:(lia) ltac:(lia) Hf).
Defined.

(** X16.  8xyE ignores [V[y]].  When [x] is not 15 it leaves the highest
    bit of the old [V[x]] in [V[15]] and twice the old [V[x]] modulo 256 in
    [V[x]].  When [x] is 15 the flag is written first and then shifted
    itself, so [V[15]] ends as twice the highest bit it held.  No other
    register changes. *)
Theorem SHL_result_and_flag (s : Chip_8) (x y : Z) :
  well_formed s = true -> 0 <= x < 16 -> 0 <= y < 16 ->
  fetches s (0x800E + 0x100 * x + 0x10 * y) ->
  exists vx s',
    vec_at (V s) x = Done vx /\ ExecuteInst s = Done s' /\
    (x <> 15 ->
     vec_at (V s') x = Done ((2 * vx) mod 256) /\ vec_at (V s') 15 = Done (vx / 128)) /\
    (x = 15 -> vec_at (V s') 15 = Done (2 * (vx / 128))) /\
    (forall j, 0 <= j -> j <> x -> j <> 15 -> vec_at (V s') j = vec_at (V s) j).
Proof.
  intros Hwf Hx Hy Hf. pose proof Hwf as Hw%well_formed_facts.
  destruct (wf_V_ex s x Hwf Hx) as (vx & Hvx & Rx).
  pose proof (wf_V_len s Hw) as Hlen.
  exists vx.
  replace (0x800E + 0x100 * x + 0x10 * y)
    with (0x8000 + 0x100 * x + 0x10 * y + 14) in Hf by lia.
  rewrite (ExecuteInst_8xyv s x y 14) by (lia || assumption).
  unfold op_8, op_SHL. fields. rewrite Hvx. cbn [bind].
  rewrite assign_V_in_range by (fields; lia). cbn [bind]. fields.
  rewrite msb_of_byte by exact Rx.
  replace (uint8_t (vx / 128)) with (vx / 128) by (unfold uint8_t; euclid).
  destruct (Z.eq_dec x 15) as [->|Hne].
  - rewrite vec_at_insert_eq by lia. cbn [bind].
    rewrite assign_V_in_range by (fields; rewrite length_insert; lia).
    eexists. split; [reflexivity|]. split; [reflexivity|]. fields.
    split; [intros Hc; contradiction|]. split.
    + intros _. rewrite vec_at_insert_eq by (rewrite length_insert; lia).
      f_equal. rewrite shiftl_1. unfold uint8_t. euclid.
    + intros j Hj Hjx _. rewrite !vec_at_insert_ne by lia. reflexivity.
  - rewrite vec_at_insert_ne by lia. rewrite Hvx. cbn [bind].
    rewrite assign_V_in_range by (fields; rewrite length_insert; lia).
    eexists. split; [reflexivity|]. split; [reflexivity|]. fields.
    split; [|split; [intros Hc; contradiction|]].
    + intros _. split.
      * rewrite vec_at_insert_eq by (rewrite length_insert; lia).
        rewrite shiftl_1. reflexivity.
      * rewrite vec_at_insert_ne by lia. apply vec_at_insert_eq. lia.
    + intros j Hj Hjx Hj15. rewrite !vec_at_insert_ne by lia. reflexivity.
Qed.

Lemma SHL_result_and_flag_witness :
  well_formed shl_demo = true /\ 0 <= 0 < 16 /\ 0 <= 0 < 16 /\
  fetches shl_demo (0x800E + 0x100 * 0 + 0x10 * 0) /\
  exists vx s',
    vec_at (V shl_demo) 0 = Done vx /\ ExecuteInst shl_demo = Done s' /\
    (0 <> 15 ->
     vec_at (V s') 0 = Done ((2 * vx) mod 256) /\ vec_at (V s') 15 = Done (vx / 128)) /\
    (0 = 15 -> vec_at (V s') 15 = Done (2 * (vx / 128))) /\
    (forall j, 0 <= j -> j <> 0 -> j <> 15 -> vec_at (V s') j = vec_at (V shl_demo) j).
Proof.
  assert (well_formed shl_demo = true) as Hwf by (vm_compute; reflexivity).
  assert (fetches shl_demo (0x800E + 0x100 * 0 + 0x10 * 0)) as Hf
    by (split; vm_compute; reflexivity).
  split; [exact Hwf|]. split; [lia|]. split; [lia|]. split; [exact Hf|].
  exact (SHL_result_and_flag shl_demo 0 0 Hwf ltac:(lia) ltac:(lia) Hf).
Defined.

(** X17.  8xy7 with [x] other than 15 leaves 1 in [V[15]] when the old
    [V[y]] is greater than the old [V[x]] and 0 otherwise.  When [y] is not
    15 either, [V[x]] ends as the old [V[y]] minus the old [V[x]] modulo
    256.  When [y] is 15 the difference is taken after the flag was written,
    so [V[x]] ends as the new flag minus the old [V[x]] modulo 256. *)
Theorem SUBN_result_and_flag (s : Chip_8) (x y : Z) :
  well_formed s = true -> 0 <= x < 15 -> 0 <= y < 16 ->
  fetches s (0x8007 + 0x100 * x + 0x10 * y) ->
  exists vx vy s',
    vec_at (V s) x = Done vx /\ vec_at (V s) y = Done vy /\
    ExecuteInst s = Done s' /\
    vec_at (V s') 15 = Done (if vy >? vx then 1 else 0) /\
    (y <> 15 -> vec_at (V s') x = Done ((vy - vx) mod 256)) /\
    (y = 15 -> vec_at (V s') x = Done (((if vy >? vx then 1 else 0) - vx) mod 256)).
Proof.
  intros Hwf Hx Hy Hf. pose proof Hwf as Hw%well_formed_facts.
  destruct (wf_V_ex s x Hwf ltac:(lia)) as (vx & Hvx & Rx).
  destruct (wf_V_ex s y Hwf Hy) as (vy & Hvy & Ry).
  pose proof (wf_V_len s Hw) as Hlen.
  exists vx, vy.
  replace (0x8007 + 0x100 * x + 0x10 * y)
    with (0x8000 + 0x100 * x + 0x10 * y + 7) in Hf by lia.
  rewrite (ExecuteInst_8xyv s x y 7) by (lia || assumption).
  unfold op_8, op_SUBN. fields. rewrite Hvx, Hvy. cbn [bind].
  rewrite assign_V_in_range by (fields; lia). cbn [bind]. fields.
  set (f := if vy >? vx then 1 else 0).
  rewrite (vec_at_insert_ne (V s) 15 x) by lia. rewrite Hvx.
  destruct (Z.eq_dec y 15) as [->|Hne].
  - rewrite vec_at_insert_eq by lia. cbn [bind].
    rewrite assign_V_in_range by (fields; rewrite length_insert; lia).
    eexists. split; [reflexivity|]. split; [reflexivity|]. split; [reflexivity|]. fields.
    split; [rewrite vec_at_insert_ne by lia; apply vec_at_insert_eq; lia|].
    split; [intros Hc; contradiction|].
    intros _. apply vec_at_insert_eq. rewrite length_insert. lia.
  - rewrite vec_at_insert_ne by lia. rewrite Hvy. cbn [bind].
    rewrite assign_V_in_range by (fields; rewrite length_insert; lia).
    eexists. split; [reflexivity|]. split; [reflexivity|]. split; [reflexivity|]. fields.
    split; [rewrite vec_at_insert_ne by lia; apply vec_at_insert_eq; lia|].
    split; [|intros Hc; contradiction].
    intros _. apply vec_at_insert_eq. rewrite length_insert. lia.
Qed.

Lemma SUBN_result_and_flag_witness :
  well_formed subn_demo = true /\ 0 <= 0 < 15 /\ 0 <= 1 < 16 /\
  fetches subn_demo (0x8007 + 0x100 * 0 + 0x10 * 1) /\
  exists vx vy s',
    vec_at (V subn_demo) 0 = Done vx /\ vec_at (V subn_demo) 1 = Done vy /\
    ExecuteInst subn_demo = Done s' /\
    vec_at (V s') 15 = Done (if vy >? vx then 1 else 0) /\
    (1 <> 15 -> vec_at (V s') 0 = Done ((vy - vx) mod 256)) /\
    (1 = 15 -> vec_at (V s') 0 = Done (((if vy >? vx then 1 else 0) - vx) mod 256)).
Proof.
  assert (well_formed subn_demo = true) as Hwf by (vm_compute; reflexivity).
  assert (fetches subn_demo (0x8007 + 0x100 * 0 + 0x10 * 1)) as Hf
    by (split; vm_compute; reflexivity).
  split; [exact Hwf|]. split; [lia|]. split; [lia|]. split; [exact Hf|].
  exact (SUBN_result_and_flag subn_demo 0 1 Hwf ltac:(lia) ltac:(lia) Hf).
Defined.

(** ** Skips on two registers, and the clearing of the display *)

Lemma ExecuteInst_uxyn (s : Chip_8) (u x y n : Z) :
  well_formed s = true ->
  1 <= u < 16 -> 0 <= x < 16 -> 0 <= y < 16 -> 0 <= n < 16 ->
  fetches s (0x1000 * u + 0x100 * x + 0x10 * y + n) ->
  ExecuteInst s =
    dispatch (0x1000 * u + 0x100 * x + 0x10 * y + n) (0x100 * x + 0x10 * y + n) n x y
             (int8_t (0x10 * y + n)) u n (set_PC s (PC s + 2)) /\
  (0x1000 * u + 0x100 * x + 0x10 * y + n =? CLS) = false /\
  (0x1000 * u + 0x100 * x + 0x10 * y + n =? RET) = false.
Proof.
  intros Hwf Hu Hx Hy Hn Hf.
  destruct (PC_advance s _ Hwf Hf) as (HPC0 & HPC1 & HPC2).
  rewrite (ExecuteInst_fetch s (0x1000 * u + 0x100 * x + 0x10 * y + n))
    by (lia || assumption).
  rewrite HPC2. unfold CLS, RET.
  split; [|split; apply Z.eqb_neq; lia].
  f_equal; try (f_equal; euclid); euclid.
Qed.

(** X18.  5xyN skips the next instruction exactly when [V[x]] and [V[y]]
    are equal, and 9xyN exactly when they differ; both compare the
    registers as the bytes they are, and neither looks at the last nibble
    [N].  Nothing but [PC] changes. *)
Theorem skips_on_two_registers (s : Chip_8) (u x y n : Z) :
  well_formed s = true -> u = 5 \/ u = 9 ->
  0 <= x < 16 -> 0 <= y < 16 -> 0 <= n < 16 ->
  fetches s (0x1000 * u + 0x100 * x + 0x10 * y + n) ->
  exists vx vy,
    vec_at (V s) x = Done vx /\ vec_at (V s) y = Done vy /\
    ExecuteInst s
    = Done (set_PC s (if Bool.eqb (vx =? vy) (u =? 5) then PC s + 4 else PC s + 2)).
Proof.
  intros Hwf Hu Hx Hy Hn Hf.
  destruct (wf_V_ex s x Hwf Hx) as (vx & Hvx & Rx).
  destruct (wf_V_ex s y Hwf Hy) as (vy & Hvy & Ry).
  exists vx, vy. split; [exact Hvx|]. split; [exact Hvy|].
  destruct (PC_advance s _ Hwf Hf) as (HPC0 & HPC1 & HPC2).
  destruct (ExecuteInst_uxyn s u x y n Hwf ltac:(lia) Hx Hy Hn Hf) as (-> & Hc & Hr).
  unfold dispatch. rewrite Hc, Hr.
  assert (uint16_t (PC s + 2 + 2) = PC s + 4) as H4
    by (unfold uint16_t; rewrite Z.mod_small; lia).
  destruct Hu as [-> | ->]; cbv iota; unfold op_SE, op_SNE, skip_if; fields;
    rewrite Hvx, Hvy; cbn [bind]; fields; rewrite H4;
    destruct (vx =? vy); reflexivity.
Qed.

Lemma skips_on_two_registers_witness :
  well_formed skip_demo = true /\ (5 = 5 \/ 5 = 9) /\
  0 <= 0 < 16 /\ 0 <= 1 < 16 /\ 0 <= 15 < 16 /\
  fetches skip_demo (0x1000 * 5 + 0x100 * 0 + 0x10 * 1 + 15) /\
  exists vx vy,
    vec_at (V skip_demo) 0 = Done vx /\ vec_at (V skip_demo) 1 = Done vy /\
    ExecuteInst skip_demo
    = Done (set_PC skip_demo
              (if Bool.eqb (vx =? vy) (5 =? 5)
               then PC skip_demo + 4 else PC skip_demo + 2)).
Proof.
  assert (well_formed skip_demo = true) as Hwf by (vm_compute; reflexivity).
  assert (fetches skip_demo (0x1000 * 5 + 0x100 * 0 + 0x10 * 1 + 15)) as Hf
    by (split; vm_compute; reflexivity).
  split; [exact Hwf|]. split; [left; reflexivity|].
  split; [lia|]. split; [lia|]. split; [lia|]. split; [exact Hf|].
  exact (skips_on_two_registers skip_demo 5 0 1 15 Hwf (or_introl eq_refl)
           ltac:(lia) ltac:(lia) ltac:(lia) Hf).
Defined.

(** X19.  00E0 leaves every one of the 2048 pixels at 0 and changes nothing
    else but [PC]. *)
Theorem CLS_clears_every_pixel (s : Chip_8) :
  well_formed s = true -> fetches s 0x00E0 ->
  ExecuteInst s = Done (set_PC (set_pixels s (repeat 0 2048)) (PC s + 2)).
Proof.
  intros Hwf Hf. pose proof Hwf as Hw%well_formed_facts.
  destruct (PC_advance s _ Hwf Hf) as (HPC0 & HPC1 & HPC2).
  rewrite (ExecuteInst_fetch s 0x00E0) by (lia || assumption). rewrite HPC2.
  unfold dispatch. change (0xE0 =? CLS) with true. cbv iota. unfold op_CLS. fields.
  replace (length (pixels s)) with 2048%nat
    by (apply Nat2Z.inj; rewrite (wf_pixels_len s Hw); reflexivity).
  reflexivity.
Qed.

Lemma CLS_clears_every_pixel_witness :
  well_formed cls_demo = true /\ fetches cls_demo 0x00E0 /\
  ExecuteInst cls_demo
  = Done (set_PC (set_pixels cls_demo (repeat 0 2048)) (PC cls_demo + 2)).
Proof.
  assert (well_formed cls_demo = true) as Hwf by (vm_compute; reflexivity).
  assert (fetches cls_demo 0x00E0) as Hf by (split; vm_compute; reflexivity).
  split; [exact Hwf|]. split; [exact Hf|].
  exact (CLS_clears_every_pixel cls_demo Hwf Hf).
Defined.

(** ** Random numbers *)

Lemma land_int8_t (r kk : Z) :
  0 <= r < 256 -> 0 <= kk < 256 -> uint8_t (Z.land r (int8_t kk)) = Z.land r kk.
Proof.
  intros Hr Hk. unfold uint8_t. change 256 with (2 ^ 8) in *.
  rewrite <- Z.land_ones by lia. apply Z.bits_inj'. intros n Hn.
  rewrite !Z.land_spec. destruct (Z.ltb_spec n 8).
  - rewrite Z.ones_spec_low, andb_true_r by lia. f_equal.
    assert (int8_t kk mod 2 ^ 8 = kk) as Hm by (unfold int8_t; euclid).
    rewrite <- (Z.mod_pow2_bits_low (int8_t kk) 8 n) by lia. rewrite Hm. reflexivity.
  - rewrite Z.ones_spec_high, andb_false_r by lia.
    rewrite <- (Z.mod_small r (2 ^ 8)) by exact Hr.
    rewrite Z.mod_pow2_bits_high by lia. reflexivity.
Qed.

(** X20.  Cxkk takes the next value of the random sequence, leaves its
    bitwise AND with the byte [kk] in [V[x]] and moves on in the sequence by
    one; the sign that [kk] has as an [int8_t] does not show in the result. *)
Theorem RND_masks_the_random_byte (s : Chip_8) (x kk : Z) :
  well_formed s = true -> 0 <= x < 16 -> 0 <= kk < 256 ->
  fetches s (0xC000 + 0x100 * x + kk) ->
  0 <= randomSeed s (randGen s) < 256 ->
  ExecuteInst s
  = Done (set_PC (set_randGen
                    (set_V s (<[Z.to_nat x := Z.land (randomSeed s (randGen s)) kk]> (V s)))
                    (Datatypes.S (randGen s)))
                 (PC s + 2)).
Proof.
  intros Hwf Hx Hk Hf Hr. pose proof Hwf as Hw%well_formed_facts.
  destruct (PC_advance s _ Hwf Hf) as (HPC0 & HPC1 & HPC2).
  rewrite (dispatch_xkk s 12 x kk) by (lia || assumption).
  past_00E0_00EE. rewrite HPC2. unfold op_RND. fields.
  rewrite assign_V_in_range by (fields; rewrite (wf_V_len s Hw); lia).
  fields. rewrite land_int8_t by assumption. reflexivity.
Qed.

Lemma RND_masks_the_random_byte_witness :
  well_formed rnd_demo = true /\ 0 <= 0 < 16 /\ 0 <= 0xF0 < 256 /\
  fetches rnd_demo (0xC000 + 0x100 * 0 + 0xF0) /\
  0 <= randomSeed rnd_demo (randGen rnd_demo) < 256 /\
  ExecuteInst rnd_demo
  = Done (set_PC (set_randGen
                    (set_V rnd_demo
                       (<[Z.to_nat 0 := Z.land (randomSeed rnd_demo (randGen rnd_demo)) 0xF0]>
                          (V rnd_demo)))
                    (Datatypes.S (randGen rnd_demo)))
                 (PC rnd_demo + 2)).
Proof.
  assert (well_formed rnd_demo = true) as Hwf by (vm_compute; reflexivity).
  assert (fetches rnd_demo (0xC000 + 0x100 * 0 + 0xF0)) as Hf
    by (split; vm_compute; reflexivity).
  assert (randomSeed rnd_demo (randGen rnd_demo) = 0xAB) as Er
    by (vm_compute; reflexivity).
  assert (0 <= randomSeed rnd_demo (randGen rnd_demo) < 256) as Hr
    by (rewrite Er; lia).
  split; [exact Hwf|]. split; [lia|]. split; [lia|]. split; [exact Hf|].
  split; [exact Hr|].
  exact (RND_masks_the_random_byte rnd_demo 0 0xF0 Hwf ltac:(lia) ltac:(lia) Hf Hr).
Defined.

(** ** The font *)

Lemma vec_at_app_l {A : Type} (l1 l2 : list A) (i : Z) :
  i < Z.of_nat (length l1) -> vec_at (l1 ++ l2) i = vec_at l1 i.
Proof.
  intros Hi. unfold vec_at. destruct (Z.ltb_spec i 0); [reflexivity|].
  rewrite lookup_app_l by lia. reflexivity.
Qed.

Lemma vec_at_app_r {A : Type} (l1 l2 : list A) (i : Z) :
  0 <= i -> vec_at (l1 ++ l2) (Z.of_nat (length l1) + i) = vec_at l2 i.
Proof.
  intros Hi. unfold vec_at.
  destruct (Z.ltb_spec (Z.of_nat (length l1) + i) 0); [lia|].
  destruct (Z.ltb_spec i 0); [lia|].
  rewrite lookup_app_r by lia.
  replace (Z.to_nat (Z.of_nat (length l1) + i) - length l1)%nat with (Z.to_nat i) by lia.
  reflexivity.
Qed.

(** What the constructor leaves in the memory: the jump to 0x200, the 80
    bytes of the font, and zeros. *)
Lemma Chip_8_new_mem rnd :
  mem (Chip_8_new rnd) = [0x12; 0x00] ++ (font ++ repeat 0 4014).
Proof. vm_compute. reflexivity. Qed.

Lemma Chip_8_new_font rnd (k : Z) :
  0 <= k < 80 -> vec_at (mem (Chip_8_new rnd)) (FONT_ADDRESS + k) = vec_at font k.
Proof.
  intros Hk. rewrite Chip_8_new_mem.
  change FONT_ADDRESS with (Z.of_nat (length [0x12; 0x00])).
  rewrite vec_at_app_r by lia. apply vec_at_app_l. cbn [length font]. lia.
Qed.

(** X21.  Fx29 leaves [FONT_ADDRESS + 5 * V[x]] in the index register and
    changes nothing else.  For a digit, [V[x]] from 0 to 15, that is the
    address at which the constructor put the five rows of the digit's glyph,
    the rows [5 * V[x]] to [5 * V[x] + 4] of [font]. *)
Theorem LD_F_points_at_the_glyph (s : Chip_8) (x : Z) :
  well_formed s = true -> 0 <= x < 16 ->
  fetches s (0xF029 + 0x100 * x) ->
  exists vx,
    vec_at (V s) x = Done vx /\
    ExecuteInst s = Done (set_PC (set_VI s (FONT_ADDRESS + 5 * vx)) (PC s + 2)) /\
    (vx <= 15 ->
     forall i, 0 <= i < 5 ->
       vec_at (mem (Chip_8_new (randomSeed s))) (FONT_ADDRESS + 5 * vx + i)
       = vec_at font (5 * vx + i)).
Proof.
  intros Hwf Hx Hf.
  destruct (wf_V_ex s x Hwf Hx) as (vx & Hvx & Rx).
  exists vx. split; [exact Hvx|].
  replace (0xF029 + 0x100 * x) with (0xF000 + 0x100 * x + 0x29) in Hf by lia.
  destruct (ExecuteInst_Fxkk s x 0x29 Hwf Hx ltac:(lia) Hf) as [-> Hb].
  unfold op_F. fields. rewrite Hb. cbn [bind]. rewrite Hvx. cbn [bind].
  split.
  - unfold uint16_t, FONT_ADDRESS. rewrite Z.mod_small by lia.
    replace (2 + vx * 5) with (2 + 5 * vx) by lia. reflexivity.
  - intros Hd i Hi. rewrite <- Z.add_assoc. apply Chip_8_new_font. lia.
Qed.

Lemma LD_F_points_at_the_glyph_witness :
  well_formed font_demo = true /\ 0 <= 3 < 16 /\
  fetches font_demo (0xF029 + 0x100 * 3) /\
  exists vx,
    vec_at (V font_demo) 3 = Done vx /\
    ExecuteInst font_demo
    = Done (set_PC (set_VI font_demo (FONT_ADDRESS + 5 * vx)) (PC font_demo + 2)) /\
    (vx <= 15 ->
     forall i, 0 <= i < 5 ->
       vec_at (mem (Chip_8_new (randomSeed font_demo))) (FONT_ADDRESS + 5 * vx + i)
       = vec_at font (5 * vx + i)).
Proof.
  assert (well_formed font_demo = true) as Hwf by (vm_compute; reflexivity).
  assert (fetches font_demo (0xF029 + 0x100 * 3)) as Hf
    by (split; vm_compute; reflexivity).
  split; [exact Hwf|]. split; [lia|]. split; [exact Hf|].
  exact (LD_F_points_at_the_glyph font_demo 3 Hwf ltac:(lia) Hf).
Defined.

(** ** The delay timer, written and read back *)

Lemma RunCycle_after (s t : Chip_8) :
  ExecuteInst s = Done t ->
  0 <= delayTimer t < 256 -> 0 <= soundTimer t < 256 ->
  exists t', RunCycle s = Done t' /\
    only_changes [f_delayTimer; f_soundTimer] t t' /\
    delayTimer t' = Z.max 0 (delayTimer t - 1) /\
    soundTimer t' = Z.max 0 (soundTimer t - 1).
Proof.
  intros He Hd Hs. unfold RunCycle. rewrite He. cbn [bind].
  eexists. split; [reflexivity|]. unfold uint8_t.
  destruct (Z.gtb_spec (delayTimer t) 0); fields;
    destruct (Z.gtb_spec (soundTimer t) 0); fields;
    (split; [footprint|]); fields; rewrite ?Z.mod_small by lia; lia.
Qed.

(** X22.  A cycle that executes Fx15 leaves [V[x]] less 1 in the delay
    timer, or 0 when [V[x]] is 0: [RunCycle] takes its 1 off after the
    instruction.  When the next cycle executes Fx07 it reads that value into
    its register, and the timer ends that cycle another 1 lower. *)
Theorem delay_timer_set_and_read_back (s : Chip_8) (x y : Z) :
  well_formed s = true -> 0 <= x < 16 -> 0 <= y < 16 ->
  fetches s (0xF015 + 0x100 * x) ->
  exists vx s1,
    vec_at (V s) x = Done vx /\ RunCycle s = Done s1 /\
    delayTimer s1 = Z.max 0 (vx - 1) /\
    (fetches s1 (0xF007 + 0x100 * y) ->
     exists s2,
       RunCycle s1 = Done s2 /\
       vec_at (V s2) y = Done (Z.max 0 (vx - 1)) /\
       delayTimer s2 = Z.max 0 (vx - 2)).
Proof.
  intros Hwf Hx Hy Hf. pose proof Hwf as Hw%well_formed_facts.
  destruct (wf_V_ex s x Hwf Hx) as (vx & Hvx & Rx).
  exists vx.
  replace (0xF015 + 0x100 * x) with (0xF000 + 0x100 * x + 0x15) in Hf by lia.
  destruct (ExecuteInst_Fxkk s x 0x15 Hwf Hx ltac:(lia) Hf) as [He Hb].
  unfold op_F in He. fields. rewrite Hb in He. cbn [bind] in He.
  rewrite Hvx in He. cbn [bind] in He.
  destruct (RunCycle_after s _ He) as (s1 & Hr1 & F1 & D1 & _);
    [exact Rx | apply (wf_sound s Hw) |].
  fields. exists s1. split; [exact Hvx|]. split; [exact Hr1|]. split; [exact D1|].
  intros Hf1. pose proof (RunCycle_wf s s1 Hwf Hr1) as Hwf1.
  pose proof Hwf1 as Hw1%well_formed_facts.
  replace (0xF007 + 0x100 * y) with (0xF000 + 0x100 * y + 0x07) in Hf1 by lia.
  destruct (ExecuteInst_Fxkk s1 y 0x07 Hwf1 Hy ltac:(lia) Hf1) as [He1 Hb1].
  unfold op_F in He1. fields. rewrite Hb1 in He1. cbn [bind] in He1.
  rewrite assign_V_in_range in He1 by (fields; rewrite (wf_V_len s1 Hw1); lia).
  fields.
  destruct (RunCycle_after s1 _ He1) as (s2 & Hr2 & F2 & D2 & _);
    [apply (wf_delay s1 Hw1) | apply (wf_sound s1 Hw1) |].
  fields. exists s2. split; [exact Hr2|]. split.
  - assert (V s2 = <[Z.to_nat y := delayTimer s1]> (V s1)) as ->
      by (apply (F2 f_V); cbn; intuition discriminate).
    rewrite vec_at_insert_eq by (rewrite (wf_V_len s1 Hw1); lia).
    rewrite D1. reflexivity.
  - rewrite D2, D1. lia.
Qed.

Lemma delay_timer_set_and_read_back_witness :
  well_formed delay_demo = true /\ 0 <= 0 < 16 /\ 0 <= 1 < 16 /\
  fetches delay_demo (0xF015 + 0x100 * 0) /\
  exists vx s1,
    vec_at (V delay_demo) 0 = Done vx /\ RunCycle delay_demo = Done s1 /\
    delayTimer s1 = Z.max 0 (vx - 1) /\
    (fetches s1 (0xF007 + 0x100 * 1) ->
     exists s2,
       RunCycle s1 = Done s2 /\
       vec_at (V s2) 1 = Done (Z.max 0 (vx - 1)) /\
       delayTimer s2 = Z.max 0 (vx - 2)).
Proof.
  assert (well_formed delay_demo = true) as Hwf by (vm_compute; reflexivity).
  assert (fetches delay_demo (0xF015 + 0x100 * 0)) as Hf
    by (split; vm_compute; reflexivity).
  split; [exact Hwf|]. split; [lia|]. split; [lia|]. split; [exact Hf|].
  exact (delay_timer_set_and_read_back delay_demo 0 1 Hwf ltac:(lia) ltac:(lia) Hf).
Defined.

(** ** Fx33 *)

(** X23.  Fx33 with the index register at most 4093 leaves the hundreds,
    the tens and the ones of [V[x]] at the addresses [VI], [VI + 1] and
    [VI + 2] and changes no other byte of the memory.  With the index
    register above 4093 its first store, at [VI + 2], is outside the
    memory. *)
Theorem BCD_stores_three_digits (s : Chip_8) (x : Z) :
  well_formed s = true -> 0 <= x < 16 ->
  fetches s (0xF033 + 0x100 * x) ->
  exists vx,
    vec_at (V s) x = Done vx /\
    (VI s + 2 < 4096 ->
     exists s',
       ExecuteInst s = Done s' /\
       vec_at (mem s') (VI s) = Done (vx / 100) /\
       vec_at (mem s') (VI s + 1) = Done ((vx / 10) mod 10) /\
       vec_at (mem s') (VI s + 2) = Done (vx mod 10) /\
       (forall a, 0 <= a -> ~ (VI s <= a <= VI s + 2) ->
          vec_at (mem s') a = vec_at (mem s) a)) /\
    (4096 <= VI s + 2 -> ExecuteInst s = OutOfRange).
Proof.
  intros Hwf Hx Hf. pose proof Hwf as Hw%well_formed_facts.
  destruct (wf_V_ex s x Hwf Hx) as (vx & Hvx & Rx).
  pose proof (wf_mem_len s Hw) as Hlen. pose proof (wf_VI s Hw) as HVI.
  exists vx. split; [exact Hvx|].
  replace (0xF033 + 0x100 * x) with (0xF000 + 0x100 * x + 0x33) in Hf by lia.
  destruct (ExecuteInst_Fxkk s x 0x33 Hwf Hx ltac:(lia) Hf) as [-> Hb].
  unfold op_F. fields. rewrite Hb. cbn [bind]. unfold op_BCD. fields.
  rewrite Hvx. cbn [bind]. unfold assign_mem. fields.
  split.
  - intros Hin.
    rewrite vec_set_in_range by lia. cbn [bind]. fields.
    rewrite vec_set_in_range by (rewrite length_insert; lia). cbn [bind]. fields.
    rewrite vec_set_in_range by (rewrite !length_insert; lia). cbn [bind].
    eexists. split; [reflexivity|]. fields.
    replace (uint8_t (uint16_t vx mod 10)) with (vx mod 10)
      by (unfold uint8_t, uint16_t; euclid).
    replace (uint8_t (uint16_t (uint16_t vx / 10) mod 10)) with ((vx / 10) mod 10)
      by (unfold uint8_t, uint16_t; euclid).
    replace (uint8_t (uint16_t (uint16_t (uint16_t vx / 10) / 10) mod 10)) with (vx / 100)
      by (unfold uint8_t, uint16_t; euclid).
    replace (VI s + 0) with (VI s) by lia.
    split; [apply vec_at_insert_eq; rewrite !length_insert; lia|].
    split; [rewrite vec_at_insert_ne by lia;
            apply vec_at_insert_eq; rewrite !length_insert; lia|].
    split; [rewrite !vec_at_insert_ne by lia; apply vec_at_insert_eq; lia|].
    intros a Ha Hout. rewrite !vec_at_insert_ne by lia. reflexivity.
  - intros Hout. unfold vec_set.
    destruct (Z.ltb_spec (VI s + 2) (Z.of_nat (length (mem s)))); [lia|].
    rewrite andb_false_r. reflexivity.
Qed.

Lemma BCD_stores_three_digits_witness :
  well_formed bcd_digits_demo = true /\ 0 <= 0 < 16 /\
  fetches bcd_digits_demo (0xF033 + 0x100 * 0) /\
  exists vx,
    vec_at (V bcd_digits_demo) 0 = Done vx /\
    (VI bcd_digits_demo + 2 < 4096 ->
     exists s',
       ExecuteInst bcd_digits_demo = Done s' /\
       vec_at (mem s') (VI bcd_digits_demo) = Done (vx / 100) /\
       vec_at (mem s') (VI bcd_digits_demo + 1) = Done ((vx / 10) mod 10) /\
       vec_at (mem s') (VI bcd_digits_demo + 2) = Done (vx mod 10) /\
       (forall a, 0 <= a -> ~ (VI bcd_digits_demo <= a <= VI bcd_digits_demo + 2) ->
          vec_at (mem s') a = vec_at (mem bcd_digits_demo) a)) /\
    (4096 <= VI bcd_digits_demo + 2 -> ExecuteInst bcd_digits_demo = OutOfRange).
Proof.
  assert (well_formed bcd_digits_demo = true) as Hwf by (vm_compute; reflexivity).
  assert (fetches bcd_digits_demo (0xF033 + 0x100 * 0)) as Hf
    by (split; vm_compute; reflexivity).
  split; [exact Hwf|]. split; [lia|]. split; [exact Hf|].
  exact (BCD_stores_three_digits bcd_digits_demo 0 Hwf ltac:(lia) Hf).
Defined.

(** ** Fx55 and Fx65 *)

Lemma store_loop (k : nat) (i : Z) (s : Chip_8) :
  wf_facts s -> 0 <= i -> i + Z.of_nat k <= 16 -> VI s + i + Z.of_nat k <= 4096 ->
  exists s',
    for_loop k i (fun i s => vi <- vec_at (V s) i ;; assign_mem s (VI s + i) vi) s
    = Done s' /\
    V s' = V s /\ VI s' = VI s /\
    (forall j, i <= j < i + Z.of_nat k -> vec_at (mem s') (VI s + j) = vec_at (V s) j) /\
    (forall a, 0 <= a -> ~ (VI s + i <= a < VI s + i + Z.of_nat k) ->
       vec_at (mem s') a = vec_at (mem s) a).
Proof.
  revert i s. induction k as [|k IH]; intros i s Hw Hi Hk Hin; cbn [for_loop].
  - exists s. split; [reflexivity|]. split; [reflexivity|]. split; [reflexivity|].
    split; [intros j Hj; lia | intros; reflexivity].
  - pose proof (wf_V_len s Hw) as HV. pose proof (wf_mem_len s Hw) as HM.
    pose proof (wf_VI s Hw) as HVI.
    destruct (vec_at_in_range (V s) i) as [vi Hvi]; [lia|].
    rewrite Hvi. cbn [bind]. unfold assign_mem.
    rewrite vec_set_in_range by lia. cbn [bind].
    assert (wf_facts (set_mem s (<[Z.to_nat (VI s + i) := vi]> (mem s)))) as Hw1
      by wf_solve.
    destruct (IH (i + 1) _ Hw1 ltac:(lia) ltac:(lia)) as (s' & E & EV & EI & Hin' & Hout');
      [fields; lia|].
    fields. exists s'. split; [exact E|]. split; [exact EV|]. split; [exact EI|]. split.
    + intros j Hj. destruct (Z.eq_dec j i) as [->|Hne].
      * rewrite Hout' by lia. rewrite vec_at_insert_eq by lia. symmetry. exact Hvi.
      * apply Hin'. lia.
    + intros a Ha Hno. rewrite Hout' by lia. apply vec_at_insert_ne; lia.
Qed.

Lemma store_loop_fails (k : nat) (i : Z) (s : Chip_8) :
  wf_facts s -> 0 <= i -> i + Z.of_nat k <= 16 -> (0 < k)%nat ->
  4096 < VI s + i + Z.of_nat k ->
  for_loop k i (fun i s => vi <- vec_at (V s) i ;; assign_mem s (VI s + i) vi) s
  = OutOfRange.
Proof.
  revert i s. induction k as [|k IH]; intros i s Hw Hi Hk Hpos Hout; [lia|].
  cbn [for_loop].
  pose proof (wf_V_len s Hw) as HV. pose proof (wf_mem_len s Hw) as HM.
  pose proof (wf_VI s Hw) as HVI.
  destruct (vec_at_in_range (V s) i) as [vi Hvi]; [lia|].
  rewrite Hvi. cbn [bind]. unfold assign_mem.
  destruct (Z.ltb_spec (VI s + i) 4096).
  - rewrite vec_set_in_range by lia. cbn [bind].
    assert (wf_facts (set_mem s (<[Z.to_nat (VI s + i) := vi]> (mem s)))) as Hw1
      by wf_solve.
    apply IH; [exact Hw1 | lia | lia | lia | fields; lia].
  - unfold vec_set.
    destruct (Z.ltb_spec (VI s + i) (Z.of_nat (length (mem s)))); [lia|].
    rewrite andb_false_r. reflexivity.
Qed.

Lemma load_loop (k : nat) (i : Z) (s : Chip_8) :
  wf_facts s -> 0 <= i -> i + Z.of_nat k <= 16 -> VI s + i + Z.of_nat k <= 4096 ->
  exists s',
    for_loop k i (fun i s => m <- vec_at (mem s) (VI s + i) ;; assign_V s i m) s
    = Done s' /\
    mem s' = mem s /\ VI s' = VI s /\
    (forall j, i <= j < i + Z.of_nat k -> vec_at (V s') j = vec_at (mem s) (VI s + j)) /\
    (forall j, 0 <= j -> ~ (i <= j < i + Z.of_nat k) -> vec_at (V s') j = vec_at (V s) j).
Proof.
  revert i s. induction k as [|k IH]; intros i s Hw Hi Hk Hin; cbn [for_loop].
  - exists s. split; [reflexivity|]. split; [reflexivity|]. split; [reflexivity|].
    split; [intros j Hj; lia | intros; reflexivity].
  - pose proof (wf_V_len s Hw) as HV. pose proof (wf_mem_len s Hw) as HM.
    pose proof (wf_VI s Hw) as HVI.
    destruct (vec_at_in_range (mem s) (VI s + i)) as [m Hm]; [lia|].
    rewrite Hm. cbn [bind]. unfold assign_V.
    rewrite vec_set_in_range by lia. cbn [bind].
    assert (wf_facts (set_V s (<[Z.to_nat i := m]> (V s)))) as Hw1 by wf_solve.
    destruct (IH (i + 1) _ Hw1 ltac:(lia) ltac:(lia)) as (s' & E & EM & EI & Hin' & Hout');
      [fields; lia|].
    fields. exists s'. split; [exact E|]. split; [exact EM|]. split; [exact EI|]. split.
    + intros j Hj. destruct (Z.eq_dec j i) as [->|Hne].
      * rewrite Hout' by lia. rewrite vec_at_insert_eq by lia. symmetry. exact Hm.
      * apply Hin'. lia.
    + intros j Hj Hno. rewrite Hout' by lia. apply vec_at_insert_ne; lia.
Qed.

Lemma load_loop_fails (k : nat) (i : Z) (s : Chip_8) :
  wf_facts s -> 0 <= i -> i + Z.of_nat k <= 16 -> (0 < k)%nat ->
  4096 < VI s + i + Z.of_nat k ->
  for_loop k i (fun i s => m <- vec_at (mem s) (VI s + i) ;; assign_V s i m) s
  = OutOfRange.
Proof.
  revert i s. induction k as [|k IH]; intros i s Hw Hi Hk Hpos Hout; [lia|].
  cbn [for_loop].
  pose proof (wf_V_len s Hw) as HV. pose proof (wf_mem_len s Hw) as HM.
  pose proof (wf_VI s Hw) as HVI.
  destruct (Z.ltb_spec (VI s + i) 4096).
  - destruct (vec_at_in_range (mem s) (VI s + i)) as [m Hm]; [lia|].
    rewrite Hm. cbn [bind]. unfold assign_V.
    rewrite vec_set_in_range by lia. cbn [bind].
    assert (wf_facts (set_V s (<[Z.to_nat i := m]> (V s)))) as Hw1 by wf_solve.
    apply IH; [exact Hw1 | lia | lia | lia | fields; lia].
  - rewrite vec_at_out_of_range by lia. reflexivity.
Qed.

Lemma ExecuteInst_LD_I_V (s : Chip_8) (x : Z) :
  well_formed s = true -> 0 <= x < 16 -> fetches s (0xF055 + 0x100 * x) ->
  ExecuteInst s = op_LD_I_V x (set_PC s (PC s + 2)).
Proof.
  intros Hwf Hx Hf.
  replace (0xF055 + 0x100 * x) with (0xF000 + 0x100 * x + 0x55) in Hf by lia.
  destruct (ExecuteInst_Fxkk s x 0x55 Hwf Hx ltac:(lia) Hf) as [-> Hb].
  unfold op_F. fields. rewrite Hb. reflexivity.
Qed.

Lemma ExecuteInst_LD_V_I (s : Chip_8) (x : Z) :
  well_formed s = true -> 0 <= x < 16 -> fetches s (0xF065 + 0x100 * x) ->
  ExecuteInst s = op_LD_V_I x (set_PC s (PC s + 2)).
Proof.
  intros Hwf Hx Hf.
  replace (0xF065 + 0x100 * x) with (0xF000 + 0x100 * x + 0x65) in Hf by lia.
  destruct (ExecuteInst_Fxkk s x 0x65 Hwf Hx ltac:(lia) Hf) as [-> Hb].
  unfold op_F. fields. rewrite Hb. reflexivity.
Qed.

Lemma wf_facts_set_PC (s : Chip_8) (op : Z) :
  well_formed s = true -> fetches s op -> wf_facts (set_PC s (PC s + 2)).
Proof.
  intros Hwf Hf. destruct (PC_advance s _ Hwf Hf) as (HPC0 & HPC1 & HPC2).
  apply well_formed_facts in Hwf. wf_solve.
Qed.

(** X24.  Fx55 with [VI + x] inside the memory copies [V[0]] to [V[x]] to
    the addresses [VI] to [VI + x], changes no other byte of the memory and
    no register, and leaves the index register where it was.  With [VI + x]
    beyond the last address it stores outside the memory. *)
Theorem LD_I_V_stores_the_registers (s : Chip_8) (x : Z) :
  well_formed s = true -> 0 <= x < 16 -> fetches s (0xF055 + 0x100 * x) ->
  (VI s + x < 4096 ->
   exists s',
     ExecuteInst s = Done s' /\
     (forall i, 0 <= i <= x -> vec_at (mem s') (VI s + i) = vec_at (V s) i) /\
     (forall a, 0 <= a -> ~ (VI s <= a <= VI s + x) ->
        vec_at (mem s') a = vec_at (mem s) a) /\
     V s' = V s /\ VI s' = VI s) /\
  (4096 <= VI s + x -> ExecuteInst s = OutOfRange).
Proof.
  intros Hwf Hx Hf. pose proof (wf_facts_set_PC s _ Hwf Hf) as Hw.
  rewrite (ExecuteInst_LD_I_V s x Hwf Hx Hf). unfold op_LD_I_V. split.
  - intros Hin.
    destruct (store_loop (Z.to_nat (x + 1)) 0 _ Hw) as (s' & E & EV & EI & Hi & Ho);
      [lia | lia | fields; lia |].
    fields. exists s'. split; [exact E|].
    split; [intros i Hi'; apply Hi; lia|].
    split; [intros a Ha Hno; apply Ho; lia|].
    split; assumption.
  - intros Hout. apply store_loop_fails; [exact Hw | lia | lia | lia | fields; lia].
Qed.

Lemma LD_I_V_stores_the_registers_witness :
  well_formed store_demo = true /\ 0 <= 1 < 16 /\
  fetches store_demo (0xF055 + 0x100 * 1) /\
  (VI store_demo + 1 < 4096 ->
   exists s',
     ExecuteInst store_demo = Done s' /\
     (forall i, 0 <= i <= 1 ->
        vec_at (mem s') (VI store_demo + i) = vec_at (V store_demo) i) /\
     (forall a, 0 <= a -> ~ (VI store_demo <= a <= VI store_demo + 1) ->
        vec_at (mem s') a = vec_at (mem store_demo) a) /\
     V s' = V store_demo /\ VI s' = VI store_demo) /\
  (4096 <= VI store_demo + 1 -> ExecuteInst store_demo = OutOfRange).
Proof.
  assert (well_formed store_demo = true) as Hwf by (vm_compute; reflexivity).
  assert (fetches store_demo (0xF055 + 0x100 * 1)) as Hf
    by (split; vm_compute; reflexivity).
  split; [exact Hwf|]. split; [lia|]. split; [exact Hf|].
  exact (LD_I_V_stores_the_registers store_demo 1 Hwf ltac:(lia) Hf).
Defined.

(** X25.  Fx65 with [VI + x] inside the memory copies the bytes at [VI] to
    [VI + x] to [V[0]] to [V[x]], changes no register above [V[x]] and no
    byte of the memory, and leaves the index register where it was.  With
    [VI + x] beyond the last address it reads outside the memory. *)
Theorem LD_V_I_loads_the_registers (s : Chip_8) (x : Z) :
  well_formed s = true -> 0 <= x < 16 -> fetches s (0xF065 + 0x100 * x) ->
  (VI s + x < 4096 ->
   exists s',
     ExecuteInst s = Done s' /\
     (forall i, 0 <= i <= x -> vec_at (V s') i = vec_at (mem s) (VI s + i)) /\
     (forall j, x < j -> vec_at (V s') j = vec_at (V s) j) /\
     mem s' = mem s /\ VI s' = VI s) /\
  (4096 <= VI s + x -> ExecuteInst s = OutOfRange).
Proof.
  intros Hwf Hx Hf. pose proof (wf_facts_set_PC s _ Hwf Hf) as Hw.
  rewrite (ExecuteInst_LD_V_I s x Hwf Hx Hf). unfold op_LD_V_I. split.
  - intros Hin.
    destruct (load_loop (Z.to_nat (x + 1)) 0 _ Hw) as (s' & E & EM & EI & Hi & Ho);
      [lia | lia | fields; lia |].
    fields. exists s'. split; [exact E|].
    split; [intros i Hi'; apply Hi; lia|].
    split; [intros j Hj; apply Ho; lia|].
    split; assumption.
  - intros Hout. apply load_loop_fails; [exact Hw | lia | lia | lia | fields; lia].
Qed.

Lemma LD_V_I_loads_the_registers_witness :
  well_formed load_demo = true /\ 0 <= 1 < 16 /\
  fetches load_demo (0xF065 + 0x100 * 1) /\
  (VI load_demo + 1 < 4096 ->
   exists s',
     ExecuteInst load_demo = Done s' /\
     (forall i, 0 <= i <= 1 ->
        vec_at (V s') i = vec_at (mem load_demo) (VI load_demo + i)) /\
     (forall j, 1 < j -> vec_at (V s') j = vec_at (V load_demo) j) /\
     mem s' = mem load_demo /\ VI s' = VI load_demo) /\
  (4096 <= VI load_demo + 1 -> ExecuteInst load_demo = OutOfRange).
Proof.
  assert (well_formed load_demo = true) as Hwf by (vm_compute; reflexivity).
  assert (fetches load_demo (0xF065 + 0x100 * 1)) as Hf
    by (split; vm_compute; reflexivity).
  split; [exact Hwf|]. split; [lia|]. split; [exact Hf|].
  exact (LD_V_I_loads_the_registers load_demo 1 Hwf ltac:(lia) Hf).
Defined.

(** X26.  Registers stored with Fx55 come back with Fx65: after Fx55 with
    [VI + x] inside the memory, an Fx65 for the same [x], executed in any
    state that has the same index register and the bytes at [VI] to
    [VI + x] as the store left them, completes and leaves in [V[0]] to
    [V[x]] the values they had before the store. *)
Theorem store_then_load_restores (s : Chip_8) (x : Z) :
  well_formed s = true -> 0 <= x < 16 -> fetches s (0xF055 + 0x100 * x) ->
  VI s + x < 4096 ->
  exists s1,
    ExecuteInst s = Done s1 /\
    forall s2,
      well_formed s2 = true -> fetches s2 (0xF065 + 0x100 * x) ->
      VI s2 = VI s1 ->
      (forall i, 0 <= i <= x -> vec_at (mem s2) (VI s + i) = vec_at (mem s1) (VI s + i)) ->
      exists s3,
        ExecuteInst s2 = Done s3 /\
        forall i, 0 <= i <= x -> vec_at (V s3) i = vec_at (V s) i.
Proof.
  intros Hwf Hx Hf Hin. pose proof (wf_facts_set_PC s _ Hwf Hf) as Hw.
  rewrite (ExecuteInst_LD_I_V s x Hwf Hx Hf). unfold op_LD_I_V.
  destruct (store_loop (Z.to_nat (x + 1)) 0 _ Hw) as (s1 & E & EV & EI & Hi & Ho);
    [lia | lia | fields; lia |].
  fields. exists s1. split; [exact E|].
  intros s2 Hwf2 Hf2 HVI Hmem. pose proof (wf_facts_set_PC s2 _ Hwf2 Hf2) as Hw2.
  rewrite (ExecuteInst_LD_V_I s2 x Hwf2 Hx Hf2). unfold op_LD_V_I.
  destruct (load_loop (Z.to_nat (x + 1)) 0 _ Hw2) as (s3 & E3 & _ & _ & Hi3 & _);
    [lia | lia | fields; lia |].
  fields. exists s3. split; [exact E3|].
  intros i Hi'. rewrite Hi3 by lia. rewrite HVI, EI.
  rewrite Hmem by lia. apply Hi. lia.
Qed.

Lemma store_then_load_restores_witness :
  well_formed store_demo = true /\ 0 <= 1 < 16 /\
  fetches store_demo (0xF055 + 0x100 * 1) /\ VI store_demo + 1 < 4096 /\
  exists s1,
    ExecuteInst store_demo = Done s1 /\
    forall s2,
      well_formed s2 = true -> fetches s2 (0xF065 + 0x100 * 1) ->
      VI s2 = VI s1 ->
      (forall i, 0 <= i <= 1 ->
         vec_at (mem s2) (VI store_demo + i) = vec_at (mem s1) (VI store_demo + i)) ->
      exists s3,
        ExecuteInst s2 = Done s3 /\
        forall i, 0 <= i <= 1 -> vec_at (V s3) i = vec_at (V store_demo) i.
Proof.
  assert (well_formed store_demo = true) as Hwf by (vm_compute; reflexivity).
  assert (fetches store_demo (0xF055 + 0x100 * 1)) as Hf
    by (split; vm_compute; reflexivity).
  assert (VI store_demo + 1 < 4096) as Hin by (vm_compute; reflexivity).
  split; [exact Hwf|]. split; [lia|]. split; [exact Hf|]. split; [exact Hin|].
  exact (store_then_load_restores store_demo 1 Hwf ltac:(lia) Hf Hin).
Defined.

(** ** Keys *)

Lemma first_down_None (ks : list keyState) (i : Z) :
  (forall n, (n < length ks)%nat -> ks !! n = Some UP) -> first_down ks i = None.
Proof.
  revert i. induction ks as [|k ks IH]; intros i Hup; cbn [first_down]; [reflexivity|].
  pose proof (Hup 0%nat ltac:(cbn [length]; lia)) as H0. cbn in H0. injection H0 as ->.
  cbn [keyState_eqb]. apply IH. intros n Hn. apply (Hup (Datatypes.S n)). cbn [length]. lia.
Qed.

Lemma first_down_Some (ks : list keyState) (i : Z) (n : nat) :
  ks !! n = Some DOWN -> (forall m, (m < n)%nat -> ks !! m = Some UP) ->
  first_down ks i = Some (i + Z.of_nat n).
Proof.
  revert i n. induction ks as [|k ks IH]; intros i n Hn Hup; [discriminate Hn|].
  destruct n as [|n].
  - cbn in Hn. injection Hn as ->. cbn [first_down keyState_eqb]. f_equal. lia.
  - pose proof (Hup 0%nat ltac:(lia)) as H0. cbn in H0. injection H0 as ->.
    cbn [first_down keyState_eqb]. rewrite (IH (i + 1) n).
    + f_equal. lia.
    + exact Hn.
    + intros m Hm. apply (Hup (Datatypes.S m)). lia.
Qed.

(** X27.  Fx0A with no key down leaves the machine exactly as it was, [PC]
    back on the instruction, so the next call executes it again.  With a key
    down it leaves the index of the lowest key that is down in [V[x]] and
    goes on to the next instruction. *)
Theorem LD_K_waits_for_the_lowest_key (s : Chip_8) (x : Z) :
  well_formed s = true -> 0 <= x < 16 -> fetches s (0xF00A + 0x100 * x) ->
  ((forall j, 0 <= j < 16 -> vec_at (keys s) j = Done UP) -> ExecuteInst s = Done s) /\
  (forall k,
     vec_at (keys s) k = Done DOWN ->
     (forall j, 0 <= j < k -> vec_at (keys s) j = Done UP) ->
     ExecuteInst s = Done (set_PC (set_V s (<[Z.to_nat x := k]> (V s))) (PC s + 2))).
Proof.
  intros Hwf Hx Hf. pose proof Hwf as Hw%well_formed_facts.
  destruct (PC_advance s _ Hwf Hf) as (HPC0 & HPC1 & HPC2).
  pose proof (wf_keys_len s Hw) as Hkl.
  replace (0xF00A + 0x100 * x) with (0xF000 + 0x100 * x + 0x0A) in Hf by lia.
  destruct (ExecuteInst_Fxkk s x 0x0A Hwf Hx ltac:(lia) Hf) as [-> Hb].
  unfold op_F. fields. rewrite Hb. cbn [bind]. unfold op_LD_K. fields.
  split.
  - intros Hup. rewrite first_down_None.
    + replace (uint16_t (PC s + 2 - 2)) with (PC s)
        by (unfold uint16_t; rewrite Z.mod_small; lia).
      destruct s. reflexivity.
    + intros n Hn. specialize (Hup (Z.of_nat n) ltac:(lia)).
      apply vec_at_Done in Hup as [_ Hup]. rewrite Nat2Z.id in Hup. exact Hup.
  - intros k Hk Hup. pose proof (vec_at_bounds _ _ _ Hk) as Rk.
    apply vec_at_Done in Hk as [_ Hk].
    rewrite (first_down_Some (keys s) 0 (Z.to_nat k) Hk).
    + rewrite assign_V_in_range by (fields; rewrite (wf_V_len s Hw); lia).
      replace (uint8_t (0 + Z.of_nat (Z.to_nat k))) with k
        by (unfold uint8_t; rewrite Z.mod_small; lia).
      reflexivity.
    + intros m Hm. specialize (Hup (Z.of_nat m) ltac:(lia)).
      apply vec_at_Done in Hup as [_ Hup]. rewrite Nat2Z.id in Hup. exact Hup.
Qed.

Lemma LD_K_waits_for_the_lowest_key_witness :
  well_formed key_demo = true /\ 0 <= 3 < 16 /\ fetches key_demo (0xF00A + 0x100 * 3) /\
  ((forall j, 0 <= j < 16 -> vec_at (keys key_demo) j = Done UP) ->
   ExecuteInst key_demo = Done key_demo) /\
  (forall k,
     vec_at (keys key_demo) k = Done DOWN ->
     (forall j, 0 <= j < k -> vec_at (keys key_demo) j = Done UP) ->
     ExecuteInst key_demo
     = Done (set_PC (set_V key_demo (<[Z.to_nat 3 := k]> (V key_demo)))
                    (PC key_demo + 2))).
Proof.
  assert (well_formed key_demo = true) as Hwf by (vm_compute; reflexivity).
  assert (fetches key_demo (0xF00A + 0x100 * 3)) as Hf
    by (split; vm_compute; reflexivity).
  split; [exact Hwf|]. split; [lia|]. split; [exact Hf|].
  exact (LD_K_waits_for_the_lowest_key key_demo 3 Hwf ltac:(lia) Hf).
Defined.

(** X28.  With [V[x]] at most 15, Ex9E skips the next instruction exactly
    when the key [V[x]] is down and ExA1 exactly when it is up; nothing but
    [PC] changes. *)
Theorem key_skips_on_a_valid_key (s : Chip_8) (x vx : Z) :
  well_formed s = true -> 0 <= x < 16 ->
  vec_at (V s) x = Done vx -> vx <= 15 ->
  exists k,
    vec_at (keys s) vx = Done k /\
    (fetches s (0xE09E + 0x100 * x) ->
     ExecuteInst s
     = Done (set_PC s (if keyState_eqb k DOWN then PC s + 4 else PC s + 2))) /\
    (fetches s (0xE0A1 + 0x100 * x) ->
     ExecuteInst s
     = Done (set_PC s (if keyState_eqb k UP then PC s + 4 else PC s + 2))).
Proof.
  intros Hwf Hx Hvx Hle. pose proof Hwf as Hw%well_formed_facts.
  pose proof (wf_V_at s x vx Hwf Hvx) as Rx.
  destruct (vec_at_in_range (keys s) vx) as [k Hk];
    [rewrite (wf_keys_len s Hw); lia|].
  exists k. split; [exact Hk|]. split; intros Hf;
    destruct (PC_advance s _ Hwf Hf) as (HPC0 & HPC1 & HPC2);
    assert (uint16_t (PC s + 2 + 2) = PC s + 4) as H4
      by (unfold uint16_t; rewrite Z.mod_small; lia).
  - replace (0xE09E + 0x100 * x) with (0xE000 + 0x100 * x + 0x9E) in Hf by lia.
    destruct (ExecuteInst_Exkk s x 0x9E Hwf Hx ltac:(lia) Hf) as [-> Hb].
    unfold op_SKP. fields. rewrite Hb. cbn [bind Z.eqb Pos.eqb].
    rewrite Hvx. cbn [bind].
    destruct (Z.gtb_spec vx 15); [lia|]. rewrite Hk. cbn [bind].
    unfold skip_if. fields. rewrite H4. destruct (keyState_eqb k DOWN); reflexivity.
  - replace (0xE0A1 + 0x100 * x) with (0xE000 + 0x100 * x + 0xA1) in Hf by lia.
    destruct (ExecuteInst_Exkk s x 0xA1 Hwf Hx ltac:(lia) Hf) as [-> Hb].
    unfold op_SKP. fields. rewrite Hb. cbn [bind Z.eqb Pos.eqb].
    rewrite Hvx. cbn [bind]. rewrite Hk. cbn [bind].
    unfold skip_if. fields. rewrite H4. destruct (keyState_eqb k UP); reflexivity.
Qed.

Lemma key_skips_on_a_valid_key_witness :
  well_formed skp_valid_demo = true /\ 0 <= 0 < 16 /\
  vec_at (V skp_valid_demo) 0 = Done 7 /\ 7 <= 15 /\
  exists k,
    vec_at (keys skp_valid_demo) 7 = Done k /\
    (fetches skp_valid_demo (0xE09E + 0x100 * 0) ->
     ExecuteInst skp_valid_demo
     = Done (set_PC skp_valid_demo
               (if keyState_eqb k DOWN
                then PC skp_valid_demo + 4 else PC skp_valid_demo + 2))) /\
    (fetches skp_valid_demo (0xE0A1 + 0x100 * 0) ->
     ExecuteInst skp_valid_demo
     = Done (set_PC skp_valid_demo
               (if keyState_eqb k UP
                then PC skp_valid_demo + 4 else PC skp_valid_demo + 2))).
Proof.
  assert (well_formed skp_valid_demo = true) as Hwf by (vm_compute; reflexivity).
  assert (vec_at (V skp_valid_demo) 0 = Done 7) as Hv by (vm_compute; reflexivity).
  split; [exact Hwf|]. split; [lia|]. split; [exact Hv|]. split; [lia|].
  exact (key_skips_on_a_valid_key skp_valid_demo 0 7 Hwf ltac:(lia) Hv ltac:(lia)).
Defined.

(** ** Loading a program *)

Lemma vec_at_cons {A : Type} (a : A) (l : list A) (i : Z) :
  0 < i -> vec_at (a :: l) i = vec_at l (i - 1).
Proof.
  intros Hi. unfold vec_at.
  destruct (Z.ltb_spec i 0); [lia|]. destruct (Z.ltb_spec (i - 1) 0); [lia|].
  replace (Z.to_nat i) with (Datatypes.S (Z.to_nat (i - 1))) by lia. reflexivity.
Qed.

Lemma LoadProgram_from_spec (file : list Z) (pos : Z) (s : Chip_8) :
  Z.of_nat (length (mem s)) = 4096 -> 0 <= pos ->
  pos + Z.of_nat (length file) < 4096 ->
  forallb (in_range 0 256) file = true ->
  exists s',
    LoadProgram_from file pos s = Done s' /\
    (forall i, 0 <= i < Z.of_nat (length file) ->
       vec_at (mem s') (pos + i) = vec_at file i) /\
    vec_at (mem s') (pos + Z.of_nat (length file)) = Done 0xFF /\
    (forall a, 0 <= a -> ~ (pos <= a <= pos + Z.of_nat (length file)) ->
       vec_at (mem s') a = vec_at (mem s) a).
Proof.
  revert pos s. induction file as [|b file IH]; intros pos s Hlen Hpos Hfit Hbytes;
    cbn [LoadProgram_from length] in *.
  - unfold assign_mem. rewrite vec_set_in_range by lia. cbn [bind].
    eexists. split; [reflexivity|]. fields.
    split; [intros i Hi; lia|].
    split; [rewrite Z.add_0_r; apply vec_at_insert_eq; lia|].
    intros a Ha Hno. apply vec_at_insert_ne; lia.
  - apply andb_true_iff in Hbytes as [Hb Hbytes]. apply in_range_spec in Hb.
    unfold assign_mem. rewrite vec_set_in_range by lia. cbn [bind].
    replace (uint8_t b) with b by (unfold uint8_t; rewrite Z.mod_small; lia).
    destruct (IH (pos + 1) (set_mem s (<[Z.to_nat pos := b]> (mem s))))
      as (s' & E & Hin & Heof & Hout);
      [fields; rewrite length_insert; exact Hlen | lia | lia | exact Hbytes |].
    fields. exists s'. split; [exact E|]. split; [|split].
    + intros i Hi. destruct (Z.eq_dec i 0) as [->|Hne].
      * rewrite Hout by lia. rewrite Z.add_0_r.
        rewrite vec_at_insert_eq by lia. reflexivity.
      * rewrite vec_at_cons by lia. rewrite <- Hin by lia. f_equal. lia.
    + rewrite <- Heof. f_equal. lia.
    + intros a Ha Hno. rewrite Hout by lia. apply vec_at_insert_ne; lia.
Qed.

Lemma LoadProgram_from_too_large (file : list Z) (pos : Z) (s : Chip_8) :
  Z.of_nat (length (mem s)) = 4096 -> 0 <= pos ->
  4096 <= pos + Z.of_nat (length file) ->
  LoadProgram_from file pos s = OutOfRange.
Proof.
  revert pos s. induction file as [|b file IH]; intros pos s Hlen Hpos Hbig;
    cbn [LoadProgram_from length] in *.
  - unfold assign_mem, vec_set.
    destruct (Z.ltb_spec pos (Z.of_nat (length (mem s)))); [lia|].
    rewrite andb_false_r. reflexivity.
  - unfold assign_mem. destruct (Z.ltb_spec pos 4096).
    + rewrite vec_set_in_range by lia. cbn [bind].
      apply IH; [fields; rewrite length_insert; exact Hlen | lia | lia].
    + unfold vec_set.
      destruct (Z.ltb_spec pos (Z.of_nat (length (mem s)))); [lia|].
      rewrite andb_false_r. reflexivity.
Qed.

(** X29.  [LoadProgram] puts the bytes of a file of at most 3583 bytes at
    the addresses from 0x200 on, in order, and one more byte after them,
    0xFF: the end-of-file value its loop reads before it stops.  It changes
    no other byte of the memory and no other field.  A file of 3584 bytes
    or more does not fit with that extra byte: the load then stores outside
    the memory. *)
Theorem LoadProgram_stores_the_file_and_one_byte (file : list Z) (s : Chip_8) :
  well_formed s = true -> forallb (in_range 0 256) file = true ->
  (Z.of_nat (length file) <= 3583 ->
   exists s',
     LoadProgram file s = Done s' /\
     (forall i, 0 <= i < Z.of_nat (length file) ->
        vec_at (mem s') (0x200 + i) = vec_at file i) /\
     vec_at (mem s') (0x200 + Z.of_nat (length file)) = Done 0xFF /\
     (forall a, 0 <= a -> ~ (0x200 <= a <= 0x200 + Z.of_nat (length file)) ->
        vec_at (mem s') a = vec_at (mem s) a) /\
     only_changes [f_mem] s s') /\
  (3584 <= Z.of_nat (length file) -> LoadProgram file s = OutOfRange).
Proof.
  intros Hwf%well_formed_facts Hbytes. pose proof (wf_mem_len s Hwf) as Hlen.
  unfold LoadProgram. split.
  - intros Hfit.
    destruct (LoadProgram_from_spec file 0x200 s Hlen ltac:(lia) ltac:(lia) Hbytes)
      as (s' & E & Hin & Heof & Hout).
    exists s'. split; [exact E|]. split; [exact Hin|]. split; [exact Heof|].
    split; [exact Hout|]. eapply LoadProgram_from_footprint, E.
  - intros Hbig. apply LoadProgram_from_too_large; [exact Hlen | lia | lia].
Qed.

Lemma LoadProgram_stores_the_file_and_one_byte_witness :
  well_formed (Chip_8_new (fun _ => 0)) = true /\
  forallb (in_range 0 256) [0xAB; 0xCD] = true /\
  (Z.of_nat (length [0xAB; 0xCD]) <= 3583 ->
   exists s',
     LoadProgram [0xAB; 0xCD] (Chip_8_new (fun _ => 0)) = Done s' /\
     (forall i, 0 <= i < Z.of_nat (length [0xAB; 0xCD]) ->
        vec_at (mem s') (0x200 + i) = vec_at [0xAB; 0xCD] i) /\
     vec_at (mem s') (0x200 + Z.of_nat (length [0xAB; 0xCD])) = Done 0xFF /\
     (forall a, 0 <= a -> ~ (0x200 <= a <= 0x200 + Z.of_nat (length [0xAB; 0xCD])) ->
        vec_at (mem s') a = vec_at (mem (Chip_8_new (fun _ => 0))) a) /\
     only_changes [f_mem] (Chip_8_new (fun _ => 0)) s') /\
  (3584 <= Z.of_nat (length [0xAB; 0xCD]) ->
   LoadProgram [0xAB; 0xCD] (Chip_8_new (fun _ => 0)) = OutOfRange).
Proof.
  assert (well_formed (Chip_8_new (fun _ => 0)) = true) as Hwf
    by (vm_compute; reflexivity).
  assert (forallb (in_range 0 256) [0xAB; 0xCD] = true) as Hb
    by (vm_compute; reflexivity).
  split; [exact Hwf|]. split; [exact Hb|].
  exact (LoadProgram_stores_the_file_and_one_byte [0xAB; 0xCD]
           (Chip_8_new (fun _ => 0)) Hwf Hb).
Defined.

Lemma LoadProgram_from_below (file : list Z) (pos : Z) (s s' : Chip_8) :
  0 <= pos -> LoadProgram_from file pos s = Done s' ->
  forall a, 0 <= a < pos -> vec_at (mem s') a = vec_at (mem s) a.
Proof.
  revert pos s. induction file as [|b file IH]; intros pos s Hpos H a Ha;
    cbn [LoadProgram_from] in H.
  - explicit. fields. apply vec_at_insert_ne; lia.
  - run H. rewrite (IH (pos + 1) a0 ltac:(lia) H a ltac:(lia)).
    explicit. fields. apply vec_at_insert_ne; lia.
Qed.

(** X30.  Whatever file was loaded, the machine starts with [PC] at 0 on
    the jump the constructor put there, and the bytes below 0x200, the jump
    and the font, are those the constructor wrote: the first instruction
    executed puts [PC] at 0x200, the first byte of the file, and changes
    nothing else. *)
Theorem first_instruction_jumps_to_the_program (rnd : nat -> Z) (file : list Z)
    (s : Chip_8) :
  LoadProgram file (Chip_8_new rnd) = Done s ->
  PC s = 0 /\
  (forall a, 0 <= a < 0x200 -> vec_at (mem s) a = vec_at (mem (Chip_8_new rnd)) a) /\
  ExecuteInst s = Done (set_PC s 0x200).
Proof.
  intros H. unfold LoadProgram in H.
  pose proof (LoadProgram_from_wf _ _ _ _ (Chip_8_new_wf rnd) H) as Hwf.
  pose proof (LoadProgram_from_footprint _ _ _ _ H) as F.
  pose proof (LoadProgram_from_below file 0x200 _ s ltac:(lia) H) as Hlow.
  assert (PC s = 0) as HPC by (apply (F f_PC); cbn; intuition discriminate).
  split; [exact HPC|]. split; [exact Hlow|].
  apply (ExecuteInst_JP s 0x200 Hwf ltac:(lia)).
  unfold fetches. rewrite HPC. rewrite !Hlow by lia.
  split; vm_compute; reflexivity.
Qed.

Lemma first_instruction_jumps_to_the_program_witness :
  LoadProgram [0xAB; 0xCD] (Chip_8_new (fun _ => 0)) = Done loaded_demo /\
  PC loaded_demo = 0 /\
  (forall a, 0 <= a < 0x200 ->
     vec_at (mem loaded_demo) a = vec_at (mem (Chip_8_new (fun _ => 0))) a) /\
  ExecuteInst loaded_demo = Done (set_PC loaded_demo 0x200).
Proof.
  assert (LoadProgram [0xAB; 0xCD] (Chip_8_new (fun _ => 0)) = Done loaded_demo) as Hl
    by (vm_compute; reflexivity).
  split; [exact Hl|].
  exact (first_instruction_jumps_to_the_program (fun _ => 0) [0xAB; 0xCD] loaded_demo Hl).
Defined.

(** ** What a draw does to each pixel *)

Lemma mask_app us vs (t : nat) : mask (us ++ vs) t = Z.lxor (mask us t) (mask vs t).
Proof.
  induction us as [|u us IH]; cbn [app mask]; [reflexivity|].
  destruct (Nat.eqb (fst u) t); [rewrite IH, Z.lxor_assoc; reflexivity | exact IH].
Qed.

(** Of the rounds of a loop, one alone aims at [t]. *)
Lemma mask_loop_updates (f : Z -> list (nat * Z)) (k : nat) (i j : Z) (t : nat) :
  i <= j < i + Z.of_nat k ->
  (forall j', i <= j' < i + Z.of_nat k -> j' <> j -> ~ In t (map fst (f j'))) ->
  mask (loop_updates k i f) t = mask (f j) t.
Proof.
  revert i. induction k as [|k IH]; intros i Hj Hother; [lia|].
  cbn [loop_updates]. rewrite mask_app.
  destruct (Z.eq_dec i j) as [->|Hne].
  - rewrite (mask_not_in (loop_updates k (j + 1) f)); [apply Z.lxor_0_r|].
    intros Hin. apply in_loop_updates in Hin as (j' & Hj' & Hin).
    apply (Hother j'); [lia | lia | exact Hin].
  - rewrite (mask_not_in (f i)) by (apply Hother; lia).
    rewrite Z.lxor_0_l. apply IH; [lia|].
    intros j' Hj' Hne'. apply Hother; [lia | exact Hne'].
Qed.

Lemma mask_sprite (vx vy : Z) (m : list Z) (base : Z) (n : nat) (r b line : Z) :
  Z.of_nat n <= 32 -> 0 <= r < Z.of_nat n -> 0 <= b < 8 ->
  vec_at m (base + r) = Done line ->
  mask (sprite_updates vx vy m base n) (target vx vy r b)
  = uint8_t (Z.land (Z.shiftr line (7 - b)) 1).
Proof.
  intros Hn Hr Hb Hline. unfold sprite_updates.
  rewrite (mask_loop_updates _ n 0 r) by
    (try lia; intros r' Hr' Hne Hin; apply in_row in Hin as (b' & Hb' & E);
     apply target_inj in E; lia).
  unfold row_updates. rewrite Hline.
  rewrite (mask_loop_updates _ 8 0 b) by
    (try lia; intros b' Hb' Hne Hin; cbn [map In fst bit_update] in Hin;
     destruct Hin as [E|[]]; apply (target_inj_bit vx vy r b' b) in E; lia).
  cbn [mask fst snd bit_update]. fold (target vx vy r b).
  rewrite Nat.eqb_refl. apply Z.lxor_0_r.
Qed.

(** X2.  What Dxyn does when neither coordinate register is [V[15]] and the
    [n] sprite bytes from [VI & 0xFFF] on lie inside the memory.  Bit [b]
    (counted from the left) of sprite line [r] is XORed onto the pixel in
    column [(V[x] + b) mod 64] of row [(V[y] + r) mod 32]: the sprite wraps
    around both edges of the display.  Every other pixel stays as it was.
    [V[15]] ends as 1 exactly when one of the pixels the sprite covers was
    on before the draw, and as 0 otherwise. *)
Theorem DRW_xors_the_sprite_bits (s : Chip_8) (x y n : Z) :
  well_formed s = true ->
  0 <= x < 15 -> 0 <= y < 15 -> 0 <= n < 16 ->
  fetches s (0xD000 + 0x100 * x + 0x10 * y + n) ->
  Z.land (VI s) 0xFFF + n <= 4096 ->
  exists vx vy s',
    vec_at (V s) x = Done vx /\ vec_at (V s) y = Done vy /\
    ExecuteInst s = Done s' /\
    (forall r b line p,
       0 <= r < n -> 0 <= b < 8 ->
       vec_at (mem s) (Z.land (VI s) 0xFFF + r) = Done line ->
       vec_at (pixels s) (64 * ((r + vy) mod 32) + (b + vx) mod 64) = Done p ->
       vec_at (pixels s') (64 * ((r + vy) mod 32) + (b + vx) mod 64)
       = Done (Z.lxor p (Z.land (Z.shiftr line (7 - b)) 1))) /\
    (forall j,
       0 <= j ->
       (forall r b, 0 <= r < n -> 0 <= b < 8 ->
          j <> 64 * ((r + vy) mod 32) + (b + vx) mod 64) ->
       vec_at (pixels s') j = vec_at (pixels s) j) /\
    (vec_at (V s') 15 = Done 1 \/ vec_at (V s') 15 = Done 0) /\
    (vec_at (V s') 15 = Done 1 <->
     exists r b, 0 <= r < n /\ 0 <= b < 8 /\
       vec_at (pixels s) (64 * ((r + vy) mod 32) + (b + vx) mod 64) = Done 1).
Proof.
  intros Hwf Hx Hy Hn Hf Hin.
  destruct (DRW_flag_is_any_lit_target s x y n Hwf Hx Hy Hn Hf Hin)
    as (vx & vy & s' & Hvx & Hvy & He & H01 & Hflag).
  exists vx, vy, s'. split; [exact Hvx|]. split; [exact Hvy|]. split; [exact He|].
  pose proof (wf_facts_set_PC s _ Hwf Hf) as Hw'.
  assert (coords x y vx vy (set_PC s (PC s + 2))) as Hc by (split; assumption).
  destruct (op_DRW_drawn x y vx vy ltac:(lia) ltac:(lia) n _ Hw' Hc ltac:(lia) Hin)
    as (s'' & E & D & _).
  rewrite (ExecuteInst_DRW s x y n) in He by (lia || assumption).
  rewrite E in He. injection He as ->.
  destruct D as (Dp & _). cbn [pixels mem VI set_PC] in Dp.
  split; [|split; [|split; [exact H01 | exact Hflag]]].
  - intros r b line p Hr Hb Hline Hp.
    pose proof (Z.mod_pos_bound (r + vy) 32 ltac:(lia)).
    pose proof (Z.mod_pos_bound (b + vx) 64 ltac:(lia)).
    apply vec_at_Done. split; [lia|].
    apply vec_at_Done in Hp as [_ Hp].
    rewrite <- target_eq in *. rewrite Dp, xor_all_lookup, Hp. cbn [fmap option_fmap option_map].
    rewrite (mask_sprite vx vy (mem s) _ (Z.to_nat n) r b line) by (lia || assumption).
    unfold uint8_t. rewrite land_1. f_equal. f_equal. euclid.
  - intros j Hj Hno. unfold vec_at. destruct (Z.ltb_spec j 0); [reflexivity|].
    rewrite Dp, xor_all_lookup, mask_not_in.
    + destruct (pixels s !! Z.to_nat j); cbn; [rewrite Z.lxor_0_r|]; reflexivity.
    + intros Hi. unfold sprite_updates in Hi.
      apply in_loop_updates in Hi as (r & Hr & Hi).
      apply in_row in Hi as (b & Hb & Et). rewrite target_eq in Et.
      pose proof (Z.mod_pos_bound (r + vy) 32 ltac:(lia)).
      pose proof (Z.mod_pos_bound (b + vx) 64 ltac:(lia)).
      apply Z2Nat.inj in Et; [|lia|lia].
      apply (Hno r b); [lia | lia | exact Et].
Qed.

Lemma DRW_xors_the_sprite_bits_witness :
  well_formed drw_wrap_demo = true /\
  0 <= 0 < 15 /\ 0 <= 1 < 15 /\ 0 <= 2 < 16 /\
  fetches drw_wrap_demo (0xD000 + 0x100 * 0 + 0x10 * 1 + 2) /\
  Z.land (VI drw_wrap_demo) 0xFFF + 2 <= 4096 /\
  exists vx vy s',
    vec_at (V drw_wrap_demo) 0 = Done vx /\ vec_at (V drw_wrap_demo) 1 = Done vy /\
    ExecuteInst drw_wrap_demo = Done s' /\
    (forall r b line p,
       0 <= r < 2 -> 0 <= b < 8 ->
       vec_at (mem drw_wrap_demo) (Z.land (VI drw_wrap_demo) 0xFFF + r) = Done line ->
       vec_at (pixels drw_wrap_demo) (64 * ((r + vy) mod 32) + (b + vx) mod 64) = Done p ->
       vec_at (pixels s') (64 * ((r + vy) mod 32) + (b + vx) mod 64)
       = Done (Z.lxor p (Z.land (Z.shiftr line (7 - b)) 1))) /\
    (forall j,
       0 <= j ->
       (forall r b, 0 <= r < 2 -> 0 <= b < 8 ->
          j <> 64 * ((r + vy) mod 32) + (b + vx) mod 64) ->
       vec_at (pixels s') j = vec_at (pixels drw_wrap_demo) j) /\
    (vec_at (V s') 15 = Done 1 \/ vec_at (V s') 15 = Done 0) /\
    (vec_at (V s') 15 = Done 1 <->
     exists r b, 0 <= r < 2 /\ 0 <= b < 8 /\
       vec_at (pixels drw_wrap_demo) (64 * ((r + vy) mod 32) + (b + vx) mod 64) = Done 1).
Proof.
  assert (well_formed drw_wrap_demo = true) as Hwf by (vm_compute; reflexivity).
  assert (fetches drw_wrap_demo (0xD000 + 0x100 * 0 + 0x10 * 1 + 2)) as Hf
    by (split; vm_compute; reflexivity).
  assert (Z.land (VI drw_wrap_demo) 0xFFF + 2 <= 4096) as Hin
    by (vm_compute; discriminate).
  split; [exact Hwf|]. split; [lia|]. split; [lia|]. split; [lia|].
  split; [exact Hf|]. split; [exact Hin|].
  exact (DRW_xors_the_sprite_bits drw_wrap_demo 0 1 2 Hwf
           ltac:(lia) ltac:(lia) ltac:(lia) Hf Hin).
Defined.
